(** * Smart PAC: rule resolution and PAC generation

    A shallow embedding of the rule-matching core ([hostMatch],
    [resolveHostsByRule], [findProxyForURL], [generatePac]), of the
    data-access layer ([parseHostIds] and the calls built on it, run
    on the in-memory database of its tests) and of the first service:
    the pre-expanded PAC generator of the [/pac] route, with a reader
    of the script it writes, and the checks of its user and host
    routes.

    The first part holds the definitions, module by module as the
    sources are laid out; the second part holds the theorems. *)

From Stdlib Require Import Strings.String Strings.Ascii.
From Stdlib Require Import Lists.List.
From Stdlib Require Import ZArith Lia Bool.
From Stdlib Require Import QArith Qcanon.
From Stdlib Require Import Numbers.DecimalString.
From Stdlib Require Numbers.DecimalFacts Numbers.DecimalPos Numbers.DecimalZ.
Import ListNotations.

Local Close Scope Qc_scope.
Local Close Scope Q_scope.
Local Open Scope nat_scope.
Local Open Scope list_scope.
Local Open Scope string_scope.

(** ** The string built-ins the sources rely on

    A JavaScript string is a finite sequence of code units; it is
    modelled by [string], a finite sequence of characters.  The methods
    below follow the definitions of the language standard. *)
Module JS.

(** [s.slice(n)] for [0 <= n]: the code units of [s] from index [n] on. *)
Fixpoint slice (n : nat) (s : string) : string :=
  match n, s with
  | O, _ => s
  | S _, EmptyString => EmptyString
  | S m, String _ t => slice m t
  end.

(** [s.substring(0, n)]: the first [n] code units of [s]. *)
Fixpoint take (n : nat) (s : string) : string :=
  match n, s with
  | O, _ => EmptyString
  | S _, EmptyString => EmptyString
  | S m, String c t => String c (take m t)
  end.

(** [s.startsWith(p)]. *)
Fixpoint startsWith (s p : string) {struct p} : bool :=
  match p, s with
  | EmptyString, _ => true
  | String _ _, EmptyString => false
  | String a p', String b s' => Ascii.eqb a b && startsWith s' p'
  end.

(** [s.endsWith(p)]: with [start = length s - length p], false when
    [start < 0], else the comparison of the code units of [s] from
    [start] on with [p]. *)
Definition endsWith (s p : string) : bool :=
  if Nat.leb (String.length p) (String.length s)
  then String.eqb (slice (String.length s - String.length p) s) p
  else false.

(** [xs.join(sep)] on an array of strings. *)
Fixpoint join (sep : string) (xs : list string) : string :=
  match xs with
  | [] => ""
  | [x] => x
  | x :: rest => x ++ sep ++ join sep rest
  end.

(** [s.replace(/c/g, by)] for a one-character pattern [c] and a
    replacement text [by] without [$]: every occurrence of [c], left to
    right, is replaced by [by]. *)
Fixpoint replaceAll (c : ascii) (by_ : string) (s : string) : string :=
  match s with
  | EmptyString => EmptyString
  | String a t =>
      if Ascii.eqb a c then by_ ++ replaceAll c by_ t
      else String a (replaceAll c by_ t)
  end.

(** The text a template literal gives for an integer-valued number
    (host ids and ports): its decimal numeral. *)
Definition Number_toString (z : Z) : string :=
  NilZero.string_of_int (Z.to_int z).

(** The double quote and the line feed, the two characters of the
    templates that a literal cannot hold as they are. *)
Definition dq : string := String "034"%char "".
Definition nl : string := String "010"%char "".

(** [s] ends with [p], as a proposition. *)
Definition is_suffix (p s : string) : Prop := exists pre, s = pre ++ p.

(** [s] begins with [p], as a proposition. *)
Definition is_prefix (p s : string) : Prop := exists rest, s = p ++ rest.

(** [p] occurs in [s]. *)
Definition occurs_in (p s : string) : Prop :=
  exists pre post, s = pre ++ p ++ post.

(** [s.includes(p)]: [p] occurs in [s] at some index. *)
Fixpoint includes (s p : string) : bool :=
  startsWith s p
  || match s with
     | EmptyString => false
     | String _ t => includes t p
     end.

End JS.

(** ** The rule-matching core (utils) *)
Module Utils.

(** Modelled from the spec: the declarations of [Host], [Rule] and
    [HostConfig] (imported from the types module) are not among the
    sources.  The fields are those of the spec's data model, with the
    types their uses give them: [name] and [type] are optional
    ([host.name ?? null], [host.type ?? 'PROXY'], [item.type || 'PROXY'])
    and [type] is any string (the data-access layer stores whatever
    non-blank text it is given, its tests store [SOCKS5]).  Ids and
    ports are integers. *)
Record Host : Type := mkHost {
  id : Z;
  name : option string;
  host : string;
  port : Z;
  type : option string;
}.

(** A rule is the pair [[pattern, hostIds]]. *)
Definition Rule : Type := (string * list Z)%type.

Record HostConfig : Type := mkHostConfig {
  hosts : list Host;
  rules : list Rule;
}.

(** host wildcard matching *)
Definition hostMatch (host rule : string) : bool :=
  if JS.startsWith rule "*."
  then JS.endsWith host (JS.slice 2 rule)
  else String.eqb host rule.

(** [xs.filter((item) => Boolean(item))] on an array whose entries are
    a [Host] object or [undefined]: an object is truthy, [undefined] is
    dropped. *)
Fixpoint filter_Boolean (xs : list (option Host)) : list Host :=
  match xs with
  | [] => []
  | Some h :: rest => h :: filter_Boolean rest
  | None :: rest => filter_Boolean rest
  end.

(** [hostIds.map((hostId) => hosts.find((item) => item.id === hostId))
    .filter(Boolean)]: the hosts the ids of a rule stand for. *)
Definition hostsOfIds (hosts : list Host) (hostIds : list Z) : list Host :=
  filter_Boolean
    (List.map
       (fun hostId => List.find (fun item => Z.eqb item.(id) hostId) hosts)
       hostIds).

Definition resolveHostsByRule (hostConfig : HostConfig) (host : string)
  : list Host :=
  let hosts := hostConfig.(hosts) in
  let rules := hostConfig.(rules) in
  match List.find (fun item => hostMatch host (fst item)) rules with
  | None => []
  | Some hostRule => hostsOfIds hosts (snd hostRule)
  end.

(** [item.type || 'PROXY']: an absent type and the empty string are
    both falsy. *)
Definition type_or_PROXY (item : Host) : string :=
  match item.(type) with
  | None => "PROXY"
  | Some "" => "PROXY"
  | Some t => t
  end.

(** The template [`${item.type || 'PROXY'} ${item.host}:${item.port}`]. *)
Definition directive (item : Host) : string :=
  type_or_PROXY item ++ " " ++ item.(host) ++ ":"
    ++ JS.Number_toString item.(port).

Definition findProxyForURL (hostConfig : HostConfig) (_url host : string)
  : string :=
  let matchedHosts := resolveHostsByRule hostConfig host in
  let proxies := List.map directive matchedHosts in
  let proxies := (proxies ++ ["DIRECT"])%list in
  JS.join ";" proxies.

(** The functions of this module, as far as [generatePac] can embed
    their source text. *)
Inductive ModuleFunction : Type :=
| fn_hostMatch
| fn_resolveHostsByRule
| fn_findProxyForURL.

(** The strings [generatePac] puts on its list, one per line of the
    script.  Two kinds of line are kept in the structure their text has
    for the engine that runs the script:
    - [const_hostConfig c] is [`const hostConfig=${JSON.stringify(c)}`]
      (the JSON text of a configuration is a literal that evaluates to
      that configuration);
    - [function_source f] is [`${f.toString()};`], the declaration of
      [f] under its own name with its own body.
    The other lines are literal text. *)
Inductive Line : Type :=
| const_hostConfig (value : HostConfig)
| function_source (f : ModuleFunction)
| text (line : string).

(** The lines of the script; the result of [generatePac] is their
    [join] with line feeds. *)
Definition Script : Type := list Line.

(** generate the PAC file *)
Definition generatePac (hostConfig : HostConfig) : Script :=
  let stringList : Script := [] in
  let stringList := (stringList ++ [const_hostConfig hostConfig])%list in
  let stringList := (stringList ++ [function_source fn_hostMatch])%list in
  let stringList :=
    (stringList ++ [function_source fn_findProxyForURL])%list in
  let stringList :=
    (stringList ++ [text "function FindProxyForURL(url, host) {"])%list in
  let stringList :=
    (stringList
       ++ [text (String "009"%char
                   "return findProxyForURL(hostConfig, url, host);")])%list in
  let stringList := (stringList ++ [text "}"])%list in
  stringList.

(** The configuration of the unit tests. *)
Definition test_hostConfig : HostConfig :=
  {| hosts :=
       [ mkHost 1 None "proxy.example.com" 8080 (Some "SOCKS");
         mkHost 2 None "proxy2.example.com" 8081 (Some "HTTP") ];
     rules :=
       [ ("*.google.com", [1%Z]);
         ("*.github.com", [1%Z; 2%Z]);
         ("a.youtube.com", [2%Z]) ] |}.

(** A host record whose type is the empty string, and a configuration
    with that host only. *)
Definition empty_type_host : Host :=
  mkHost 1 None "proxy.example.com" 8080 (Some "").

Definition empty_type_hostConfig : HostConfig :=
  {| hosts := [ empty_type_host ];
     rules := [ ("*.example.org", [1%Z]) ] |}.

End Utils.

(** ** Running a generated script

    The engine that loads a PAC script evaluates its top-level
    declarations, which bind names in the script's global scope, and then
    calls [FindProxyForURL(url, host)].  A function body that was
    embedded as text runs in that scope: its free identifiers
    ([hostMatch] in [resolveHostsByRule], [resolveHostsByRule] in
    [findProxyForURL], [findProxyForURL] and [hostConfig] in the
    wrapper) are looked up there when the call is evaluated, and a name
    that the script does not bind raises a [ReferenceError]. *)
Module PacEngine.
Import Utils.

Inductive Exception : Type :=
| ReferenceError (identifier : string).

Inductive Outcome (A : Type) : Type :=
| Returned (value : A)
| Threw (e : Exception).
Arguments Returned {A} value.
Arguments Threw {A} e.

Definition bind {A B : Type} (m : Outcome A) (k : A -> Outcome B)
  : Outcome B :=
  match m with
  | Returned a => k a
  | Threw e => Threw e
  end.

Notation "x <- m ;; k" := (bind m (fun x => k))
  (at level 61, m at next level, right associativity).

Definition ModuleFunction_eqb (f g : ModuleFunction) : bool :=
  match f, g with
  | fn_hostMatch, fn_hostMatch => true
  | fn_resolveHostsByRule, fn_resolveHostsByRule => true
  | fn_findProxyForURL, fn_findProxyForURL => true
  | _, _ => false
  end.

(** The script binds the name of [f] (to the body of [f]). *)
Definition declares (script : Script) (f : ModuleFunction) : bool :=
  List.existsb
    (fun line => match line with
                 | function_source g => ModuleFunction_eqb f g
                 | _ => false
                 end)
    script.

(** The script binds [FindProxyForURL] to the wrapper: it has the three
    lines of
    [function FindProxyForURL(url, host) {
       return findProxyForURL(hostConfig, url, host); }]
    in a row. *)
Fixpoint declares_wrapper (script : Script) : bool :=
  match script with
  | [] => false
  | line :: rest =>
      match line, rest with
      | text l1, text l2 :: text l3 :: _ =>
          String.eqb l1 "function FindProxyForURL(url, host) {"
          && String.eqb l2
               (String "009"%char
                  "return findProxyForURL(hostConfig, url, host);")
          && String.eqb l3 "}"
      | _, _ => false
      end
      || declares_wrapper rest
  end.

(** The value the script binds to [hostConfig], if any. *)
Fixpoint hostConfig_of (script : Script) : option HostConfig :=
  match script with
  | [] => None
  | const_hostConfig c :: _ => Some c
  | _ :: rest => hostConfig_of rest
  end.

Section Run.
Variable script : Script.

(** A call [hostMatch(host, rule)] evaluated in the script. *)
Definition call_hostMatch (host rule : string) : Outcome bool :=
  if declares script fn_hostMatch
  then Returned (hostMatch host rule)
  else Threw (ReferenceError "hostMatch").

(** [rules.find((item) => hostMatch(host, item[0]))]: the callback runs
    on each rule in turn until it answers true. *)
Fixpoint find_rule (host : string) (rules : list Rule)
  : Outcome (option Rule) :=
  match rules with
  | [] => Returned None
  | item :: rest =>
      matched <- call_hostMatch host (fst item) ;;
      if matched then Returned (Some item) else find_rule host rest
  end.

(** The body of [resolveHostsByRule]. *)
Definition body_resolveHostsByRule (hostConfig : HostConfig) (host : string)
  : Outcome (list Host) :=
  hostRule <- find_rule host hostConfig.(rules) ;;
  match hostRule with
  | None => Returned []
  | Some hostRule => Returned (hostsOfIds hostConfig.(hosts) (snd hostRule))
  end.

(** A call [resolveHostsByRule(hostConfig, host)] evaluated in the
    script. *)
Definition call_resolveHostsByRule (hostConfig : HostConfig) (host : string)
  : Outcome (list Host) :=
  if declares script fn_resolveHostsByRule
  then body_resolveHostsByRule hostConfig host
  else Threw (ReferenceError "resolveHostsByRule").

(** The body of [findProxyForURL]. *)
Definition body_findProxyForURL (hostConfig : HostConfig) (_url host : string)
  : Outcome string :=
  matchedHosts <- call_resolveHostsByRule hostConfig host ;;
  let proxies := List.map directive matchedHosts in
  let proxies := (proxies ++ ["DIRECT"])%list in
  Returned (JS.join ";" proxies).

(** The body of the wrapper: the callee is evaluated first, then the
    arguments, then the call. *)
Definition body_wrapper (url host : string) : Outcome string :=
  if declares script fn_findProxyForURL
  then match hostConfig_of script with
       | Some hostConfig => body_findProxyForURL hostConfig url host
       | None => Threw (ReferenceError "hostConfig")
       end
  else Threw (ReferenceError "findProxyForURL").

(** What the engine gets when it calls [FindProxyForURL(url, host)]. *)
Definition FindProxyForURL (url host : string) : Outcome string :=
  if declares_wrapper script
  then body_wrapper url host
  else Threw (ReferenceError "FindProxyForURL").

End Run.

End PacEngine.

(** ** The data-access layer (api): decoding a rule's [host_ids] *)
Module Api.

(** A JavaScript number: [NaN], an infinity, or a finite value, kept as
    the rational it denotes (the two zeros are one value here; nothing
    below tells them apart). *)
Inductive number : Type :=
| NaN
| Infinity (negative : bool)
| Finite (q : Qc).

(** The number an integer denotes. *)
Definition of_Z (z : Z) : number := Finite (Q2Qc (inject_Z z)).

(** [Number.isInteger(n)]. *)
Definition Number_isInteger (n : number) : bool :=
  match n with
  | Finite q => Pos.eqb (Qden q) 1
  | _ => false
  end.

(** [n > 0]. *)
Definition gt_zero (n : number) : bool :=
  match n with
  | NaN => false
  | Infinity negative => negb negative
  | Finite q => Z.ltb 0 (Qnum q)
  end.

(** The comparison a [Set] uses for its members (SameValueZero). *)
Definition SameValueZero (a b : number) : bool :=
  match a, b with
  | NaN, NaN => true
  | Infinity s, Infinity t => Bool.eqb s t
  | Finite p, Finite q => Qc_eq_bool p q
  | _, _ => false
  end.

(** [Array.from(new Set(xs))]: the members are added in turn, one that
    is already there is not added again, and they are listed in the
    order in which they were added. *)
Definition Set_add (members : list number) (x : number) : list number :=
  if List.existsb (SameValueZero x) members then members
  else (members ++ [x])%list.

Definition Array_from_Set (xs : list number) : list number :=
  List.fold_left Set_add xs [].

(** The values [JSON.parse] returns. *)
#[warnings="-register-all"]
Inductive json : Type :=
| JNull
| JBool (b : bool)
| JNumber (n : number)
| JString (s : string)
| JArray (items : list json)
| JObject (members : list (string * json)).

(** [Array.isArray(v)]. *)
Definition Array_isArray (v : json) : bool :=
  match v with
  | JArray _ => true
  | _ => false
  end.

Section Decode.

(** The built-ins of the engine that the decoder calls: [JSON.parse]
    ([None] when it throws a [SyntaxError]), and the conversion to a
    number of a string and of an array or object.  The latter goes
    through the conversion of the value to a primitive, which calls its
    [valueOf] and [toString]; an object can carry members of these
    names that are not functions, and the conversion then throws a
    [TypeError] ([None]). *)
Variable JSON_parse : string -> option json.
Variable StringToNumber : string -> number.
Variable ObjectToNumber : json -> option number.

(** [Number(item)] on a value that [JSON.parse] returned; [None] when
    it throws. *)
Definition Number (item : json) : option number :=
  match item with
  | JNull => Some (of_Z 0)
  | JBool false => Some (of_Z 0)
  | JBool true => Some (of_Z 1)
  | JNumber n => Some n
  | JString s => Some (StringToNumber s)
  | JArray _ | JObject _ => ObjectToNumber item
  end.

(** [parsed.map((item) => Number(item))]: the callback runs on the
    entries in turn, and an exception it throws leaves the loop. *)
Fixpoint map_Number (parsed : list json) : option (list number) :=
  match parsed with
  | [] => Some []
  | item :: rest =>
      match Number item with
      | None => None
      | Some n =>
          match map_Number rest with
          | None => None
          | Some ns => Some (n :: ns)
          end
      end
  end.

(** [ids] is [string | null]; [!ids] holds of [null] and of the empty
    string.  The [catch] branch, which both [JSON.parse] and
    [Number(item)] can reach, logs and returns the empty array. *)
Definition parseHostIds (ids : option string) : list number :=
  match ids with
  | None => []
  | Some "" => []
  | Some ids =>
      match JSON_parse ids with
      | None => []
      | Some parsed =>
          if negb (Array_isArray parsed) then []
          else
            match parsed with
            | JArray parsed =>
                match map_Number parsed with
                | None => []
                | Some numbers =>
                    let sanitized :=
                      List.filter
                        (fun item => Number_isInteger item && gt_zero item)
                        numbers in
                    Array_from_Set sanitized
                end
            | _ => []
            end
      end
  end.

End Decode.

(** The graph of [JSON.parse] on a few texts, and conversions that
    answer [NaN] off the numeric texts among them, to run the decoder
    on.  The last text is [[1,{"toString":null}]]: its second entry has
    a [toString] that is not a function, and its conversion to a number
    throws. *)
Definition toString_null_text : string :=
  "[1,{" ++ JS.dq ++ "toString" ++ JS.dq ++ ":null}]".

Definition sample_JSON_parse (text : string) : option json :=
  if String.eqb text "[1,2,2,1,3]" then
    Some (JArray [JNumber (of_Z 1); JNumber (of_Z 2); JNumber (of_Z 2);
                  JNumber (of_Z 1); JNumber (of_Z 3)])
  else if String.eqb text "[3,-1,0,null,true,{},2,3]" then
    Some (JArray [JNumber (of_Z 3); JNumber (of_Z (-1)); JNumber (of_Z 0);
                  JNull; JBool true; JObject []; JNumber (of_Z 2);
                  JNumber (of_Z 3)])
  else if String.eqb text "{}" then Some (JObject [])
  else if String.eqb text "7" then Some (JNumber (of_Z 7))
  else if String.eqb text "[]" then Some (JArray [])
  else if String.eqb text toString_null_text then
    Some (JArray [JNumber (of_Z 1); JObject [("toString", JNull)]])
  else None.

Definition sample_StringToNumber (s : string) : number :=
  if String.eqb s "" then of_Z 0 else NaN.

Definition sample_ObjectToNumber (v : json) : option number :=
  match v with
  | JArray [] => Some (of_Z 0)
  | JObject [("toString", JNull)] => None
  | _ => Some NaN
  end.

End Api.

(** ** The pre-expanded PAC script of the [/pac] route *)
Module StaticPac.

(** A row of [SELECT * FROM hosts], read as [interface Host]; [id] is
    optional there.  The interface names three types, [SOCKS], [HTTP]
    and [HTTPS]; the rows are not checked against it, and the route
    that stores a host takes any non-empty type, so that [type] is the
    stored text. *)
Record Host : Type := mkHost {
  id : option Z;
  user_id : Z;
  name : string;
  type : string;
  host : string;
  port : Z;
}.

(** A row of [SELECT pattern, host_ids FROM rules]: [host_ids] is the
    text the rule was stored with. *)
Record RuleRow : Type := mkRuleRow {
  pattern : string;
  host_ids : string;
}.

(** The text a template literal gives for [host.id]. *)
Definition id_text (i : option Z) : string :=
  match i with
  | Some z => JS.Number_toString z
  | None => "undefined"
  end.

(** The opening template of [pacContent]. *)
Definition pac_head : string :=
  JS.nl ++ "function FindProxyForURL(url, host) {" ++ JS.nl
  ++ "    // 默认直连" ++ JS.nl
  ++ "    var DEFAULT = " ++ JS.dq ++ "DIRECT" ++ JS.dq ++ ";" ++ JS.nl
  ++ "    " ++ JS.nl
  ++ "    // 定义代理服务器" ++ JS.nl
  ++ "    var PROXY = {" ++ JS.nl.

(** The entry of one host in the [PROXY] table, for a given keyword. *)
Definition proxy_entry (keyword : string) (h : Host) : string :=
  "        " ++ id_text h.(id) ++ ": " ++ JS.dq ++ keyword ++ " "
  ++ h.(host) ++ ":" ++ JS.Number_toString h.(port) ++ JS.dq ++ ","
  ++ JS.nl.

(** The body of [hosts.forEach]: what one host adds to [pacContent]. *)
Definition host_step (pacContent : string) (h : Host) : string :=
  if String.eqb h.(type) "SOCKS" then pacContent ++ proxy_entry "SOCKS5" h
  else if String.eqb h.(type) "HTTP" then pacContent ++ proxy_entry "PROXY" h
  else if String.eqb h.(type) "HTTPS" then pacContent ++ proxy_entry "HTTPS" h
  else pacContent.

(** The template between the table and the rules. *)
Definition pac_middle : string :=
  "    };" ++ JS.nl
  ++ "    " ++ JS.nl
  ++ "    // 匹配规则" ++ JS.nl.

(** [rule.pattern.replace(/\*/g, '.*').replace(/\./g, '\\.')] *)
Definition regex_source (pattern : string) : string :=
  JS.replaceAll "."%char "\." (JS.replaceAll "*"%char ".*" pattern).

(** The conditional one rule emits, for the text [hostId0] that the
    template gives for [hostIds[0]]. *)
Definition rule_statement (pattern : string) (hostId0 : string) : string :=
  "    if (/" ++ pattern ++ "/.test(host)) return PROXY["
  ++ hostId0 ++ "];" ++ JS.nl.

(** The closing template. *)
Definition pac_tail : string :=
  JS.nl ++ "    // 默认返回直连" ++ JS.nl
  ++ "    return DEFAULT;" ++ JS.nl ++ "}".

(** The member of an object that [JSON.parse] returned under the name
    [key]: of the members of that name in the text, the last one. *)
Fixpoint member (key : string) (members : list (string * Api.json))
  : option Api.json :=
  match members with
  | [] => None
  | (k, v) :: rest =>
      match member key rest with
      | Some later => Some later
      | None => if String.eqb k key then Some v else None
      end
  end.

Section Handler.

(** The built-ins of the engine that the handler calls on the
    [host_ids] column: [JSON.parse] ([None] when it throws), the
    conversion to a number of a string and of an array or object, the
    conversion to a string of an array or object (both [None] when
    they throw, as they do on an object whose [toString] and [valueOf]
    are not functions), and the text of a number that is not an
    integer.  The rule routes write the column as [JSON.stringify] of
    a [number[]], but the handler takes whatever text the row holds. *)
Variable JSON_parse : string -> option Api.json.
Variable StringToNumber : string -> Api.number.
Variable ObjectToNumber : Api.json -> option Api.number.
Variable ObjectToString : Api.json -> option string.
Variable FractionToString : Qc -> string.

(** [hostIds.length > 0]; [None] when it throws.  Reading a property
    of [null] throws.  A boolean and a number have no [length], and
    [undefined > 0] is false.  A string and an array have their
    length.  An object has the member of that name, if any, which the
    comparison converts to a number. *)
Definition length_gt_0 (hostIds : Api.json) : option bool :=
  match hostIds with
  | Api.JNull => None
  | Api.JBool _ | Api.JNumber _ => Some false
  | Api.JString s => Some (Nat.ltb 0 (String.length s))
  | Api.JArray items => Some (Nat.ltb 0 (List.length items))
  | Api.JObject members =>
      match member "length" members with
      | None => Some false
      | Some length =>
          option_map Api.gt_zero
                     (Api.Number StringToNumber ObjectToNumber length)
      end
  end.

(** [hostIds[0]]; [None] stands for [undefined]. *)
Definition index_0 (hostIds : Api.json) : option Api.json :=
  match hostIds with
  | Api.JString (String c _) => Some (Api.JString (String c ""))
  | Api.JArray (item :: _) => Some item
  | Api.JObject members => member "0" members
  | _ => None
  end.

(** The text of a number: the decimal numeral of an integer, as for
    the ids and ports of the hosts, and the text the engine gives for
    any other finite number. *)
Definition number_text (n : Api.number) : string :=
  match n with
  | Api.NaN => "NaN"
  | Api.Infinity negative => if negative then "-Infinity" else "Infinity"
  | Api.Finite q =>
      if Pos.eqb (Qden q) 1 then JS.Number_toString (Qnum q)
      else FractionToString q
  end.

(** The text a template literal gives for a value ([None] is
    [undefined]); [None] when the conversion throws. *)
Definition template_text (v : option Api.json) : option string :=
  match v with
  | None => Some "undefined"
  | Some Api.JNull => Some "null"
  | Some (Api.JBool b) => Some (if b then "true" else "false")
  | Some (Api.JNumber n) => Some (number_text n)
  | Some (Api.JString s) => Some s
  | Some (Api.JArray items) => ObjectToString (Api.JArray items)
  | Some (Api.JObject members) => ObjectToString (Api.JObject members)
  end.

(** The body of [rules.forEach]: what one rule adds to [pacContent];
    [None] when an exception leaves the callback. *)
Definition rule_step (pacContent : string) (rule : RuleRow) : option string :=
  let pattern := regex_source rule.(pattern) in
  match JSON_parse rule.(host_ids) with
  | None => None
  | Some hostIds =>
      match length_gt_0 hostIds with
      | None => None
      | Some true =>
          match template_text (index_0 hostIds) with
          | None => None
          | Some hostId0 =>
              Some (pacContent ++ rule_statement pattern hostId0)
          end
      | Some false => Some pacContent
      end
  end.

(** [rules.forEach] with an exception leaving the loop. *)
Fixpoint forEach_rule (pacContent : string) (rules : list RuleRow)
  : option string :=
  match rules with
  | [] => Some pacContent
  | rule :: rest =>
      match rule_step pacContent rule with
      | None => None
      | Some pacContent => forEach_rule pacContent rest
      end
  end.

(** The body the route answers with, from the rows of its two queries;
    [None] when an exception sends the handler to its [catch] branch
    (which answers with an error instead of a script). *)
Definition pac (hosts : list Host) (rules : list RuleRow) : option string :=
  let pacContent := pac_head in
  let pacContent := List.fold_left host_step hosts pacContent in
  let pacContent := pacContent ++ pac_middle in
  match forEach_rule pacContent rules with
  | None => None
  | Some pacContent => Some (pacContent ++ pac_tail)
  end.

End Handler.

(** The graph of [JSON.parse] on a few [host_ids] texts, and
    conversions for the values among them. *)
Definition sample_JSON_parse (text : string) : option Api.json :=
  if String.eqb text "[]" then Some (Api.JArray [])
  else if String.eqb text "[1]" then
    Some (Api.JArray [Api.JNumber (Api.of_Z 1)])
  else if String.eqb text "[2,1]" then
    Some (Api.JArray [Api.JNumber (Api.of_Z 2); Api.JNumber (Api.of_Z 1)])
  else if String.eqb text "null" then Some Api.JNull
  else if String.eqb text "5" then Some (Api.JNumber (Api.of_Z 5))
  else if String.eqb text (JS.dq ++ "21" ++ JS.dq) then
    Some (Api.JString "21")
  else None.

Definition sample_ObjectToString (v : Api.json) : option string :=
  match v with
  | Api.JArray [] => Some ""
  | _ => Some "[object Object]"
  end.

Definition sample_FractionToString (q : Qc) : string := "0.5".

(** The ids of the sample rows, and a matcher that knows the sample
    host [a.youtube.com] only. *)
Definition sample_ids_of (rule : RuleRow) : list Z :=
  if String.eqb rule.(host_ids) "[2,1]" then [2%Z; 1%Z]
  else if String.eqb rule.(host_ids) "[1]" then [1%Z]
  else [].

Definition sample_RegExp_test (source s : string) : bool :=
  String.eqb source "a\.youtube\.com" && String.eqb s "a.youtube.com".

(** The handler on these built-ins. *)
Definition sample_pac (hosts : list Host) (rules : list RuleRow)
  : option string :=
  pac sample_JSON_parse Api.sample_StringToNumber Api.sample_ObjectToNumber
    sample_ObjectToString sample_FractionToString hosts rules.

(** Two hosts and three rules, the second without ids. *)
Definition sample_hosts : list Host :=
  [ mkHost (Some 1%Z) 1 "a" "SOCKS" "proxy.example.com" 8080;
    mkHost (Some 2%Z) 1 "b" "HTTP" "proxy2.example.com" 8081 ].

(** A host that was stored with the type [PROXY]. *)
Definition PROXY_host : Host :=
  mkHost (Some 3%Z) 1 "c" "PROXY" "proxy3.example.com" 3128.

Definition sample_rules : list RuleRow :=
  [ mkRuleRow "*.github.com" "[2,1]";
    mkRuleRow "*.example.org" "[]";
    mkRuleRow "a.youtube.com" "[1]" ].

End StaticPac.

(** ** Reading and running the pre-expanded script

    The engine that loads the script of the [/pac] route reads its text
    as a program and calls [FindProxyForURL(url, host)].  The reader
    below covers the fragment of the language that the templates of the
    route are written in: one function of two parameters whose body is
    a list of [var] declarations, of conditionals [if (...) return
    ...;] and of [return] statements, over string literals,
    identifiers, regular-expression literals with a call of [test],
    object literals with string values, and the lookup of a numeric key
    in an object.  A text outside the fragment is not read
    ([not_read]): nothing is said about it. *)
Module ScriptEngine.

Inductive token : Type :=
| identifier (name : string)
| numeral (digits : string)
| string_literal (value : string)
| regex_literal (source : string)
| punctuator (c : ascii).

(** What the scanner is in the middle of. *)
Inductive mode : Type :=
| between
| in_identifier (name : string)
| in_numeral (digits : string)
| in_string (value : string)
| after_slash
| in_regex (source : string) (quantifiable : bool)
| in_regex_escape (source : string)
| after_regex
| in_comment.

Definition is_line_terminator (c : ascii) : bool :=
  Ascii.eqb c "010" || Ascii.eqb c "013".

Definition is_space (c : ascii) : bool :=
  Ascii.eqb c " " || Ascii.eqb c "009" || is_line_terminator c.

Definition is_digit (c : ascii) : bool :=
  Nat.leb 48 (nat_of_ascii c) && Nat.leb (nat_of_ascii c) 57.

Definition is_letter (c : ascii) : bool :=
  (Nat.leb 65 (nat_of_ascii c) && Nat.leb (nat_of_ascii c) 90)
  || (Nat.leb 97 (nat_of_ascii c) && Nat.leb (nat_of_ascii c) 122)
  || Ascii.eqb c "_" || Ascii.eqb c "$".

Definition is_punctuator (c : ascii) : bool :=
  List.existsb (Ascii.eqb c)
    ["("; ")"; "{"; "}"; "["; "]"; ","; ";"; ":"; "="; "."]%char.

Definition snoc (s : string) (c : ascii) : string := s ++ String c "".

(** The first character of a token, or white space. *)
Definition start (tokens : list token) (c : ascii)
  : option (mode * list token) :=
  if is_space c then Some (between, tokens)
  else if is_letter c then Some (in_identifier (String c ""), tokens)
  else if is_digit c then Some (in_numeral (String c ""), tokens)
  else if Ascii.eqb c "034" then Some (in_string "", tokens)
  else if Ascii.eqb c "/" then Some (after_slash, tokens)
  else if is_punctuator c then Some (between, punctuator c :: tokens)
  else None.

(** A character of the body of a regular-expression literal.  The
    slash closes it.  A letter, a digit, a hyphen, an underscore and a
    dot are atoms, and so is a backslash with the dot, star, slash or
    backslash it escapes; a star repeats the atom before it.  The rest
    of the syntax of patterns is outside the fragment. *)
Definition regex_char (source : string) (quantifiable : bool)
           (tokens : list token) (c : ascii)
  : option (mode * list token) :=
  if Ascii.eqb c "/" then Some (after_regex, regex_literal source :: tokens)
  else if Ascii.eqb c "\" then Some (in_regex_escape (snoc source c), tokens)
  else if Ascii.eqb c "*" then
    if quantifiable then Some (in_regex (snoc source c) false, tokens)
    else None
  else if is_letter c && negb (Ascii.eqb c "$") || is_digit c
          || Ascii.eqb c "-" || Ascii.eqb c "."
  then Some (in_regex (snoc source c) true, tokens)
  else None.

(** One character.  The tokens are collected last first.  A string
    literal ends at the next double quote and holds neither a
    backslash (escapes are outside the fragment) nor a line
    terminator.  A slash begins a comment when another slash follows,
    and else a regular-expression literal, where an expression can
    begin (after an opening parenthesis). *)
Definition step (st : mode * list token) (c : ascii)
  : option (mode * list token) :=
  let (m, tokens) := st in
  match m with
  | between => start tokens c
  | in_identifier name =>
      if is_letter c || is_digit c then Some (in_identifier (snoc name c), tokens)
      else start (identifier name :: tokens) c
  | in_numeral digits =>
      if is_digit c then
        if String.eqb digits "0" then None
        else Some (in_numeral (snoc digits c), tokens)
      else if is_letter c || Ascii.eqb c "." then None
      else start (numeral digits :: tokens) c
  | in_string value =>
      if Ascii.eqb c "034" then Some (between, string_literal value :: tokens)
      else if Ascii.eqb c "\" || is_line_terminator c then None
      else Some (in_string (snoc value c), tokens)
  | after_slash =>
      if Ascii.eqb c "/" then Some (in_comment, tokens)
      else if Ascii.eqb c "*" then None
      else
        match tokens with
        | punctuator p :: _ =>
            if Ascii.eqb p "(" then regex_char "" false tokens c else None
        | _ => None
        end
  | in_regex source quantifiable => regex_char source quantifiable tokens c
  | in_regex_escape source =>
      if Ascii.eqb c "." || Ascii.eqb c "*" || Ascii.eqb c "/"
         || Ascii.eqb c "\"
      then Some (in_regex (snoc source c) true, tokens)
      else None
  | after_regex =>
      if is_letter c || is_digit c then None else start tokens c
  | in_comment =>
      if is_line_terminator c then Some (between, tokens)
      else Some (in_comment, tokens)
  end.

Fixpoint scan (st : mode * list token) (s : string)
  : option (mode * list token) :=
  match s with
  | EmptyString => Some st
  | String c rest =>
      match step st c with
      | None => None
      | Some st => scan st rest
      end
  end.

(** The end of the text. *)
Definition finish (st : mode * list token) : option (list token) :=
  let (m, tokens) := st in
  match m with
  | between | after_regex | in_comment => Some (List.rev tokens)
  | in_identifier name => Some (List.rev (identifier name :: tokens))
  | in_numeral digits => Some (List.rev (numeral digits :: tokens))
  | _ => None
  end.

Definition tokens_of (text : string) : option (list token) :=
  match scan (between, []) text with
  | None => None
  | Some st => finish st
  end.

(** *** The program *)

Inductive expression : Type :=
| string_value (s : string)
| variable (x : string)
| index (object : string) (digits : string)
| regex_test (source : string) (argument : string)
| object_literal (properties : list (string * string)).

Inductive statement : Type :=
| var_ (x : string) (init : expression)
| if_return (condition result : expression)
| return_ (result : expression).

Record Function : Type := mkFunction {
  function_name : string;
  parameters : string * string;
  body : list statement;
}.

(** The number a decimal numeral denotes, and the name of the property
    it stands for as a key: the text of that number. *)
Definition numeral_value (digits : string) : Z :=
  match NilZero.uint_of_string digits with
  | Some u => Z.of_uint u
  | None => 0
  end.

Definition numeral_key (digits : string) : string :=
  JS.Number_toString (numeral_value digits).

(** The key of a property of an object literal; the key [__proto__]
    does not name a property and is outside the fragment. *)
Definition property_key (t : token) : option string :=
  match t with
  | identifier x => if String.eqb x "__proto__" then None else Some x
  | numeral digits => Some (numeral_key digits)
  | string_literal s => if String.eqb s "__proto__" then None else Some s
  | _ => None
  end.

(** The words that cannot be bound as names. *)
Definition reserved (x : string) : bool :=
  List.existsb (String.eqb x)
    [ "break"; "case"; "catch"; "class"; "const"; "continue"; "debugger";
      "default"; "delete"; "do"; "else"; "enum"; "export"; "extends";
      "false"; "finally"; "for"; "function"; "if"; "import"; "in";
      "instanceof"; "new"; "null"; "return"; "super"; "switch"; "this";
      "throw"; "true"; "try"; "typeof"; "var"; "void"; "while"; "with" ].

(** The properties of an object literal, after its opening brace. *)
Fixpoint parse_properties (tokens : list token)
  : option (list (string * string) * list token) :=
  match tokens with
  | punctuator c :: rest => if Ascii.eqb c "}" then Some ([], rest) else None
  | key :: punctuator c1 :: string_literal v :: punctuator c2 :: rest =>
      match property_key key with
      | None => None
      | Some k =>
          if Ascii.eqb c1 ":" then
            if Ascii.eqb c2 "," then
              match parse_properties rest with
              | Some (ps, rest) => Some ((k, v) :: ps, rest)
              | None => None
              end
            else if Ascii.eqb c2 "}" then Some ([(k, v)], rest)
            else None
          else None
      end
  | _ => None
  end.

Definition parse_expression (tokens : list token)
  : option (expression * list token) :=
  match tokens with
  | string_literal s :: rest => Some (string_value s, rest)
  | regex_literal source :: punctuator d :: identifier m :: punctuator o
      :: identifier x :: punctuator c :: rest =>
      if Ascii.eqb d "." && String.eqb m "test" && Ascii.eqb o "("
         && Ascii.eqb c ")"
      then Some (regex_test source x, rest)
      else None
  | identifier x :: punctuator o :: numeral digits :: punctuator c :: rest =>
      if Ascii.eqb o "[" then
        if Ascii.eqb c "]" then Some (index x digits, rest) else None
      else Some (variable x, punctuator o :: numeral digits :: punctuator c :: rest)
  | identifier x :: rest => Some (variable x, rest)
  | punctuator o :: rest =>
      if Ascii.eqb o "{" then
        match parse_properties rest with
        | Some (ps, rest) => Some (object_literal ps, rest)
        | None => None
        end
      else None
  | _ => None
  end.

(** An expression and the semicolon that ends its statement. *)
Definition parse_to_semicolon (tokens : list token)
  : option (expression * list token) :=
  match parse_expression tokens with
  | Some (e, punctuator c :: rest) =>
      if Ascii.eqb c ";" then Some (e, rest) else None
  | _ => None
  end.

(** The statements of a body, up to its closing brace. *)
Fixpoint parse_statements (fuel : nat) (tokens : list token)
  : option (list statement * list token) :=
  match fuel with
  | O => None
  | S fuel =>
      match tokens with
      | punctuator c :: rest =>
          if Ascii.eqb c "}" then Some ([], rest) else None
      | identifier keyword :: rest =>
          let more (s : statement) (rest : list token) :=
            match parse_statements fuel rest with
            | Some (ss, rest) => Some (s :: ss, rest)
            | None => None
            end in
          if String.eqb keyword "var" then
            match rest with
            | identifier x :: punctuator e :: rest =>
                if Ascii.eqb e "=" && negb (reserved x) then
                  match parse_to_semicolon rest with
                  | Some (init, rest) => more (var_ x init) rest
                  | None => None
                  end
                else None
            | _ => None
            end
          else if String.eqb keyword "if" then
            match rest with
            | punctuator o :: rest =>
                if Ascii.eqb o "(" then
                  match parse_expression rest with
                  | Some (condition, punctuator c :: identifier r :: rest) =>
                      if Ascii.eqb c ")" && String.eqb r "return" then
                        match parse_to_semicolon rest with
                        | Some (result, rest) =>
                            more (if_return condition result) rest
                        | None => None
                        end
                      else None
                  | _ => None
                  end
                else None
            | _ => None
            end
          else if String.eqb keyword "return" then
            match parse_to_semicolon rest with
            | Some (result, rest) => more (return_ result) rest
            | None => None
            end
          else None
      | _ => None
      end
  end.

(** [function f(p1, p2) { ... }], and nothing after it. *)
Definition parse_function (tokens : list token) : option Function :=
  match tokens with
  | identifier kw :: identifier f :: punctuator o :: identifier p1
      :: punctuator comma :: identifier p2 :: punctuator c :: punctuator b
      :: rest =>
      if String.eqb kw "function" && Ascii.eqb o "(" && Ascii.eqb comma ","
         && Ascii.eqb c ")" && Ascii.eqb b "{"
         && negb (reserved f || reserved p1 || reserved p2
                  || String.eqb p1 p2)
      then
        match parse_statements (List.length rest) rest with
        | Some (ss, []) => Some (mkFunction f (p1, p2) ss)
        | _ => None
        end
      else None
  | _ => None
  end.

(** *** Running the function *)

Inductive value : Type :=
| undefined
| a_string (s : string)
| a_boolean (b : bool)
| an_object (properties : list (string * string)).

Inductive answer : Type :=
| returned (v : value)
| threw_TypeError
| not_read.

Definition ToString (v : value) : string :=
  match v with
  | undefined => "undefined"
  | a_string s => s
  | a_boolean b => if b then "true" else "false"
  | an_object _ => "[object Object]"
  end.

Definition truthy (v : value) : bool :=
  match v with
  | undefined => false
  | a_string s => negb (String.eqb s "")
  | a_boolean b => b
  | an_object _ => true
  end.

(** The binding of a name: the latest one. *)
Fixpoint binding (x : string) (env : list (string * value)) : option value :=
  match env with
  | [] => None
  | (y, v) :: rest => if String.eqb y x then Some v else binding x rest
  end.

(** The property of an object literal under a key: of the properties
    written with that key, the last one. *)
Fixpoint property (key : string) (properties : list (string * string))
  : option string :=
  match properties with
  | [] => None
  | (k, v) :: rest =>
      match property key rest with
      | Some later => Some later
      | None => if String.eqb k key then Some v else None
      end
  end.

Section Run.

(** [new RegExp(source).test(s)], the engine's matching. *)
Variable RegExp_test : string -> string -> bool.

(** A name that the function does not bind is looked up among the
    globals of the engine, of which only [undefined] is read here. *)
Definition value_of (env : list (string * value)) (x : string) : answer :=
  match binding x env with
  | Some v => returned v
  | None => if String.eqb x "undefined" then returned undefined else not_read
  end.

Definition eval (env : list (string * value)) (e : expression) : answer :=
  match e with
  | string_value s => returned (a_string s)
  | variable x => value_of env x
  | index x digits =>
      match value_of env x with
      | returned (an_object properties) =>
          returned
            match property (numeral_key digits) properties with
            | Some s => a_string s
            | None => undefined
            end
      | returned undefined => threw_TypeError
      | returned (a_boolean _) => returned undefined
      | returned (a_string s) =>
          returned
            match String.get (Z.to_nat (numeral_value digits)) s with
            | Some c => a_string (String c "")
            | None => undefined
            end
      | other => other
      end
  | regex_test source x =>
      match value_of env x with
      | returned v => returned (a_boolean (RegExp_test source (ToString v)))
      | other => other
      end
  | object_literal properties => returned (an_object properties)
  end.

Fixpoint run (body : list statement) (env : list (string * value))
  : answer :=
  match body with
  | [] => returned undefined
  | var_ x init :: rest =>
      match eval env init with
      | returned v => run rest ((x, v) :: env)
      | other => other
      end
  | if_return condition result :: rest =>
      match eval env condition with
      | returned v => if truthy v then eval env result else run rest env
      | other => other
      end
  | return_ result :: _ => eval env result
  end.

(** The names that the [var] declarations of a body bind from the
    start of the call, to [undefined]. *)
Fixpoint declared (body : list statement) : list (string * value) :=
  match body with
  | [] => []
  | var_ x _ :: rest => (x, undefined) :: declared rest
  | _ :: rest => declared rest
  end.

Definition call (f : Function) (url host : string) : answer :=
  run f.(body)
      ([(snd f.(parameters), a_string host); (fst f.(parameters), a_string url)]
         ++ declared f.(body))%list.

(** What the engine gets when it loads the script [script] and calls
    [FindProxyForURL(url, host)]. *)
Definition FindProxyForURL (script : string) (url host : string) : answer :=
  match tokens_of script with
  | None => not_read
  | Some tokens =>
      match parse_function tokens with
      | None => not_read
      | Some f =>
          if String.eqb f.(function_name) "FindProxyForURL"
          then call f url host
          else not_read
      end
  end.

End Run.

End ScriptEngine.

(** ** Descriptions of the results, used to state the theorems *)
Module Describe.

(** No rule of [rs] matches [host]. *)
Definition no_match (host : string) (rs : list Utils.Rule) : Prop :=
  Forall (fun r => Utils.hostMatch host (fst r) = false) rs.

(** A text rewritten character by character. *)
Fixpoint per_character (f : ascii -> string) (s : string) : string :=
  match s with
  | EmptyString => EmptyString
  | String c t => f c ++ per_character f t
  end.

(** The keyword the pre-expanded script writes for a stored type, if
    it writes an entry at all. *)
Definition keyword (t : string) : option string :=
  if String.eqb t "SOCKS" then Some "SOCKS5"
  else if String.eqb t "HTTP" then Some "PROXY"
  else if String.eqb t "HTTPS" then Some "HTTPS"
  else None.

(** An entry of the table of the pre-expanded script for the host [h]:
    the id of the host as the key, and a proxy string with [keyword]. *)
Definition entry_with (keyword : string) (h : StaticPac.Host) : string :=
  "        " ++ StaticPac.id_text h.(StaticPac.id) ++ ": " ++ JS.dq
  ++ keyword ++ " " ++ h.(StaticPac.host) ++ ":"
  ++ JS.Number_toString h.(StaticPac.port) ++ JS.dq ++ "," ++ JS.nl.

(** What a host adds to the table. *)
Definition table_entry (h : StaticPac.Host) : string :=
  match keyword h.(StaticPac.type) with
  | Some k => entry_with k h
  | None => ""
  end.

Section Conditional.
Variable JSON_parse : string -> option Api.json.
Variable StringToNumber : string -> Api.number.
Variable ObjectToNumber : Api.json -> option Api.number.
Variable ObjectToString : Api.json -> option string.
Variable FractionToString : Qc -> string.

(** The conditional of a rule in the pre-expanded script, if it has
    one: a conditional on the text of [hostIds[0]]. *)
Definition conditional (rule : StaticPac.RuleRow) : string :=
  match JSON_parse rule.(StaticPac.host_ids) with
  | Some hostIds =>
      match StaticPac.length_gt_0 StringToNumber ObjectToNumber hostIds,
            StaticPac.template_text ObjectToString FractionToString
              (StaticPac.index_0 hostIds) with
      | Some true, Some hostId0 =>
          "    if (/" ++ StaticPac.regex_source rule.(StaticPac.pattern)
          ++ "/.test(host)) return PROXY[" ++ hostId0 ++ "];" ++ JS.nl
      | _, _ => ""
      end
  | None => ""
  end.

(** The row has no conditional to give but an exception: [JSON.parse]
    throws on its text; or the text is [null]; or it is an array whose
    first entry has no text; or it is an object whose [length] does
    not convert to a number, or is greater than zero while the member
    [0] has no text. *)
Definition throws (rule : StaticPac.RuleRow) : Prop :=
  match JSON_parse rule.(StaticPac.host_ids) with
  | None => True
  | Some Api.JNull => True
  | Some (Api.JBool _) | Some (Api.JNumber _) | Some (Api.JString _) => False
  | Some (Api.JArray []) => False
  | Some (Api.JArray (item :: _)) =>
      StaticPac.template_text ObjectToString FractionToString (Some item)
      = None
  | Some (Api.JObject members) =>
      match StaticPac.member "length" members with
      | None => False
      | Some length =>
          match Api.Number StringToNumber ObjectToNumber length with
          | None => True
          | Some n =>
              Api.gt_zero n = true
              /\ StaticPac.template_text ObjectToString FractionToString
                   (StaticPac.member "0" members)
                 = None
          end
      end
  end.

End Conditional.

(** The [host_ids] text of the row is an array of the integers
    [ids], as the rule routes write it. *)
Definition holds_ids (JSON_parse : string -> option Api.json)
           (rule : StaticPac.RuleRow) (ids : list Z) : Prop :=
  JSON_parse rule.(StaticPac.host_ids)
  = Some (Api.JArray (List.map (fun i => Api.JNumber (Api.of_Z i)) ids)).

(** The conditional of a rule by its first id, if it has one. *)
Definition conditional_on (pattern : string) (first : option Z) : string :=
  match first with
  | None => ""
  | Some hostId0 =>
      "    if (/" ++ StaticPac.regex_source pattern
      ++ "/.test(host)) return PROXY[" ++ JS.Number_toString hostId0
      ++ "];" ++ JS.nl
  end.

(** The table [PROXY] of the script as a list of properties: for each
    host that has an entry, the text of its id and its proxy string. *)
Definition table (hosts : list StaticPac.Host) : list (string * string) :=
  List.flat_map
    (fun h =>
       match keyword h.(StaticPac.type) with
       | Some k =>
           [(StaticPac.id_text h.(StaticPac.id),
             k ++ " " ++ h.(StaticPac.host) ++ ":"
             ++ JS.Number_toString h.(StaticPac.port))]
       | None => []
       end)
    hosts.

(** The tokens of the script, piece by piece. *)
Definition head_tokens : list ScriptEngine.token :=
  [ ScriptEngine.identifier "function";
    ScriptEngine.identifier "FindProxyForURL";
    ScriptEngine.punctuator "("; ScriptEngine.identifier "url";
    ScriptEngine.punctuator ","; ScriptEngine.identifier "host";
    ScriptEngine.punctuator ")"; ScriptEngine.punctuator "{";
    ScriptEngine.identifier "var"; ScriptEngine.identifier "DEFAULT";
    ScriptEngine.punctuator "="; ScriptEngine.string_literal "DIRECT";
    ScriptEngine.punctuator ";"; ScriptEngine.identifier "var";
    ScriptEngine.identifier "PROXY"; ScriptEngine.punctuator "=";
    ScriptEngine.punctuator "{" ].

Definition key_token (i : option Z) : ScriptEngine.token :=
  match i with
  | Some z => ScriptEngine.numeral (JS.Number_toString z)
  | None => ScriptEngine.identifier "undefined"
  end.

Definition entry_tokens (h : StaticPac.Host) : list ScriptEngine.token :=
  match keyword h.(StaticPac.type) with
  | Some k =>
      [ key_token h.(StaticPac.id); ScriptEngine.punctuator ":";
        ScriptEngine.string_literal
          (k ++ " " ++ h.(StaticPac.host) ++ ":"
           ++ JS.Number_toString h.(StaticPac.port));
        ScriptEngine.punctuator "," ]
  | None => []
  end.

Definition middle_tokens : list ScriptEngine.token :=
  [ ScriptEngine.punctuator "}"; ScriptEngine.punctuator ";" ].

Definition conditional_tokens (pattern : string) (first : option Z)
  : list ScriptEngine.token :=
  match first with
  | None => []
  | Some i =>
      [ ScriptEngine.identifier "if"; ScriptEngine.punctuator "(";
        ScriptEngine.regex_literal (StaticPac.regex_source pattern);
        ScriptEngine.punctuator "."; ScriptEngine.identifier "test";
        ScriptEngine.punctuator "("; ScriptEngine.identifier "host";
        ScriptEngine.punctuator ")"; ScriptEngine.punctuator ")";
        ScriptEngine.identifier "return"; ScriptEngine.identifier "PROXY";
        ScriptEngine.punctuator "[";
        ScriptEngine.numeral (JS.Number_toString i);
        ScriptEngine.punctuator "]"; ScriptEngine.punctuator ";" ]
  end.

Definition tail_tokens : list ScriptEngine.token :=
  [ ScriptEngine.identifier "return"; ScriptEngine.identifier "DEFAULT";
    ScriptEngine.punctuator ";"; ScriptEngine.punctuator "}" ].

(** The statement of a conditional. *)
Definition conditional_statements (pattern : string) (first : option Z)
  : list ScriptEngine.statement :=
  match first with
  | None => []
  | Some i =>
      [ ScriptEngine.if_return
          (ScriptEngine.regex_test (StaticPac.regex_source pattern) "host")
          (ScriptEngine.index "PROXY" (JS.Number_toString i)) ]
  end.

(** A string literal of the fragment can hold the character. *)
Definition string_char (c : ascii) : bool :=
  negb (Ascii.eqb c "034" || Ascii.eqb c "\"
        || ScriptEngine.is_line_terminator c).

(** The value of [PROXY[i]] in the script. *)
Definition PROXY_at (hosts : list StaticPac.Host) (i : Z)
  : ScriptEngine.value :=
  match ScriptEngine.property (JS.Number_toString i) (table hosts) with
  | Some s => ScriptEngine.a_string s
  | None => ScriptEngine.undefined
  end.

(** The rule has a conditional, and its regular expression matches
    [host]. *)
Definition fires (RegExp_test : string -> string -> bool)
           (ids_of : StaticPac.RuleRow -> list Z) (host : string)
           (rule : StaticPac.RuleRow) : bool :=
  match ids_of rule with
  | [] => false
  | _ :: _ =>
      RegExp_test (StaticPac.regex_source rule.(StaticPac.pattern)) host
  end.

(** The texts of the data model, for which the script is in the
    fragment that is read: a host name (or address) holds letters,
    digits, hyphens, underscores, dots and colons; a pattern is not
    empty and holds the characters of a host name and stars; ids are
    not negative. *)
Definition hostname_char (c : ascii) : bool :=
  (Nat.leb 65 (nat_of_ascii c) && Nat.leb (nat_of_ascii c) 90)
  || (Nat.leb 97 (nat_of_ascii c) && Nat.leb (nat_of_ascii c) 122)
  || (Nat.leb 48 (nat_of_ascii c) && Nat.leb (nat_of_ascii c) 57)
  || Ascii.eqb c "-" || Ascii.eqb c "_" || Ascii.eqb c ".".

Fixpoint all_chars (f : ascii -> bool) (s : string) : bool :=
  match s with
  | EmptyString => true
  | String c t => f c && all_chars f t
  end.

Definition hostname (s : string) : bool :=
  all_chars (fun c => hostname_char c || Ascii.eqb c ":") s.

Definition hostname_pattern (s : string) : bool :=
  negb (String.eqb s "")
  && all_chars (fun c => hostname_char c || Ascii.eqb c "*") s.

Definition in_data_model (ids_of : StaticPac.RuleRow -> list Z)
           (hosts : list StaticPac.Host) (rules : list StaticPac.RuleRow)
  : Prop :=
  Forall
    (fun h =>
       (forall z, h.(StaticPac.id) = Some z -> (0 <= z)%Z)
       /\ hostname h.(StaticPac.host) = true)
    hosts
  /\ Forall
       (fun r =>
          hostname_pattern r.(StaticPac.pattern) = true
          /\ (forall i, List.hd_error (ids_of r) = Some i -> (0 <= i)%Z))
       rules.

End Describe.

(** ** The wording of the specification, where it is compared with the
    code *)
Module Stated.

(** The directive as the specification words it: the type of the
    record, or [PROXY] when the record has none. *)
Definition stated_directive (item : Utils.Host) : string :=
  match item.(Utils.type) with
  | None => "PROXY"
  | Some t => t
  end ++ " " ++ item.(Utils.host) ++ ":"
    ++ JS.Number_toString item.(Utils.port).

(** The result as the specification words it: the directives of the
    resolved hosts and a final [DIRECT], joined by semicolons. *)
Definition stated_findProxyForURL (hostConfig : Utils.HostConfig)
           (host : string) : string :=
  JS.join ";"
    (List.map stated_directive (Utils.resolveHostsByRule hostConfig host)
       ++ ["DIRECT"])%list.

(** The decoded list as the specification words it: the entries that
    are not integers or are not positive are discarded, and duplicates
    are removed. *)
Definition stated_decode (parsed : list Api.json) : list Api.number :=
  Api.Array_from_Set
    (List.filter
       (fun n => Api.Number_isInteger n && Api.gt_zero n)
       (List.flat_map
          (fun item => match item with
                       | Api.JNumber n => [n]
                       | _ => []
                       end)
          parsed)).

(** A directive that carries the type [t] as it is. *)
Definition verbatim_directive (t : string) (item : Utils.Host) : string :=
  t ++ " " ++ item.(Utils.host) ++ ":"
    ++ JS.Number_toString item.(Utils.port).

(** The translation of a pattern in the order the specification words
    it: the dots are escaped first, the stars are expanded next. *)
Definition dots_first_regex_source (pattern : string) : string :=
  JS.replaceAll "*"%char ".*" (JS.replaceAll "."%char "\." pattern).

(** The table of the script [text] has an entry keyed by the id of
    [h]: between the opening of the table and its closing there is a
    line for [h], with some keyword. *)
Definition table_has_entry (text : string) (h : StaticPac.Host) : Prop :=
  exists keyword before after rest,
    text
    = StaticPac.pac_head ++ before ++ Describe.entry_with keyword h ++ after
      ++ StaticPac.pac_middle ++ rest.

End Stated.

From Stdlib Require Import Sorting.Permutation Sorting.Sorted.

(** ** More string built-ins *)
Module Builtins.

(** [s.slice(0, -n)]: [s] without its last [n] code units. *)
Definition slice_to_end_minus (n : nat) (s : string) : string :=
  JS.take (String.length s - n) s.

(** [s.replace(p, by)] for a string pattern [p] and a replacement
    without [$]: the first occurrence of [p] in [s], if there is one,
    is replaced by [by]. *)
Fixpoint replace (p by_ : string) (s : string) : string :=
  if JS.startsWith s p then by_ ++ JS.slice (String.length p) s
  else match s with
       | EmptyString => EmptyString
       | String c t => String c (replace p by_ t)
       end.

Section Trim.

(** The code units that [trim] removes: white space and line
    terminators. *)
Variable WhiteSpace : ascii -> bool.

(** [s.trimStart()]. *)
Fixpoint trimStart (s : string) : string :=
  match s with
  | EmptyString => EmptyString
  | String c t => if WhiteSpace c then trimStart t else s
  end.

(** [s.trimEnd()]. *)
Fixpoint trimEnd (s : string) : string :=
  match s with
  | EmptyString => EmptyString
  | String c t =>
      match trimEnd t with
      | EmptyString => if WhiteSpace c then EmptyString else String c ""
      | t' => String c t'
      end
  end.

(** [s.trim()]. *)
Definition trim (s : string) : string := trimEnd (trimStart s).

(** [s] is made of white space only. *)
Fixpoint blank (s : string) : bool :=
  match s with
  | EmptyString => true
  | String c t => WhiteSpace c && blank t
  end.

End Trim.

(** The white space and the line terminators among the first 256 code
    units: tab, line feed, vertical tab, form feed, carriage return,
    space and no-break space. *)
Definition Latin1_WhiteSpace (c : ascii) : bool :=
  let n := nat_of_ascii c in
  Nat.eqb n 9 || Nat.eqb n 10 || Nat.eqb n 11 || Nat.eqb n 12
  || Nat.eqb n 13 || Nat.eqb n 32 || Nat.eqb n 160.

(** The number of occurrences of the code unit [c] in [s]. *)
Fixpoint count (c : ascii) (s : string) : nat :=
  match s with
  | EmptyString => 0
  | String a t => (if Ascii.eqb a c then 1 else 0) + count c t
  end.

End Builtins.

(** ** The data-access layer (api): rows, hosts and rules *)
Module DataAccess.
Import Api.

Definition DEFAULT_PROXY_TYPE : string := "PROXY".

(** [type HostInput]; optional fields are [option]s. *)
Record HostInput : Type := mkHostInput {
  input_id : option Z;
  input_name : option string;
  input_host : string;
  input_port : Z;
  input_type : option string;
}.

(** [type HostRow]; [null] is [None]. *)
Record HostRow : Type := mkHostRow {
  id : Z;
  name : option string;
  host : string;
  port : Z;
  type : option string;
}.

(** [type RuleRow]. *)
Record RuleRow : Type := mkRuleRow {
  rule : string;
  host_ids : option string;
}.

(** [Rule] of the types module, [[string, number[]]], with the numbers
    the decoder returns. *)
Definition Rule : Type := (string * list number)%type.

Section Builtins.
Variable WhiteSpace : ascii -> bool.
Variable JSON_parse : string -> option json.
Variable JSON_stringify : json -> string.
Variable StringToNumber : string -> number.
Variable ObjectToNumber : json -> option number.

(** [type] is [string | null | undefined]; the empty string is falsy. *)
Definition sanitizeProxyType (type : option string) : string :=
  match type with
  | None => DEFAULT_PROXY_TYPE
  | Some type =>
      if negb (String.eqb type "")
         && Nat.ltb 0 (String.length (Builtins.trim WhiteSpace type))
      then type
      else DEFAULT_PROXY_TYPE
  end.

(** [row.name ?? undefined] takes [null] to [undefined]: both are
    [None]. *)
Definition normalizeHost (row : HostRow) : Utils.Host :=
  {| Utils.id := row.(id);
     Utils.name := row.(name);
     Utils.host := row.(host);
     Utils.port := row.(port);
     Utils.type := Some (sanitizeProxyType row.(type)) |}.

Definition normalizeRule (row : RuleRow) : Rule :=
  (row.(rule),
   parseHostIds JSON_parse StringToNumber ObjectToNumber row.(host_ids)).

Definition encodeHostIds (ids : list number) : string :=
  JSON_stringify
    (JArray
       (List.map JNumber
          (Array_from_Set
             (List.filter
                (fun item => Number_isInteger item && gt_zero item) ids)))).

End Builtins.

End DataAccess.

(** ** The user routes of the first service: the token of a request
    and the update statement *)
Module UserRoutes.

(** [c.req.header('Authorization')?.replace('Bearer ', '')
     || c.req.query('token')]: [header] and [query] are what the
    request has under these names, [None] when it has nothing.  An
    empty string is falsy. *)
Definition token_of_request (header query : option string) : option string :=
  match header with
  | None => query
  | Some h =>
      match Builtins.replace "Bearer " "" h with
      | EmptyString => query
      | t => Some t
      end
  end.

(** [!token]: there is no token, or it is the empty string. *)
Definition no_token (token : option string) : bool :=
  match token with
  | None => true
  | Some t => String.eqb t ""
  end.

(** A value bound to a placeholder of the update statement. *)
Inductive Bound : Type :=
| bound_text (s : string)
| bound_id (i : Z).

(** The statement and the values [updateUser] builds from the fields of
    the request ([name] and [token], [None] when absent; an empty
    string is falsy) and the id of the current user. *)
Definition update_statement (name token : option string) (currentUser_id : Z)
  : string * list Bound :=
  let query := "UPDATE users SET " in
  let values : list Bound := [] in
  let '(query, values) :=
    match name with
    | Some (String c n) =>
        (query ++ "name = ?, ", (values ++ [bound_text (String c n)])%list)
    | _ => (query, values)
    end in
  let '(query, values) :=
    match token with
    | Some (String c t) =>
        (query ++ "token = ?, ", (values ++ [bound_text (String c t)])%list)
    | _ => (query, values)
    end in
  let query := Builtins.slice_to_end_minus 2 query in
  let query := query ++ " WHERE id = ?" in
  let values := (values ++ [bound_id currentUser_id])%list in
  (query, values).

End UserRoutes.

(** ** The database binding, as far as the data-access layer uses it *)
Module Db.
Import Api DataAccess.

(** A value bound to a placeholder. *)
Inductive value : Type :=
| v_null
| v_number (n : Z)
| v_string (s : string).

(** [db.prepare(query).bind(...values)]. *)
Record Statement : Type := mkStatement {
  query : string;
  params : list value;
}.

(** The rows of a result are [unknown[]]; the layer reads them as
    [HostRow]s or as [RuleRow]s. *)
Inductive Rows : Type :=
| host_rows (rows : list HostRow)
| rule_rows (rows : list RuleRow).

Record Meta : Type := mkMeta {
  last_row_id : option Z;
  changes : option Z;
}.

(** The result of a statement; [lastRowId] is the field older bindings
    answered an insertion with. *)
Record StatementResult : Type := mkStatementResult {
  results : option Rows;
  success : bool;
  meta : option Meta;
  lastRowId : option Z;
}.

(** An asynchronous call either answers or throws an [Error]. *)
Inductive Result (A : Type) : Type :=
| Ok (answer : A)
| Threw (message : string).
Arguments Ok {A} answer.
Arguments Threw {A} message.

(** A call that reads and writes a store [S]. *)
Definition M (S A : Type) : Type := S -> Result (A * S).

Definition ret {S A : Type} (a : A) : M S A := fun s => Ok (a, s).

Definition bind {S A B : Type} (m : M S A) (k : A -> M S B) : M S B :=
  fun s =>
    match m s with
    | Ok (a, s') => k a s'
    | Threw message => Threw message
    end.

Definition throw {S A : Type} (message : string) : M S A :=
  fun _ => Threw message.

Notation "x <- m ;; k" := (bind m (fun x => k))
  (at level 61, m at next level, right associativity).

(** The methods of the binding: [all] and [run] of a prepared
    statement, and [batch]. *)
Class Database (S : Type) : Type := {
  all : Statement -> M S StatementResult;
  run : Statement -> M S StatementResult;
  batch : list Statement -> M S (list StatementResult);
}.

(** [a !== b] on numbers. *)
Definition strict_unequal (a b : number) : bool :=
  match a, b with
  | Finite p, Finite q => negb (Qc_eq_bool p q)
  | Infinity s, Infinity t => negb (Bool.eqb s t)
  | _, _ => true
  end.

Definition nullable (s : option string) : value :=
  match s with
  | Some s => v_string s
  | None => v_null
  end.

Section Layer.
Context {S : Type} {DB : Database S}.
Variable WhiteSpace : ascii -> bool.
Variable JSON_parse : string -> option json.
Variable JSON_stringify : json -> string.
Variable StringToNumber : string -> number.
Variable ObjectToNumber : json -> option number.

(** [(result.results ?? []).map(normalizeHost)], the rows read as
    [HostRow]s. *)
Definition listHosts : M S (list Utils.Host) :=
  result <-
    all (mkStatement "SELECT id, name, host, port, type FROM hosts ORDER BY id"
           []) ;;
  ret (match result.(results) with
       | Some (host_rows rows) =>
           List.map (normalizeHost WhiteSpace) rows
       | _ => []
       end).

(** [(result.results ?? []).map(normalizeRule)], the rows read as
    [RuleRow]s. *)
Definition listRules : M S (list Rule) :=
  result <-
    all (mkStatement "SELECT rule, host_ids FROM rules ORDER BY rowid" []) ;;
  ret (match result.(results) with
       | Some (rule_rows rows) =>
           List.map (normalizeRule JSON_parse StringToNumber ObjectToNumber)
                    rows
       | _ => []
       end).

(** The two reads of [Promise.all] change nothing; they are taken in
    the order of the array. *)
Definition getHostConfig : M S (list Utils.Host * list Rule) :=
  hosts <- listHosts ;;
  rules <- listRules ;;
  ret (hosts, rules).

(** [if (host.id)]: an id that is absent or zero is falsy. *)
Definition addOrUpdateHost (host : HostInput) : M S Z :=
  let proxyType := sanitizeProxyType WhiteSpace host.(input_type) in
  match host.(input_id) with
  | Some (Zpos _ as host_id) | Some (Zneg _ as host_id) =>
      _ <-
        run (mkStatement
               "UPDATE hosts SET name = ?, host = ?, port = ?, type = ? WHERE id = ?"
               [ nullable host.(input_name); v_string host.(input_host);
                 v_number host.(input_port); v_string proxyType;
                 v_number host_id ]) ;;
      ret host_id
  | _ =>
      result <-
        run (mkStatement
               "INSERT INTO hosts (name, host, port, type) VALUES (?, ?, ?, ?)"
               [ nullable host.(input_name); v_string host.(input_host);
                 v_number host.(input_port); v_string proxyType ]) ;;
      let legacyLastRowId := result.(lastRowId) in
      let newId :=
        match legacyLastRowId with
        | Some n => Some n
        | None =>
            match result.(meta) with
            | Some m => m.(last_row_id)
            | None => None
            end
        end in
      match newId with
      | Some newId => ret newId
      | None => throw "Failed to insert host"
      end
  end.

(** The statement [delHost] prepares for one rule, or none when the
    rule does not list the host. *)
Definition delHost_update (id : Z) (rule : Rule) : option Statement :=
  let '(ruleName, hostIds) := rule in
  let filtered :=
    List.filter (fun hostId => strict_unequal hostId (of_Z id)) hostIds in
  if Nat.eqb (List.length filtered) (List.length hostIds) then None
  else Some (mkStatement "UPDATE rules SET host_ids = ? WHERE rule = ?"
               [ v_string (encodeHostIds JSON_stringify filtered);
                 v_string ruleName ]).

(** [xs.filter((statement) => Boolean(statement))]. *)
Fixpoint filter_Boolean (xs : list (option Statement)) : list Statement :=
  match xs with
  | [] => []
  | Some st :: rest => st :: filter_Boolean rest
  | None :: rest => filter_Boolean rest
  end.

Definition delHost (id : Z) : M S unit :=
  _ <- run (mkStatement "DELETE FROM hosts WHERE id = ?" [v_number id]) ;;
  rules <- listRules ;;
  let updates := filter_Boolean (List.map (delHost_update id) rules) in
  if Nat.ltb 0 (List.length updates)
  then _ <- batch updates ;; ret tt
  else ret tt.

Definition addOrUpdateRule (rule : Rule) : M S unit :=
  let '(ruleName, hostIds) := rule in
  _ <-
    run (mkStatement
           "INSERT INTO rules (rule, host_ids) VALUES (?, ?) ON CONFLICT(rule) DO UPDATE SET host_ids = excluded.host_ids"
           [ v_string ruleName;
             v_string (encodeHostIds JSON_stringify hostIds) ]) ;;
  ret tt.

Definition delRule (ruleName : string) : M S unit :=
  _ <-
    run (mkStatement "DELETE FROM rules WHERE rule = ?" [v_string ruleName]) ;;
  ret tt.

End Layer.

End Db.

(** ** The in-memory database of the tests of the layer *)
Module MemoryDb.
Import Api DataAccess Db.

(** [type RuleRow] of the tests: [host_ids] is a string. *)
Record StoredRule : Type := mkStoredRule {
  stored_rule : string;
  stored_host_ids : string;
}.

(** [class MemoryDatabase]. *)
Record MemoryDatabase : Type := mkMemoryDatabase {
  hosts : list HostRow;
  rules : list StoredRule;
  hostAutoIncrement : Z;
}.

(** [xs.sort((a, b) => a.id - b.id)] places a row before the first row
    of the sorted rest whose id is not smaller: the sort is stable. *)
Fixpoint insert_by_id (x : HostRow) (sorted : list HostRow) : list HostRow :=
  match sorted with
  | [] => [x]
  | y :: rest =>
      if Z.leb x.(id) y.(id) then x :: y :: rest
      else y :: insert_by_id x rest
  end.

Fixpoint sort_by_id (rows : list HostRow) : list HostRow :=
  match rows with
  | [] => []
  | x :: rest => insert_by_id x (sort_by_id rest)
  end.

(** [const target = xs.find(p); if (target) { change target }]: the
    first element that satisfies [p] is changed in place. *)
Fixpoint change_first {A : Type} (p : A -> bool) (f : A -> A) (xs : list A)
  : list A :=
  match xs with
  | [] => []
  | x :: rest => if p x then f x :: rest else x :: change_first p f rest
  end.

(** [nextHostId()]. *)
Definition nextHostId (db : MemoryDatabase) : Z * MemoryDatabase :=
  let next := Z.max (db.(hostAutoIncrement) + 1) 1 in
  (next, mkMemoryDatabase db.(hosts) db.(rules) next).

(** A parameter read as [string | null]. *)
Definition as_nullable_string (v : value) : option (option string) :=
  match v with
  | v_null => Some None
  | v_string s => Some (Some s)
  | v_number _ => None
  end.

(** The casts of [run] give the parameters their types; a statement
    bound to values of other types has no counterpart here and is
    answered with this error. *)
Definition outside_the_casts : string := "parameters outside the casts".

Definition done (changed : option Z) (inserted : option Z)
  : StatementResult :=
  mkStatementResult None true (Some (mkMeta inserted changed)) None.

(** [MemoryStatement.all]. *)
Definition memory_all (st : Statement) : M MemoryDatabase StatementResult :=
  fun db =>
    if JS.startsWith st.(query) "SELECT id, name, host, port, type FROM hosts"
    then
      Ok (mkStatementResult (Some (host_rows (sort_by_id db.(hosts))))
            true None None, db)
    else if JS.startsWith st.(query) "SELECT rule, host_ids FROM rules"
    then
      Ok (mkStatementResult
            (Some (rule_rows
                     (List.map
                        (fun r => mkRuleRow r.(stored_rule)
                                    (Some r.(stored_host_ids)))
                        db.(rules))))
            true None None, db)
    else Threw ("Unsupported query for all(): " ++ st.(query)).

(** [MemoryStatement.run]. *)
Definition memory_run (st : Statement) : M MemoryDatabase StatementResult :=
  fun db =>
    if JS.startsWith st.(query) "INSERT INTO hosts" then
      match st.(params) with
      | [name; v_string host; v_number port; v_string type] =>
          match as_nullable_string name with
          | Some name =>
              let '(id, db) := nextHostId db in
              Ok (done (Some 1%Z) (Some id),
                  mkMemoryDatabase
                    (db.(hosts) ++ [mkHostRow id name host port (Some type)])
                    db.(rules) db.(hostAutoIncrement))
          | None => Threw outside_the_casts
          end
      | _ => Threw outside_the_casts
      end
    else if JS.startsWith st.(query) "UPDATE hosts" then
      match st.(params) with
      | [name; v_string host; v_number port; v_string type; v_number id] =>
          match as_nullable_string name with
          | Some name =>
              let target :=
                List.find (fun item => Z.eqb item.(DataAccess.id) id)
                          db.(hosts) in
              Ok (done (Some match target with Some _ => 1%Z | None => 0%Z end)
                    None,
                  mkMemoryDatabase
                    (change_first
                       (fun item => Z.eqb item.(DataAccess.id) id)
                       (fun target =>
                          mkHostRow target.(DataAccess.id) name host port
                                    (Some type))
                       db.(hosts))
                    db.(rules) db.(hostAutoIncrement))
          | None => Threw outside_the_casts
          end
      | _ => Threw outside_the_casts
      end
    else if JS.startsWith st.(query) "DELETE FROM hosts" then
      match st.(params) with
      | [v_number id] =>
          let before := List.length db.(hosts) in
          let kept :=
            List.filter (fun item => negb (Z.eqb item.(DataAccess.id) id))
                        db.(hosts) in
          Ok (done (Some (Z.of_nat before - Z.of_nat (List.length kept))%Z)
                None,
              mkMemoryDatabase kept db.(rules) db.(hostAutoIncrement))
      | _ => Threw outside_the_casts
      end
    else if JS.startsWith st.(query) "UPDATE rules SET host_ids" then
      match st.(params) with
      | [v_string hostIds; v_string ruleName] =>
          let target :=
            List.find (fun item => String.eqb item.(stored_rule) ruleName)
                      db.(rules) in
          Ok (done (Some match target with Some _ => 1%Z | None => 0%Z end)
                    None,
              mkMemoryDatabase db.(hosts)
                (change_first
                   (fun item => String.eqb item.(stored_rule) ruleName)
                   (fun target => mkStoredRule target.(stored_rule) hostIds)
                   db.(rules))
                db.(hostAutoIncrement))
      | _ => Threw outside_the_casts
      end
    else if JS.startsWith st.(query) "INSERT INTO rules" then
      match st.(params) with
      | [v_string ruleName; v_string hostIds] =>
          let existing :=
            List.find (fun item => String.eqb item.(stored_rule) ruleName)
                      db.(rules) in
          Ok (done (Some 1%Z) None,
              mkMemoryDatabase db.(hosts)
                match existing with
                | Some _ =>
                    change_first
                      (fun item => String.eqb item.(stored_rule) ruleName)
                      (fun target =>
                         mkStoredRule target.(stored_rule) hostIds)
                      db.(rules)
                | None => (db.(rules) ++ [mkStoredRule ruleName hostIds])%list
                end
                db.(hostAutoIncrement))
      | _ => Threw outside_the_casts
      end
    else if JS.startsWith st.(query) "DELETE FROM rules" then
      match st.(params) with
      | [v_string ruleName] =>
          let before := List.length db.(rules) in
          let kept :=
            List.filter
              (fun item => negb (String.eqb item.(stored_rule) ruleName))
              db.(rules) in
          Ok (done (Some (Z.of_nat before - Z.of_nat (List.length kept))%Z)
                None,
              mkMemoryDatabase db.(hosts) kept db.(hostAutoIncrement))
      | _ => Threw outside_the_casts
      end
    else Threw ("Unsupported query for run(): " ++ st.(query)).

(** [MemoryDatabase.batch]: the statements run in turn. *)
Fixpoint memory_batch (statements : list Statement)
  : M MemoryDatabase (list StatementResult) :=
  match statements with
  | [] => ret []
  | statement :: rest =>
      result <- memory_run statement ;;
      results <- memory_batch rest ;;
      ret (result :: results)
  end.

#[export] Instance Memory : Database MemoryDatabase := {
  all := memory_all;
  run := memory_run;
  batch := memory_batch;
}.

Section Seed.
Variable JSON_stringify : json -> string.

(** [MemoryDatabase.seed(config)]. *)
Definition seed (config : Utils.HostConfig) : MemoryDatabase :=
  mkMemoryDatabase
    (List.map
       (fun host =>
          mkHostRow host.(Utils.id) host.(Utils.name) host.(Utils.host)
            host.(Utils.port)
            (Some match host.(Utils.type) with
                  | Some t => t
                  | None => "PROXY"
                  end))
       config.(Utils.hosts))
    (List.map
       (fun r : Utils.Rule =>
          mkStoredRule (fst r)
            (JSON_stringify
               (JArray (List.map (fun i => JNumber (of_Z i)) (snd r)))))
       config.(Utils.rules))
    (List.fold_left (fun max host => Z.max max host.(Utils.id))
                    config.(Utils.hosts) 0%Z).

End Seed.

End MemoryDb.

(** ** The host routes of the first service: is a host in use? *)
Module HostRoutes.
Import StaticPac.

(** How the loop of [deleteHost] over the rules of the user ends: it
    runs through ([free]), it answers that the host is still used by
    the rule of some pattern, or an exception leaves it. *)
Inductive InUse : Type :=
| free
| used_by (pattern : string)
| threw.

Section Check.

(** [JSON.parse] on the [host_ids] column ([None] when it throws), and
    the text of a number that is not an integer. *)
Variable JSON_parse : string -> option Api.json.
Variable FractionToString : Qc -> string.

(** [hostIds.includes(n)] for a number [n]; [None] when it throws.  An
    array looks for an entry that is the number [n]; a string looks
    for the text of [n] in itself; [null] has no properties to read,
    and no other value has a method [includes] to call. *)
Definition includes (hostIds : Api.json) (n : Api.number) : option bool :=
  match hostIds with
  | Api.JArray items =>
      Some (List.existsb
              (fun item =>
                 match item with
                 | Api.JNumber m => Api.SameValueZero m n
                 | _ => false
                 end)
              items)
  | Api.JString s => Some (JS.includes s (number_text FractionToString n))
  | _ => None
  end.

(** [for (const rule of rules) { const hostIds =
    JSON.parse(rule.host_ids); if (hostIds.includes(Number(id)))
    return ... }], where [Number_id] is the value of [Number(id)], or
    [None] when that conversion throws. *)
Fixpoint in_use (Number_id : option Api.number) (rules : list RuleRow)
  : InUse :=
  match rules with
  | [] => free
  | rule :: rest =>
      match JSON_parse rule.(host_ids) with
      | None => threw
      | Some hostIds =>
          match Number_id with
          | None => threw
          | Some n =>
              match includes hostIds n with
              | None => threw
              | Some true => used_by rule.(pattern)
              | Some false => in_use Number_id rest
              end
          end
      end
  end.

(** The value [hostIds] lists the number [n], as [includes] sees it:
    an array that has [n] among its entries, or a string in which the
    text of [n] occurs. *)
Definition lists (hostIds : Api.json) (n : Api.number) : Prop :=
  match hostIds with
  | Api.JArray items => In (Api.JNumber n) items
  | Api.JString s => JS.occurs_in (number_text FractionToString n) s
  | _ => False
  end.

(** The value is one that [includes] can be called on. *)
Definition has_includes (hostIds : Api.json) : Prop :=
  match hostIds with
  | Api.JArray _ | Api.JString _ => True
  | _ => False
  end.

End Check.

End HostRoutes.

(** ** Descriptions and sample built-ins for the further properties *)
Module Shape.
Import Api.

(** The cleaned form of a list of ids: its positive integers, each
    once, in the order of their first occurrences. *)
Definition clean (ids : list number) : list number :=
  Array_from_Set
    (List.filter (fun item => Number_isInteger item && gt_zero item) ids).

(** [xs] without the numbers equal to [x]. *)
Definition without (x : number) (xs : list number) : list number :=
  List.filter (fun y => negb (SameValueZero y x)) xs.

(** [JSON.parse] reads back the array of numbers [xs] from the text
    [JSON.stringify] writes for it, and that text is not empty. *)
Definition reads_back (JSON_parse : string -> option json)
           (JSON_stringify : json -> string) (xs : list number) : Prop :=
  JSON_stringify (JArray (List.map JNumber xs)) <> ""
  /\ JSON_parse (JSON_stringify (JArray (List.map JNumber xs)))
     = Some (JArray (List.map JNumber xs)).

(** A stored rule as the layer decodes it. *)
Definition decoded (JSON_parse : string -> option json)
           (StringToNumber : string -> number)
           (ObjectToNumber : json -> option number) (r : MemoryDb.StoredRule)
  : DataAccess.Rule :=
  (r.(MemoryDb.stored_rule),
   parseHostIds JSON_parse StringToNumber ObjectToNumber
     (Some r.(MemoryDb.stored_host_ids))).

(** The ids of a rule other than the id of the host [id]. *)
Definition other_ids (id : Z) (hostIds : list number) : list number :=
  List.filter (fun hostId => Db.strict_unequal hostId (of_Z id)) hostIds.

(** A stored rule after the host [id] was taken off it: the row as it
    was when the rule does not list the host, and else the row with
    the remaining ids encoded anew. *)
Definition without_host (JSON_parse : string -> option json)
           (JSON_stringify : json -> string)
           (StringToNumber : string -> number)
           (ObjectToNumber : json -> option number) (id : Z)
           (r : MemoryDb.StoredRule) : MemoryDb.StoredRule :=
  let hostIds :=
    parseHostIds JSON_parse StringToNumber ObjectToNumber
      (Some r.(MemoryDb.stored_host_ids)) in
  if Nat.eqb (List.length (other_ids id hostIds)) (List.length hostIds)
  then r
  else MemoryDb.mkStoredRule r.(MemoryDb.stored_rule)
         (DataAccess.encodeHostIds JSON_stringify (other_ids id hostIds)).

(** The state the database is kept in: the ids of the hosts are
    distinct and not above the counter, and the names of the rules are
    distinct. *)
Definition well_formed (db : MemoryDb.MemoryDatabase) : Prop :=
  NoDup (List.map DataAccess.id db.(MemoryDb.hosts))
  /\ Forall (fun r => (r.(DataAccess.id) <= db.(MemoryDb.hostAutoIncrement))%Z)
            db.(MemoryDb.hosts)
  /\ NoDup (List.map MemoryDb.stored_rule db.(MemoryDb.rules)).

(** The integer that an integer-valued number denotes. *)
Definition integer (n : number) : Z :=
  match n with
  | Finite q => Qnum q
  | _ => 0%Z
  end.

(** The answer of [getHostConfig] as the configuration the resolver
    takes: the same hosts and rules, the ids of the rules (positive
    integers, as the decoder returns them) written as the integers they
    denote, the way the ids of the hosts are written. *)
Definition as_HostConfig (config : list Utils.Host * list DataAccess.Rule)
  : Utils.HostConfig :=
  Utils.mkHostConfig (fst config)
    (List.map (fun r => (fst r, List.map integer (snd r))) (snd config)).

(** [s] is a string that is present and not empty. *)
Definition truthy (s : option string) : bool :=
  match s with
  | Some (String _ _) => true
  | _ => false
  end.

(** The text [JSON.stringify] writes for an array of integers (of those
    it writes as plain decimal numerals); any other value is outside
    this sample. *)
Definition integer_text (v : json) : option string :=
  match v with
  | JNumber (Finite q) =>
      if Pos.eqb (Qden q) 1 then Some (JS.Number_toString (Qnum q)) else None
  | _ => None
  end.

Fixpoint integer_texts (items : list json) : option (list string) :=
  match items with
  | [] => Some []
  | v :: rest =>
      match integer_text v, integer_texts rest with
      | Some t, Some ts => Some (t :: ts)
      | _, _ => None
      end
  end.

Definition sample_JSON_stringify (v : json) : string :=
  match v with
  | JArray items =>
      match integer_texts items with
      | Some ts => "[" ++ JS.join "," ts ++ "]"
      | None => "null"
      end
  | _ => "null"
  end.

(** The graph of [JSON.parse] on a few texts. *)
Definition sample_JSON_parse (text : string) : option json :=
  if String.eqb text "[]" then Some (JArray [])
  else if String.eqb text "[1]" then Some (JArray [JNumber (of_Z 1)])
  else if String.eqb text "[2]" then Some (JArray [JNumber (of_Z 2)])
  else if String.eqb text "[1,2]" then
    Some (JArray [JNumber (of_Z 1); JNumber (of_Z 2)])
  else if String.eqb text "[2,1]" then
    Some (JArray [JNumber (of_Z 2); JNumber (of_Z 1)])
  else if String.eqb text "[1,2,3]" then
    Some (JArray [JNumber (of_Z 1); JNumber (of_Z 2); JNumber (of_Z 3)])
  else None.

Definition sample_StringToNumber (s : string) : number :=
  if String.eqb s "" then of_Z 0 else NaN.

Definition sample_ObjectToNumber (v : json) : option number :=
  match v with
  | JArray [] => Some (of_Z 0)
  | _ => Some NaN
  end.

(** A database with two hosts and two rules. *)
Definition sample_db : MemoryDb.MemoryDatabase :=
  MemoryDb.mkMemoryDatabase
    [ DataAccess.mkHostRow 2 None "proxy2.example.com" 8081 (Some "HTTP");
      DataAccess.mkHostRow 1 (Some "a") "proxy.example.com" 8080
        (Some "SOCKS") ]
    [ MemoryDb.mkStoredRule "*.github.com" "[1,2]";
      MemoryDb.mkStoredRule "a.youtube.com" "[2]" ]
    2.

(** The same database after the host 1 was deleted. *)
Definition sample_db_without_1 : MemoryDb.MemoryDatabase :=
  MemoryDb.mkMemoryDatabase
    [ DataAccess.mkHostRow 2 None "proxy2.example.com" 8081 (Some "HTTP") ]
    [ MemoryDb.mkStoredRule "*.github.com" "[2]";
      MemoryDb.mkStoredRule "a.youtube.com" "[2]" ]
    2.

End Shape.

(** * Theorems *)

(** ** Strings *)
Section StringFacts.

Lemma append_nil_r (s : string) : s ++ "" = s.
Proof. induction s as [|c s IH]; simpl; [reflexivity | now rewrite IH]. Qed.

Lemma append_assoc (a b c : string) : (a ++ b) ++ c = a ++ (b ++ c).
Proof. induction a as [|x a IH]; simpl; [reflexivity | now rewrite IH]. Qed.

Lemma length_append (a b : string) :
  String.length (a ++ b) = String.length a + String.length b.
Proof. induction a as [|x a IH]; simpl; [reflexivity | now rewrite IH]. Qed.

Lemma startsWith_spec (s p : string) :
  JS.startsWith s p = true <-> JS.is_prefix p s.
Proof.
  revert s; induction p as [|a p IH]; intros s; simpl.
  - split; [intros _; now exists s | reflexivity].
  - destruct s as [|b s].
    + split; [discriminate | intros [r Hr]; discriminate].
    + rewrite andb_true_iff, Ascii.eqb_eq, IH. split.
      * intros [-> [r ->]]. now exists r.
      * intros [r Hr]. injection Hr as -> ->.
        split; [reflexivity | now exists r].
Qed.

Lemma slice_append (pre p : string) :
  JS.slice (String.length pre) (pre ++ p) = p.
Proof. induction pre as [|c pre IH]; simpl; [now destruct p | exact IH]. Qed.

Lemma take_slice (n : nat) (s : string) : JS.take n s ++ JS.slice n s = s.
Proof.
  revert s; induction n as [|n IH]; intros [|c s]; simpl; try reflexivity.
  now rewrite IH.
Qed.

Lemma endsWith_spec (s p : string) :
  JS.endsWith s p = true <-> JS.is_suffix p s.
Proof.
  unfold JS.endsWith, JS.is_suffix. split.
  - destruct (Nat.leb _ _); [|discriminate].
    intros H. apply String.eqb_eq in H.
    exists (JS.take (String.length s - String.length p) s).
    pose proof (take_slice (String.length s - String.length p) s) as E.
    rewrite H in E. now symmetry.
  - intros [pre ->]. rewrite length_append.
    replace (Nat.leb _ _) with true by (symmetry; apply Nat.leb_le; lia).
    replace (String.length pre + String.length p - String.length p)
      with (String.length pre) by lia.
    rewrite slice_append. apply String.eqb_refl.
Qed.

Lemma includes_spec (s p : string) :
  JS.includes s p = true <-> JS.occurs_in p s.
Proof.
  induction s as [|c s IH]; cbn [JS.includes].
  - rewrite orb_false_r, startsWith_spec. split.
    + intros [rest H]. exists "", rest. exact H.
    + intros [pre [post H]]. destruct pre; [now exists post | discriminate].
  - rewrite orb_true_iff, startsWith_spec, IH. split.
    + intros [[rest H] | [pre [post H]]].
      * exists "", rest. exact H.
      * exists (String c pre), post. simpl. now rewrite H.
    + intros [[|c' pre] [post H]].
      * left. now exists post.
      * right. injection H as _ H. now exists pre, post.
Qed.

(** Joining with a final element: every other element is followed by
    the separator. *)
Lemma join_snoc (sep : string) (xs : list string) (last : string) :
  JS.join sep (xs ++ [last])
  = String.concat "" (List.map (fun x => x ++ sep) xs) ++ last.
Proof.
  induction xs as [|x xs IH]; [reflexivity|].
  change (JS.join sep ((x :: xs) ++ [last]))
    with (JS.join sep (x :: (xs ++ [last]))).
  assert (E : forall ys, ys <> [] ->
              JS.join sep (x :: ys) = x ++ sep ++ JS.join sep ys)
    by (intros [|y ys] Hy; [congruence | reflexivity]).
  rewrite E by (now destruct xs). rewrite IH.
  destruct xs as [|x' xs]; simpl.
  - now rewrite !append_assoc.
  - now rewrite !append_assoc.
Qed.

End StringFacts.

(** ** The matcher *)
Section Matcher.
Import Utils.

Example hostMatch_exact : hostMatch "example.com" "example.com" = true.
Proof. reflexivity. Qed.

Example hostMatch_root_domain : hostMatch "example.com" "*.example.com" = true.
Proof. reflexivity. Qed.

Example hostMatch_subdomain :
  hostMatch "www.example.com" "*.example.com" = true.
Proof. reflexivity. Qed.

Example hostMatch_no_boundary :
  hostMatch "evilexample.com" "*.example.com" = true.
Proof. reflexivity. Qed.

Example hostMatch_other_suffix :
  hostMatch "sub.example.com" "*.example.org" = false.
Proof. reflexivity. Qed.

Example hostMatch_absolute : hostMatch "a.example.com" "example.com" = false.
Proof. reflexivity. Qed.

(** A pattern that begins with the two characters of the wildcard is
    matched by the hosts that end with the rest of the pattern. *)
Lemma hostMatch_wildcard (h suffix : string) :
  hostMatch h ("*." ++ suffix) = true <-> JS.is_suffix suffix h.
Proof.
  unfold hostMatch.
  replace (JS.startsWith ("*." ++ suffix) "*.") with true
    by (symmetry; apply startsWith_spec; now exists suffix).
  simpl. apply endsWith_spec.
Qed.

(** Any other pattern is matched by itself only. *)
Lemma hostMatch_plain (h p : string) :
  ~ JS.is_prefix "*." p -> (hostMatch h p = true <-> h = p).
Proof.
  intros Hn. unfold hostMatch.
  destruct (JS.startsWith p "*.") eqn:E.
  - apply startsWith_spec in E. contradiction.
  - apply String.eqb_eq.
Qed.

(** C1. [hostMatch h p] is true exactly when either [p] is the wildcard
    prefix followed by some text and [h] ends with that text (a plain
    comparison of the ends, with no boundary before the suffix), or [p]
    does not begin with the wildcard prefix and [h] is [p] itself. *)
Theorem hostMatch_spec (h p : string) :
  hostMatch h p = true <->
  (exists suffix, p = "*." ++ suffix /\ JS.is_suffix suffix h)
  \/ (~ JS.is_prefix "*." p /\ h = p).
Proof.
  destruct (JS.startsWith p "*.") eqn:E.
  - apply startsWith_spec in E. destruct E as [suffix ->].
    rewrite hostMatch_wildcard. split.
    + intros H. left. now exists suffix.
    + intros [[s [Hs H]] | [Hn _]].
      * injection Hs as <-. exact H.
      * exfalso. apply Hn. now exists suffix.
  - assert (Hn : ~ JS.is_prefix "*." p).
    { intros H. apply startsWith_spec in H. congruence. }
    rewrite (hostMatch_plain h p Hn). split.
    + intros ->. now right.
    + intros [[s [-> _]] | [_ H]]; [|exact H].
      exfalso. apply Hn. now exists s.
Qed.

End Matcher.

(** ** The resolver *)
Section Resolver.
Import Utils.

Lemma find_skips_unmatched (host : string) (before : list Rule)
      (r : Rule) (after : list Rule) :
  Describe.no_match host before ->
  List.find (fun item => hostMatch host (fst item)) (before ++ r :: after)
  = if hostMatch host (fst r) then Some r
    else List.find (fun item => hostMatch host (fst item)) after.
Proof.
  induction 1 as [|x before Hx _ IH]; simpl.
  - reflexivity.
  - now rewrite Hx.
Qed.

Lemma find_no_match (host : string) (rs : list Rule) :
  Describe.no_match host rs ->
  List.find (fun item => hostMatch host (fst item)) rs = None.
Proof.
  induction 1 as [|x rs Hx _ IH]; simpl; [reflexivity | now rewrite Hx].
Qed.

Lemma filter_Boolean_app (xs ys : list (option Host)) :
  filter_Boolean (xs ++ ys) = (filter_Boolean xs ++ filter_Boolean ys)%list.
Proof.
  induction xs as [|[h|] xs IH]; simpl;
    [reflexivity | now rewrite IH | exact IH].
Qed.

Lemma hostsOfIds_app (hs : list Host) (ids1 ids2 : list Z) :
  hostsOfIds hs (ids1 ++ ids2)
  = (hostsOfIds hs ids1 ++ hostsOfIds hs ids2)%list.
Proof. unfold hostsOfIds. now rewrite map_app, filter_Boolean_app. Qed.

(** An id resolves to the first host that carries it. *)
Lemma hostsOfIds_cons (hs : list Host) (i : Z) (ids : list Z) :
  hostsOfIds hs (i :: ids)
  = match List.find (fun item => Z.eqb item.(id) i) hs with
    | Some h => h :: hostsOfIds hs ids
    | None => hostsOfIds hs ids
    end.
Proof.
  unfold hostsOfIds; simpl.
  now destruct (List.find (fun item => Z.eqb item.(id) i) hs).
Qed.

(** An id that no host carries resolves to nothing. *)
Lemma find_dangling (hs : list Host) (d : Z) :
  (forall h, In h hs -> h.(id) <> d) ->
  List.find (fun item => Z.eqb item.(id) d) hs = None.
Proof.
  intros Hd. induction hs as [|h hs IH]; simpl; [reflexivity|].
  destruct (Z.eqb_spec h.(id) d) as [E|_].
  - exfalso. apply (Hd h); [now left | exact E].
  - apply IH. intros h' Hh'. apply Hd. now right.
Qed.

(** Every resolved host is a host of the configuration whose id the
    rule lists. *)
Lemma hostsOfIds_sound (hs : list Host) (ids : list Z) (h : Host) :
  In h (hostsOfIds hs ids) -> In h hs /\ In h.(id) ids.
Proof.
  induction ids as [|i ids IH]; [intros []|].
  rewrite hostsOfIds_cons.
  destruct (List.find (fun item => Z.eqb item.(id) i) hs) as [h'|] eqn:E.
  - intros [<- | H].
    + apply find_some in E. destruct E as [Hin Heq].
      apply Z.eqb_eq in Heq. split; [exact Hin | now left].
    + destruct (IH H). split; [assumption | now right].
  - intros H. destruct (IH H). split; [assumption | now right].
Qed.

(** The first rule that matches decides. *)
Lemma resolve_first_match (hs : list Host) (host : string)
      (before : list Rule) (pattern : string) (hostIds : list Z)
      (after : list Rule) :
  Describe.no_match host before ->
  hostMatch host pattern = true ->
  resolveHostsByRule
    (mkHostConfig hs (before ++ (pattern, hostIds) :: after)) host
  = hostsOfIds hs hostIds.
Proof.
  intros Hb Hp. unfold resolveHostsByRule; cbv zeta; cbn [hosts rules].
  pose proof (find_skips_unmatched host before (pattern, hostIds) after Hb)
    as E.
  unfold Rule in *. rewrite E. cbn [fst snd]. now rewrite Hp.
Qed.

(** Without a matching rule nothing is resolved. *)
Lemma resolve_no_match (hs : list Host) (host : string) (rs : list Rule) :
  Describe.no_match host rs ->
  resolveHostsByRule (mkHostConfig hs rs) host = [].
Proof.
  intros Hn. unfold resolveHostsByRule; cbv zeta; cbn [hosts rules].
  pose proof (find_no_match host rs Hn) as E.
  unfold Rule in *. now rewrite E.
Qed.

(** C2. The rules are scanned in their stored order and the first one
    whose pattern matches the host decides alone: when no rule before
    it matches, the resolved hosts are those of its own ids, whatever
    the rules after it are, matching or not; and when no rule matches,
    no host is resolved. *)
Theorem resolveHostsByRule_first_match (hs : list Host) (host : string) :
  (forall before pattern hostIds after,
      Describe.no_match host before ->
      hostMatch host pattern = true ->
      resolveHostsByRule
        (mkHostConfig hs (before ++ (pattern, hostIds) :: after)) host
      = hostsOfIds hs hostIds)
  /\ (forall rs,
         Describe.no_match host rs ->
         resolveHostsByRule (mkHostConfig hs rs) host = []).
Proof.
  split.
  - intros before pattern hostIds after. apply resolve_first_match.
  - apply resolve_no_match.
Qed.

(** Two rules match [www.github.com]; the ids of the first are used,
    and nothing matches [example.org]. *)
Lemma resolveHostsByRule_first_match_witness :
  resolveHostsByRule
    (mkHostConfig test_hostConfig.(hosts)
       ([("*.google.com", [1%Z])]
          ++ ("*.github.com", [2%Z]) :: [("*.com", [1%Z])]))
    "www.github.com"
  = hostsOfIds test_hostConfig.(hosts) [2%Z]
  /\ resolveHostsByRule
       (mkHostConfig test_hostConfig.(hosts) test_hostConfig.(rules))
       "example.org"
     = [].
Proof.
  split.
  - apply (proj1 (resolveHostsByRule_first_match
                    test_hostConfig.(hosts) "www.github.com")).
    + repeat constructor.
    + reflexivity.
  - apply (proj2 (resolveHostsByRule_first_match
                    test_hostConfig.(hosts) "example.org")).
    repeat constructor.
Defined.

(** The dangling id of a rule makes no difference to what a
    configuration resolves to. *)
Lemma resolve_without_dangling (hs : list Host) (before : list Rule)
      (pattern : string) (ids1 : list Z) (d : Z) (ids2 : list Z)
      (after : list Rule) (host : string) :
  (forall h, In h hs -> h.(id) <> d) ->
  resolveHostsByRule
    (mkHostConfig hs
       (before ++ (pattern, (ids1 ++ d :: ids2)%list) :: after)) host
  = resolveHostsByRule
      (mkHostConfig hs
         (before ++ (pattern, (ids1 ++ ids2)%list) :: after)) host.
Proof.
  intros Hd. unfold resolveHostsByRule; cbv zeta; cbn [hosts rules].
  induction before as [|r before IH]; simpl.
  - destruct (hostMatch host pattern); [|reflexivity].
    cbv beta iota; cbn [snd]. rewrite !hostsOfIds_app, hostsOfIds_cons.
    now rewrite (find_dangling hs d Hd).
  - destruct (hostMatch host (fst r)); [reflexivity | exact IH].
Qed.

(** C4. An id of the matched rule that no host of the configuration
    carries is passed over: the rule resolves to the hosts of the ids
    before it followed by the hosts of the ids after it, and both
    [resolveHostsByRule] and [findProxyForURL] have the value they have
    on the configuration without that id.  (Both are total functions:
    they have a value on every configuration.) *)
Theorem dangling_host_id_skipped (hs : list Host) (d : Z) :
  (forall h, In h hs -> h.(id) <> d) ->
  (forall ids1 ids2,
      hostsOfIds hs (ids1 ++ d :: ids2)
      = (hostsOfIds hs ids1 ++ hostsOfIds hs ids2)%list)
  /\ (forall before pattern ids1 ids2 after url host,
         resolveHostsByRule
           (mkHostConfig hs
              (before ++ (pattern, (ids1 ++ d :: ids2)%list) :: after))
           host
         = resolveHostsByRule
             (mkHostConfig hs
                (before ++ (pattern, (ids1 ++ ids2)%list) :: after))
             host
         /\ findProxyForURL
              (mkHostConfig hs
                 (before ++ (pattern, (ids1 ++ d :: ids2)%list) :: after))
              url host
            = findProxyForURL
                (mkHostConfig hs
                   (before ++ (pattern, (ids1 ++ ids2)%list) :: after))
                url host).
Proof.
  intros Hd. split.
  - intros ids1 ids2. rewrite hostsOfIds_app, hostsOfIds_cons.
    now rewrite (find_dangling hs d Hd).
  - intros before pattern ids1 ids2 after url host.
    pose proof (resolve_without_dangling hs before pattern ids1 d ids2
                  after host Hd) as E.
    unfold Rule in *. split; [exact E|]. unfold findProxyForURL. now rewrite E.
Qed.

Example dangling_id_in_test_config :
  findProxyForURL
    (mkHostConfig test_hostConfig.(hosts) [("*.github.com", [1%Z; 7%Z; 2%Z])])
    "https://www.github.com" "www.github.com"
  = "SOCKS proxy.example.com:8080;HTTP proxy2.example.com:8081;DIRECT".
Proof. vm_compute. reflexivity. Qed.

(** Id 7 has no host in the configuration of the tests. *)
Lemma dangling_host_id_skipped_witness :
  hostsOfIds test_hostConfig.(hosts) ([1%Z] ++ 7%Z :: [2%Z])
  = (hostsOfIds test_hostConfig.(hosts) [1%Z]
       ++ hostsOfIds test_hostConfig.(hosts) [2%Z])%list.
Proof.
  apply (proj1 (dangling_host_id_skipped test_hostConfig.(hosts) 7%Z
                  ltac:(simpl; intros h [<-|[<-|[]]]; simpl; lia))).
Defined.

End Resolver.

(** ** The directive list *)
Section Directives.
Import Utils.

Example findProxyForURL_no_rule :
  findProxyForURL test_hostConfig "https://example.com" "example.com"
  = "DIRECT".
Proof. vm_compute. reflexivity. Qed.

Example findProxyForURL_one_proxy :
  findProxyForURL test_hostConfig "https://www.google.com" "www.google.com"
  = "SOCKS proxy.example.com:8080;DIRECT".
Proof. vm_compute. reflexivity. Qed.

Example findProxyForURL_two_proxies :
  findProxyForURL test_hostConfig "https://www.github.com" "www.github.com"
  = "SOCKS proxy.example.com:8080;HTTP proxy2.example.com:8081;DIRECT".
Proof. vm_compute. reflexivity. Qed.

(** The type of a directive is the stored one when there is one and it
    is not empty, and [PROXY] otherwise. *)
Lemma type_or_PROXY_spec (item : Host) :
  match item.(type) with
  | Some (String c t) => type_or_PROXY item = String c t
  | Some "" | None => type_or_PROXY item = "PROXY"
  end.
Proof. unfold type_or_PROXY. now destruct item.(type) as [[|c t]|]. Qed.

(** The result is the directives of the resolved hosts, each followed
    by a semicolon, and then [DIRECT]. *)
Lemma findProxyForURL_shape (hostConfig : HostConfig) (url host : string) :
  findProxyForURL hostConfig url host
  = String.concat ""
      (List.map (fun item => directive item ++ ";")
                (resolveHostsByRule hostConfig host))
    ++ "DIRECT".
Proof.
  unfold findProxyForURL; cbv zeta.
  rewrite join_snoc. now rewrite map_map.
Qed.

(** A host whose type is the empty string: the code answers
    with a [PROXY] directive, the wording of the specification (the
    stored type whenever the record has one) with a directive that
    begins with a space. *)
Lemma findProxyForURL_empty_type_is_PROXY :
  findProxyForURL empty_type_hostConfig
    "https://www.example.org/" "www.example.org"
  = "PROXY proxy.example.com:8080;DIRECT"
  /\ Stated.stated_findProxyForURL empty_type_hostConfig
       "www.example.org"
     = " proxy.example.com:8080;DIRECT"
  /\ findProxyForURL empty_type_hostConfig
       "https://www.example.org/" "www.example.org"
     <> Stated.stated_findProxyForURL empty_type_hostConfig
          "www.example.org".
Proof.
  split; [|split].
  - vm_compute. reflexivity.
  - vm_compute. reflexivity.
  - vm_compute. discriminate.
Qed.

(** C3 (amended). When a rule matches, the result is one directive
    [type host:port] per resolved host of the first matching rule, in
    the order of the ids of that rule, each followed by a semicolon,
    and then [DIRECT]; the type is the stored one when the record has
    one that is not the empty string, and [PROXY] when it is absent or
    empty.  When no rule matches, the result is [DIRECT]. *)
Theorem findProxyForURL_directives (hs : list Host) (url host : string) :
  (forall before pattern hostIds after,
      Describe.no_match host before ->
      hostMatch host pattern = true ->
      findProxyForURL
        (mkHostConfig hs (before ++ (pattern, hostIds) :: after)) url host
      = String.concat ""
          (List.map
             (fun item =>
                match item.(type) with
                | Some (String c t) => String c t
                | Some "" | None => "PROXY"
                end ++ " " ++ item.(Utils.host) ++ ":"
                  ++ JS.Number_toString item.(port) ++ ";")
             (hostsOfIds hs hostIds))
        ++ "DIRECT")
  /\ (forall rs,
         Describe.no_match host rs ->
         findProxyForURL (mkHostConfig hs rs) url host = "DIRECT").
Proof.
  split.
  - intros before pattern hostIds after Hb Hp.
    rewrite findProxyForURL_shape.
    rewrite (resolve_first_match hs host before pattern hostIds after Hb Hp).
    f_equal. f_equal. apply map_ext. intros item.
    unfold directive, type_or_PROXY.
    destruct item.(type) as [[|c t]|]; now rewrite !append_assoc.
  - intros rs Hn.
    rewrite findProxyForURL_shape, (resolve_no_match hs host rs Hn).
    reflexivity.
Qed.

Lemma findProxyForURL_directives_witness :
  findProxyForURL
    (mkHostConfig test_hostConfig.(hosts)
       ([("*.google.com", [1%Z])]
          ++ ("*.github.com", [2%Z; 1%Z]) :: [("*.com", [1%Z])]))
    "https://www.github.com" "www.github.com"
  = "HTTP proxy2.example.com:8081;SOCKS proxy.example.com:8080;DIRECT"
  /\ findProxyForURL
       (mkHostConfig test_hostConfig.(hosts) test_hostConfig.(rules))
       "https://example.org" "example.org"
     = "DIRECT".
Proof.
  split.
  - apply (proj1 (findProxyForURL_directives test_hostConfig.(hosts)
                    "https://www.github.com" "www.github.com")).
    + repeat constructor.
    + reflexivity.
  - apply (proj2 (findProxyForURL_directives test_hostConfig.(hosts)
                    "https://example.org" "example.org")).
    repeat constructor.
Defined.

End Directives.

(** ** The generated script *)
Section GeneratedScript.
Import Utils PacEngine.

(** The lines of the generated script: the configuration, the
    matcher, [findProxyForURL] and the three lines of the wrapper. *)
Lemma generatePac_statements (hostConfig : HostConfig) :
  generatePac hostConfig
  = [ const_hostConfig hostConfig;
      function_source fn_hostMatch;
      function_source fn_findProxyForURL;
      text "function FindProxyForURL(url, host) {";
      text (String "009"%char
              "return findProxyForURL(hostConfig, url, host);");
      text "}" ].
Proof. reflexivity. Qed.

(** The generated script binds [hostMatch], [findProxyForURL],
    [FindProxyForURL] and [hostConfig], and does not bind
    [resolveHostsByRule]. *)
Lemma generatePac_scope (hostConfig : HostConfig) :
  declares (generatePac hostConfig) fn_hostMatch = true
  /\ declares (generatePac hostConfig) fn_findProxyForURL = true
  /\ declares_wrapper (generatePac hostConfig) = true
  /\ hostConfig_of (generatePac hostConfig) = Some hostConfig
  /\ declares (generatePac hostConfig) fn_resolveHostsByRule = false.
Proof. repeat split. Qed.

(** In a scope that binds [hostMatch], the scan of the rules is the
    [find] of the module. *)
Lemma find_rule_in_scope (script : Script) (host : string)
      (rs : list Rule) :
  declares script fn_hostMatch = true ->
  find_rule script host rs
  = Returned (List.find (fun item => hostMatch host (fst item)) rs).
Proof.
  intros Hm. induction rs as [|r rs IH]; simpl; [reflexivity|].
  unfold call_hostMatch. rewrite Hm. simpl.
  destruct (hostMatch host (fst r)); [reflexivity | exact IH].
Qed.

(** A script that binds every name the embedded bodies use answers as
    the functions of the module do. *)
Lemma FindProxyForURL_in_full_scope (script : Script)
      (hostConfig : HostConfig) (url host : string) :
  declares script fn_hostMatch = true ->
  declares script fn_resolveHostsByRule = true ->
  declares script fn_findProxyForURL = true ->
  declares_wrapper script = true ->
  hostConfig_of script = Some hostConfig ->
  FindProxyForURL script url host
  = Returned (findProxyForURL hostConfig url host).
Proof.
  intros Hm Hr Hf Hw Hc.
  unfold FindProxyForURL, body_wrapper. rewrite Hw, Hf, Hc.
  unfold body_findProxyForURL, call_resolveHostsByRule. rewrite Hr.
  unfold body_resolveHostsByRule. rewrite (find_rule_in_scope _ _ _ Hm).
  unfold findProxyForURL, resolveHostsByRule. simpl.
  now destruct (List.find _ _).
Qed.

(** Had [generatePac] embedded the source of [resolveHostsByRule] as
    well, the script would answer as [findProxyForURL] does. *)
Lemma script_with_resolveHostsByRule (hostConfig : HostConfig)
      (url host : string) :
  FindProxyForURL
    (function_source fn_resolveHostsByRule :: generatePac hostConfig)
    url host
  = Returned (findProxyForURL hostConfig url host).
Proof. now apply FindProxyForURL_in_full_scope. Qed.

(** C5. Running the script of [generatePac]: the wrapper calls the
    embedded [findProxyForURL], whose body calls [resolveHostsByRule],
    a name the script does not bind.  On every configuration and every
    query the call of [FindProxyForURL] ends in a [ReferenceError]; it
    never returns what [findProxyForURL] returns. *)
Theorem generated_script_throws (hostConfig : HostConfig)
        (url host : string) :
  FindProxyForURL (generatePac hostConfig) url host
  = Threw (ReferenceError "resolveHostsByRule")
  /\ FindProxyForURL (generatePac hostConfig) url host
     <> Returned (findProxyForURL hostConfig url host).
Proof.
  assert (E : FindProxyForURL (generatePac hostConfig) url host
              = Threw (ReferenceError "resolveHostsByRule")) by reflexivity.
  split; [exact E|]. rewrite E. discriminate.
Qed.

Example generated_script_on_empty_config :
  FindProxyForURL (generatePac (mkHostConfig [] []))
    "https://example.com/" "example.com"
  = Threw (ReferenceError "resolveHostsByRule")
  /\ findProxyForURL (mkHostConfig [] []) "https://example.com/" "example.com"
     = "DIRECT".
Proof. split; reflexivity. Qed.

End GeneratedScript.

(** ** Decoding [host_ids] *)
Section DecodeFacts.
Import Api.

Lemma SameValueZero_eq (a b : number) : SameValueZero a b = true <-> a = b.
Proof.
  destruct a as [|s|p], b as [|t|q]; simpl;
    try (split; [discriminate | congruence]).
  - split; reflexivity.
  - rewrite Bool.eqb_true_iff. split; congruence.
  - unfold Qc_eq_bool. destruct (Qc_eq_dec p q) as [->|Hn].
    + split; reflexivity.
    + split; [discriminate | congruence].
Qed.

Lemma existsb_SameValueZero (x : number) (members : list number) :
  List.existsb (SameValueZero x) members = true <-> In x members.
Proof.
  rewrite existsb_exists. split.
  - intros [y [Hy E]]. apply SameValueZero_eq in E. now subst.
  - intros H. exists x. split; [exact H | now apply SameValueZero_eq].
Qed.

Lemma Set_add_In (members : list number) (x n : number) :
  In n (Set_add members x) <-> In n members \/ n = x.
Proof.
  unfold Set_add.
  destruct (List.existsb (SameValueZero x) members) eqn:E.
  - apply existsb_SameValueZero in E. split; [now left|].
    intros [H | ->]; assumption.
  - rewrite in_app_iff. simpl. intuition congruence.
Qed.

Lemma Set_add_NoDup (members : list number) (x : number) :
  NoDup members -> NoDup (Set_add members x).
Proof.
  intros Hm. unfold Set_add.
  destruct (List.existsb (SameValueZero x) members) eqn:E; [exact Hm|].
  assert (Hx : ~ In x members).
  { intros H. apply existsb_SameValueZero in H. congruence. }
  clear E. induction Hm as [|m members Hnotin Hm IH]; simpl.
  - constructor; [intros [] | constructor].
  - constructor.
    + rewrite in_app_iff. simpl. intros [H | [H | []]].
      * contradiction.
      * apply Hx. now left.
    + apply IH. intros H. apply Hx. now right.
Qed.

Lemma fold_Set_add (xs members : list number) :
  NoDup members ->
  NoDup (List.fold_left Set_add xs members)
  /\ (forall n, In n (List.fold_left Set_add xs members)
                <-> In n members \/ In n xs).
Proof.
  revert members. induction xs as [|x xs IH]; intros members Hm; simpl.
  - split; [exact Hm | intuition].
  - destruct (IH (Set_add members x) (Set_add_NoDup members x Hm))
      as [Hnd Hin].
    split; [exact Hnd|]. intros n. rewrite Hin, Set_add_In.
    intuition congruence.
Qed.

(** A set lists each of its members once, and its members are the
    elements it was built from. *)
Lemma Array_from_Set_spec (xs : list number) :
  NoDup (Array_from_Set xs)
  /\ (forall n, In n (Array_from_Set xs) <-> In n xs).
Proof.
  destruct (fold_Set_add xs [] (NoDup_nil _)) as [Hnd Hin].
  split; [exact Hnd|]. intros n. unfold Array_from_Set. rewrite Hin.
  simpl. intuition.
Qed.

(** The members are listed in the order of their first occurrences. *)
Example Array_from_Set_order :
  Array_from_Set [of_Z 2; of_Z 1; of_Z 2; of_Z 3; of_Z 1]
  = [of_Z 2; of_Z 1; of_Z 3].
Proof. vm_compute. reflexivity. Qed.

(** The rational of an integer is in lowest terms. *)
Lemma Qred_inject_Z (z : Z) : Qred (inject_Z z) = inject_Z z.
Proof.
  unfold inject_Z, Qred. simpl.
  pose proof (Z.ggcd_gcd z 1) as Hg.
  pose proof (Z.ggcd_correct_divisors z 1) as Hd.
  destruct (Z.ggcd z 1) as [g [a b]]; simpl in *.
  rewrite Z.gcd_1_r in Hg. subst g. destruct Hd as [Ha Hb].
  rewrite Z.mul_1_l in Ha, Hb. subst a b. reflexivity.
Qed.

(** A number that passes the filter of the decoder is a positive
    integer. *)
Lemma filter_passes_positive_integers (n : number) :
  Number_isInteger n = true -> gt_zero n = true ->
  exists z : Z, (0 < z)%Z /\ n = of_Z z.
Proof.
  unfold Number_isInteger, gt_zero.
  destruct n as [|s|q]; try discriminate.
  intros Hden Hnum. apply Pos.eqb_eq in Hden. apply Z.ltb_lt in Hnum.
  exists (Qnum q). split; [exact Hnum|].
  unfold of_Z. f_equal. apply Qc_is_canon.
  unfold Q2Qc; cbn [this]. rewrite Qred_correct.
  destruct q as [[num den] Hcanon]; cbn [this Qnum Qden] in *.
  subst den. reflexivity.
Qed.

Lemma positive_integers_pass_filter (z : Z) :
  (0 < z)%Z ->
  Number_isInteger (of_Z z) = true /\ gt_zero (of_Z z) = true.
Proof.
  intros Hz. unfold of_Z, Number_isInteger, gt_zero, Q2Qc; cbn [this].
  assert (E : Qred (inject_Z z) = inject_Z z).
  { unfold inject_Z, Qred. simpl.
    pose proof (Z.ggcd_gcd z 1) as Hg.
    pose proof (Z.ggcd_correct_divisors z 1) as Hd.
    destruct (Z.ggcd z 1) as [g [a b]]; simpl in *.
    rewrite Z.gcd_1_r in Hg. subst g. destruct Hd as [Ha Hb].
    rewrite Z.mul_1_l in Ha, Hb. subst a b. reflexivity. }
  rewrite E. simpl. split; [reflexivity | now apply Z.ltb_lt].
Qed.

Section WithBuiltins.
Variable JSON_parse : string -> option json.
Variable StringToNumber : string -> number.
Variable ObjectToNumber : json -> option number.

(** What [map] gives when no conversion throws, and when one does. *)
Lemma map_Number_Some (items : list json) (numbers : list number) :
  map_Number StringToNumber ObjectToNumber items = Some numbers ->
  forall n,
    In n numbers
    <-> exists item,
        In item items /\ Number StringToNumber ObjectToNumber item = Some n.
Proof.
  revert numbers. induction items as [|item items IH]; intros numbers H n.
  - injection H as <-. simpl. split; [intros [] | intros [_ [[] _]]].
  - cbn [map_Number] in H.
    destruct (Number StringToNumber ObjectToNumber item) as [m|] eqn:Em;
      [|discriminate].
    destruct (map_Number StringToNumber ObjectToNumber items) as [ns|];
      [|discriminate].
    injection H as <-. specialize (IH ns eq_refl n). simpl. split.
    + intros [<- | Hn].
      * exists item. split; [now left | exact Em].
      * apply IH in Hn. destruct Hn as [x [Hx Ex]].
        exists x. split; [now right | exact Ex].
    + intros [x [[<- | Hx] Ex]].
      * left. congruence.
      * right. apply IH. now exists x.
Qed.

Lemma map_Number_None (items : list json) :
  map_Number StringToNumber ObjectToNumber items = None
  <-> exists item,
      In item items /\ Number StringToNumber ObjectToNumber item = None.
Proof.
  induction items as [|item items IH]; cbn [map_Number].
  - split; [discriminate | intros [_ [[] _]]].
  - destruct (Number StringToNumber ObjectToNumber item) as [m|] eqn:Em.
    + destruct (map_Number StringToNumber ObjectToNumber items) as [ns|].
      * split; [discriminate|]. intros [x [[<- | Hx] Ex]]; [congruence|].
        assert (H : Some ns = None) by (apply IH; now exists x).
        discriminate.
      * split; [|reflexivity]. intros _.
        destruct (proj1 IH eq_refl) as [x [Hx Ex]].
        exists x. split; [now right | exact Ex].
    + split; [|reflexivity]. intros _. exists item. split; [now left|exact Em].
Qed.

Lemma map_Number_defined (items : list json) :
  Forall (fun item => Number StringToNumber ObjectToNumber item <> None)
         items ->
  exists numbers,
    map_Number StringToNumber ObjectToNumber items = Some numbers.
Proof.
  intros Hall.
  destruct (map_Number StringToNumber ObjectToNumber items) as [ns|] eqn:E;
    [now exists ns|].
  apply map_Number_None in E. destruct E as [x [Hx Ex]].
  rewrite Forall_forall in Hall. now destruct (Hall x Hx).
Qed.

(** The decoded list of an array text. *)
Lemma parseHostIds_array (text : string) (items : list json)
      (numbers : list number) :
  text <> "" ->
  JSON_parse text = Some (JArray items) ->
  map_Number StringToNumber ObjectToNumber items = Some numbers ->
  parseHostIds JSON_parse StringToNumber ObjectToNumber (Some text)
  = Array_from_Set
      (List.filter (fun n => Number_isInteger n && gt_zero n) numbers).
Proof.
  intros Ht Hp Hm. unfold parseHostIds.
  destruct text as [|c t]; [congruence|]. rewrite Hp. cbn [Array_isArray negb].
  now rewrite Hm.
Qed.

(** Whatever the input, the decoded list has no duplicates and holds
    positive integers only. *)
Lemma parseHostIds_clean (ids : option string) :
  NoDup (parseHostIds JSON_parse StringToNumber ObjectToNumber ids)
  /\ Forall (fun n => exists z : Z, (0 < z)%Z /\ n = of_Z z)
            (parseHostIds JSON_parse StringToNumber ObjectToNumber ids).
Proof.
  assert (Hnil : NoDup (@nil number)
                 /\ Forall (fun n => exists z : Z, (0 < z)%Z /\ n = of_Z z)
                           (@nil number))
    by (split; constructor).
  unfold parseHostIds.
  destruct ids as [[|c t]|]; try exact Hnil.
  destruct (JSON_parse (String c t)) as [parsed|]; try exact Hnil.
  destruct parsed; cbn [Array_isArray negb]; try exact Hnil.
  destruct (map_Number StringToNumber ObjectToNumber items) as [numbers|];
    try exact Hnil.
  cbv zeta.
  match goal with
  | |- context [Array_from_Set ?xs] =>
      destruct (Array_from_Set_spec xs) as [Hnd Hin]
  end.
  split; [exact Hnd|]. apply Forall_forall. intros n Hn.
  apply Hin in Hn. apply filter_In in Hn. destruct Hn as [_ Hn].
  apply andb_true_iff in Hn. destruct Hn.
  now apply filter_passes_positive_integers.
Qed.

(** C9 (amended). Decoding has a value on every input (the decoder is a
    total function to lists; what [JSON.parse] and [Number] throw is
    caught).  A missing input ([null] or the empty string), a text
    that [JSON.parse] rejects, a text that is not an array and an array
    with an entry whose conversion to a number throws decode to the
    empty list.  Any other array decodes to the values [Number(item)]
    of its entries that are integers greater than zero, each listed
    once: an entry is judged by the number it converts to, not by what
    it is.  In every case the result has no duplicates and holds
    positive integers only. *)
Theorem parseHostIds_never_fails :
  (parseHostIds JSON_parse StringToNumber ObjectToNumber None = []
   /\ parseHostIds JSON_parse StringToNumber ObjectToNumber (Some "") = [])
  /\ (forall text,
         JSON_parse text = None ->
         parseHostIds JSON_parse StringToNumber ObjectToNumber (Some text)
         = [])
  /\ (forall text parsed,
         JSON_parse text = Some parsed ->
         Array_isArray parsed = false ->
         parseHostIds JSON_parse StringToNumber ObjectToNumber (Some text)
         = [])
  /\ (forall text items item,
         JSON_parse text = Some (JArray items) ->
         In item items ->
         Number StringToNumber ObjectToNumber item = None ->
         parseHostIds JSON_parse StringToNumber ObjectToNumber (Some text)
         = [])
  /\ (forall text items n,
         text <> "" ->
         JSON_parse text = Some (JArray items) ->
         Forall
           (fun item => Number StringToNumber ObjectToNumber item <> None)
           items ->
         (In n (parseHostIds JSON_parse StringToNumber ObjectToNumber
                  (Some text))
          <-> (exists item,
                  In item items
                  /\ Number StringToNumber ObjectToNumber item = Some n)
              /\ Number_isInteger n = true /\ gt_zero n = true))
  /\ (forall ids,
         NoDup (parseHostIds JSON_parse StringToNumber ObjectToNumber ids)
         /\ Forall (fun n => exists z : Z, (0 < z)%Z /\ n = of_Z z)
                   (parseHostIds JSON_parse StringToNumber ObjectToNumber
                      ids)).
Proof.
  split; [split; reflexivity|]. split; [|split; [|split; [|split]]].
  - intros text Hp. unfold parseHostIds.
    destruct text as [|c t]; [reflexivity | now rewrite Hp].
  - intros text parsed Hp Ha. unfold parseHostIds.
    destruct text as [|c t]; [reflexivity|]. rewrite Hp.
    now rewrite Ha.
  - intros text items item Hp Hin Hthrow. unfold parseHostIds.
    destruct text as [|c t]; [reflexivity|]. rewrite Hp.
    cbn [Array_isArray negb].
    assert (E : map_Number StringToNumber ObjectToNumber items = None)
      by (apply map_Number_None; now exists item).
    now rewrite E.
  - intros text items n Ht Hp Hall.
    destruct (map_Number_defined items Hall) as [numbers Hm].
    rewrite (parseHostIds_array text items numbers Ht Hp Hm).
    destruct (Array_from_Set_spec
                (List.filter (fun n => Number_isInteger n && gt_zero n)
                   numbers))
      as [_ Hin].
    rewrite Hin, filter_In, andb_true_iff, (map_Number_Some items numbers Hm).
    reflexivity.
  - exact parseHostIds_clean.
Qed.

End WithBuiltins.

(** The decoder on the sample texts: duplicates go, and so do the
    entries that are not positive integers; [true] counts as 1. *)
Example parseHostIds_duplicates :
  parseHostIds sample_JSON_parse sample_StringToNumber sample_ObjectToNumber
    (Some "[1,2,2,1,3]")
  = [of_Z 1; of_Z 2; of_Z 3].
Proof. vm_compute. reflexivity. Qed.

Example parseHostIds_mixed :
  parseHostIds sample_JSON_parse sample_StringToNumber sample_ObjectToNumber
    (Some "[3,-1,0,null,true,{},2,3]")
  = [of_Z 3; of_Z 1; of_Z 2].
Proof. vm_compute. reflexivity. Qed.

(** The array [[3,-1,0,null,true,{},2,3]] has the entry [true], which
    is not an integer; it is not filtered out: the decoded list holds
    the 1 it converts to, where the list of the entries that are
    positive integers is [[3,2]]. *)
Lemma parseHostIds_keeps_converted_entry :
  sample_JSON_parse "[3,-1,0,null,true,{},2,3]"
  = Some (JArray [JNumber (of_Z 3); JNumber (of_Z (-1)); JNumber (of_Z 0);
                  JNull; JBool true; JObject []; JNumber (of_Z 2);
                  JNumber (of_Z 3)])
  /\ parseHostIds sample_JSON_parse sample_StringToNumber
       sample_ObjectToNumber (Some "[3,-1,0,null,true,{},2,3]")
     = [of_Z 3; of_Z 1; of_Z 2]
  /\ Stated.stated_decode
       [JNumber (of_Z 3); JNumber (of_Z (-1)); JNumber (of_Z 0);
        JNull; JBool true; JObject []; JNumber (of_Z 2); JNumber (of_Z 3)]
     = [of_Z 3; of_Z 2]
  /\ parseHostIds sample_JSON_parse sample_StringToNumber
       sample_ObjectToNumber (Some "[3,-1,0,null,true,{},2,3]")
     <> Stated.stated_decode
          [JNumber (of_Z 3); JNumber (of_Z (-1)); JNumber (of_Z 0);
           JNull; JBool true; JObject []; JNumber (of_Z 2);
           JNumber (of_Z 3)].
Proof.
  split; [reflexivity|]. split; [vm_compute; reflexivity|].
  split; [vm_compute; reflexivity|]. vm_compute. discriminate.
Qed.

(** One entry whose conversion throws empties the whole list. *)
Example parseHostIds_throwing_entry :
  parseHostIds sample_JSON_parse sample_StringToNumber sample_ObjectToNumber
    (Some toString_null_text)
  = [].
Proof. vm_compute. reflexivity. Qed.

Lemma parseHostIds_never_fails_witness :
  parseHostIds sample_JSON_parse sample_StringToNumber sample_ObjectToNumber
    (Some "[1,2")
  = []
  /\ parseHostIds sample_JSON_parse sample_StringToNumber
       sample_ObjectToNumber (Some "{}")
     = []
  /\ parseHostIds sample_JSON_parse sample_StringToNumber
       sample_ObjectToNumber (Some toString_null_text)
     = []
  /\ (In (of_Z 1)
         (parseHostIds sample_JSON_parse sample_StringToNumber
            sample_ObjectToNumber (Some "[3,-1,0,null,true,{},2,3]"))
      <-> (exists item,
              In item
                 [JNumber (of_Z 3); JNumber (of_Z (-1)); JNumber (of_Z 0);
                  JNull; JBool true; JObject []; JNumber (of_Z 2);
                  JNumber (of_Z 3)]
              /\ Number sample_StringToNumber sample_ObjectToNumber item
                 = Some (of_Z 1))
          /\ Number_isInteger (of_Z 1) = true /\ gt_zero (of_Z 1) = true).
Proof.
  destruct (parseHostIds_never_fails sample_JSON_parse sample_StringToNumber
              sample_ObjectToNumber)
    as [_ [Hsyntax [Hshape [Hthrow [Harray _]]]]].
  split; [|split; [|split]].
  - apply Hsyntax. reflexivity.
  - apply (Hshape "{}" (JObject [])); reflexivity.
  - apply (Hthrow toString_null_text
             [JNumber (of_Z 1); JObject [("toString", JNull)]]
             (JObject [("toString", JNull)])).
    + reflexivity.
    + simpl. right. left. reflexivity.
    + reflexivity.
  - apply Harray.
    + discriminate.
    + reflexivity.
    + repeat constructor; discriminate.
Defined.

End DecodeFacts.

(** ** The pre-expanded script *)
Section StaticScript.
Import StaticPac.

(** *** The translation of a pattern *)

Lemma per_character_app (f : ascii -> string) (a b : string) :
  Describe.per_character f (a ++ b)
  = Describe.per_character f a ++ Describe.per_character f b.
Proof.
  induction a as [|c a IH]; simpl; [reflexivity|].
  now rewrite IH, append_assoc.
Qed.

Lemma replaceAll_per_character (c : ascii) (by_ s : string) :
  JS.replaceAll c by_ s
  = Describe.per_character
      (fun a => if Ascii.eqb a c then by_ else String a "") s.
Proof.
  induction s as [|a s IH]; simpl; [reflexivity|].
  rewrite IH. now destruct (Ascii.eqb a c).
Qed.

Lemma replaceAll_app (c : ascii) (by_ a b : string) :
  JS.replaceAll c by_ (a ++ b)
  = JS.replaceAll c by_ a ++ JS.replaceAll c by_ b.
Proof. rewrite !replaceAll_per_character. apply per_character_app. Qed.

(** What the code does to each character of a pattern: a dot is
    escaped, and a star becomes an escaped dot followed by a star. *)
Lemma regex_source_per_character (pattern : string) :
  regex_source pattern
  = Describe.per_character
      (fun a => if Ascii.eqb a "*" then "\.*"
                else if Ascii.eqb a "." then "\."
                else String a "")
      pattern.
Proof.
  unfold regex_source.
  induction pattern as [|a p IH]; [reflexivity|].
  cbn [JS.replaceAll Describe.per_character].
  destruct (Ascii.eqb a "*") eqn:Es.
  - rewrite replaceAll_app, IH. reflexivity.
  - cbn [JS.replaceAll]. rewrite IH. now destruct (Ascii.eqb a ".").
Qed.

(** What the stated order does: a dot is escaped, and a star becomes
    a dot, which is left as it is, followed by a star. *)
Lemma stated_regex_source_per_character (pattern : string) :
  Stated.dots_first_regex_source pattern
  = Describe.per_character
      (fun a => if Ascii.eqb a "*" then ".*"
                else if Ascii.eqb a "." then "\."
                else String a "")
      pattern.
Proof.
  unfold Stated.dots_first_regex_source.
  induction pattern as [|a p IH]; [reflexivity|].
  cbn [JS.replaceAll Describe.per_character].
  destruct (Ascii.eqb a ".") eqn:Ed.
  - apply Ascii.eqb_eq in Ed. subst a.
    rewrite replaceAll_app, IH. reflexivity.
  - cbn [JS.replaceAll]. rewrite IH. now destruct (Ascii.eqb a "*").
Qed.

(** C6. The code expands the stars first and escapes the dots next, so
    that the dot of each expanded star is escaped too: the pattern
    [*.example.com] becomes [\.*\.example\.com], where the stated order
    (dots first, stars next) gives [.*\.example\.com].  On every
    pattern, the code turns each star into an escaped dot followed by
    a star. *)
Theorem regex_source_escapes_expanded_star :
  regex_source "*.example.com" = "\.*\.example\.com"
  /\ Stated.dots_first_regex_source "*.example.com" = ".*\.example\.com"
  /\ regex_source "*.example.com"
     <> Stated.dots_first_regex_source "*.example.com"
  /\ (forall pattern,
         regex_source pattern
         = Describe.per_character
             (fun a => if Ascii.eqb a "*" then "\.*"
                       else if Ascii.eqb a "." then "\."
                       else String a "")
             pattern).
Proof.
  split; [reflexivity|]. split; [reflexivity|].
  split; [vm_compute; discriminate | exact regex_source_per_character].
Qed.

(** The two orders disagree on every pattern that begins with a star. *)
Lemma regex_source_differs_on_leading_star (rest : string) :
  regex_source (String "*" rest)
  <> Stated.dots_first_regex_source (String "*" rest).
Proof.
  rewrite regex_source_per_character, stated_regex_source_per_character.
  simpl. discriminate.
Qed.

(** *** The text of the script *)

Lemma concat_app (xs ys : list string) :
  String.concat "" (xs ++ ys)
  = String.concat "" xs ++ String.concat "" ys.
Proof.
  induction xs as [|x xs IH]; [reflexivity|].
  assert (E : forall zs, String.concat "" (x :: zs)
                         = x ++ String.concat "" zs).
  { intros [|z zs]; simpl; [now rewrite append_nil_r | reflexivity]. }
  change ((x :: xs) ++ ys)%list with (x :: (xs ++ ys))%list.
  now rewrite !E, IH, append_assoc.
Qed.

Lemma concat_cons (x : string) (xs : list string) :
  String.concat "" (x :: xs) = x ++ String.concat "" xs.
Proof. destruct xs; simpl; [now rewrite append_nil_r | reflexivity]. Qed.

Lemma host_step_entry (pacContent : string) (h : Host) :
  host_step pacContent h = pacContent ++ Describe.table_entry h.
Proof.
  unfold host_step, Describe.table_entry, Describe.entry_with, proxy_entry,
    Describe.keyword.
  destruct (String.eqb h.(type) "SOCKS"); [reflexivity|].
  destruct (String.eqb h.(type) "HTTP"); [reflexivity|].
  destruct (String.eqb h.(type) "HTTPS"); [reflexivity|].
  now rewrite append_nil_r.
Qed.

Lemma forEach_host (hosts : list Host) (pacContent : string) :
  List.fold_left host_step hosts pacContent
  = pacContent ++ String.concat "" (List.map Describe.table_entry hosts).
Proof.
  revert pacContent. induction hosts as [|h hosts IH]; intros pacContent.
  - simpl. now rewrite append_nil_r.
  - cbn [List.fold_left List.map]. rewrite IH, host_step_entry, concat_cons.
    now rewrite append_assoc.
Qed.

Section WithParser.
Variable JSON_parse : string -> option Api.json.
Variable StringToNumber : string -> Api.number.
Variable ObjectToNumber : Api.json -> option Api.number.
Variable ObjectToString : Api.json -> option string.
Variable FractionToString : Qc -> string.

Lemma rule_step_conditional (pacContent : string) (rule : RuleRow)
      (pacContent' : string) :
  rule_step JSON_parse StringToNumber ObjectToNumber ObjectToString
    FractionToString pacContent rule
  = Some pacContent' ->
  pacContent'
  = pacContent
    ++ Describe.conditional JSON_parse StringToNumber ObjectToNumber
         ObjectToString FractionToString rule.
Proof.
  unfold rule_step, Describe.conditional, rule_statement; cbv zeta.
  destruct (JSON_parse rule.(host_ids)) as [hostIds|]; [|discriminate].
  destruct (length_gt_0 StringToNumber ObjectToNumber hostIds) as [[|]|];
    [| |discriminate].
  - destruct (template_text ObjectToString FractionToString
                (index_0 hostIds)) as [hostId0|]; [|discriminate].
    intros H. injection H as <-. reflexivity.
  - intros H. injection H as <-.
    destruct (template_text ObjectToString FractionToString
                (index_0 hostIds)); now rewrite append_nil_r.
Qed.

Lemma forEach_rule_conditionals (rules : list RuleRow)
      (pacContent pacContent' : string) :
  forEach_rule JSON_parse StringToNumber ObjectToNumber ObjectToString
    FractionToString pacContent rules
  = Some pacContent' ->
  pacContent'
  = pacContent
    ++ String.concat ""
         (List.map
            (Describe.conditional JSON_parse StringToNumber ObjectToNumber
               ObjectToString FractionToString)
            rules).
Proof.
  revert pacContent. induction rules as [|r rules IH]; intros pacContent.
  - simpl. intros H. injection H as <-. now rewrite append_nil_r.
  - cbn [forEach_rule List.map].
    destruct (rule_step JSON_parse StringToNumber ObjectToNumber
                ObjectToString FractionToString pacContent r)
      as [acc|] eqn:E; [|discriminate].
    intros H. apply IH in H. apply rule_step_conditional in E. subst.
    now rewrite concat_cons, append_assoc.
Qed.

(** The script, when the handler gets to answer with one: the opening,
    one entry per host, the middle, the conditionals of the rules, and
    the closing. *)
Lemma pac_text (hosts : list Host) (rules : list RuleRow) (text : string) :
  pac JSON_parse StringToNumber ObjectToNumber ObjectToString
    FractionToString hosts rules
  = Some text ->
  text
  = pac_head
    ++ String.concat "" (List.map Describe.table_entry hosts)
    ++ pac_middle
    ++ String.concat ""
         (List.map
            (Describe.conditional JSON_parse StringToNumber ObjectToNumber
               ObjectToString FractionToString)
            rules)
    ++ pac_tail.
Proof.
  unfold pac; cbv zeta. rewrite forEach_host.
  destruct (forEach_rule JSON_parse StringToNumber ObjectToNumber
              ObjectToString FractionToString _ rules)
    as [acc|] eqn:E; [|discriminate].
  intros H. injection H as <-. apply forEach_rule_conditionals in E.
  subst acc. now rewrite !append_assoc.
Qed.

(** A row stops the loop exactly when it is one of those described
    as throwing. *)
Lemma rule_step_throws (pacContent : string) (rule : RuleRow) :
  rule_step JSON_parse StringToNumber ObjectToNumber ObjectToString
    FractionToString pacContent rule
  = None
  <-> Describe.throws JSON_parse StringToNumber ObjectToNumber
        ObjectToString FractionToString rule.
Proof.
  unfold rule_step, Describe.throws; cbv zeta.
  destruct (JSON_parse rule.(host_ids)) as [hostIds|]; [|tauto].
  destruct hostIds as [|b|n|s|items|members]; cbn [length_gt_0 index_0].
  - tauto.
  - split; [discriminate | intros []].
  - split; [discriminate | intros []].
  - destruct s as [|c s]; cbn [String.length Nat.ltb Nat.leb template_text];
      (split; [discriminate | intros []]).
  - destruct items as [|item items]; cbn [List.length Nat.ltb Nat.leb].
    + split; [discriminate | intros []].
    + destruct (template_text ObjectToString FractionToString (Some item));
        split; congruence || discriminate.
  - destruct (member "length" members) as [length|];
      [|split; [discriminate | intros []]].
    destruct (Api.Number StringToNumber ObjectToNumber length) as [n|];
      cbn [option_map]; [|tauto].
    destruct (Api.gt_zero n).
    + destruct (template_text ObjectToString FractionToString
                  (member "0" members)); split;
        try discriminate; try tauto.
      intros [_ H]; discriminate.
    + split; [discriminate | intros [H _]; discriminate].
Qed.

Lemma forEach_rule_fails (rules : list RuleRow) (pacContent : string) :
  forEach_rule JSON_parse StringToNumber ObjectToNumber ObjectToString
    FractionToString pacContent rules
  = None
  <-> Exists
        (Describe.throws JSON_parse StringToNumber ObjectToNumber
           ObjectToString FractionToString)
        rules.
Proof.
  revert pacContent. induction rules as [|r rules IH]; intros pacContent.
  - simpl. split; [discriminate | intros H; inversion H].
  - cbn [forEach_rule].
    destruct (rule_step JSON_parse StringToNumber ObjectToNumber
                ObjectToString FractionToString pacContent r)
      as [acc|] eqn:E.
    + rewrite IH. split; [now right|]. intros H.
      inversion H as [? ? Hr|]; subst; [|assumption].
      apply (rule_step_throws pacContent) in Hr. congruence.
    + split; [|reflexivity]. intros _. left.
      now apply (rule_step_throws pacContent).
Qed.

(** The handler answers with a script when no row throws. *)
Lemma pac_defined (hosts : list Host) (rules : list RuleRow) :
  Forall
    (fun r =>
       ~ Describe.throws JSON_parse StringToNumber ObjectToNumber
           ObjectToString FractionToString r)
    rules ->
  exists text,
    pac JSON_parse StringToNumber ObjectToNumber ObjectToString
      FractionToString hosts rules
    = Some text.
Proof.
  intros Hall. unfold pac; cbv zeta.
  destruct (forEach_rule JSON_parse StringToNumber ObjectToNumber
              ObjectToString FractionToString
              (List.fold_left host_step hosts pac_head ++ pac_middle) rules)
    as [acc|] eqn:E; [now eexists|].
  apply forEach_rule_fails in E. apply Exists_exists in E.
  destruct E as [r [Hr Ht]]. rewrite Forall_forall in Hall.
  now destruct (Hall r Hr).
Qed.

End WithParser.

End StaticScript.

(** ** The table and the conditionals of the pre-expanded script *)
Section StaticClaims.
Import StaticPac.

Example pac_sample :
  sample_pac sample_hosts sample_rules
  = Some
      (pac_head
       ++ "        1: " ++ JS.dq ++ "SOCKS5 proxy.example.com:8080" ++ JS.dq
       ++ "," ++ JS.nl
       ++ "        2: " ++ JS.dq ++ "PROXY proxy2.example.com:8081" ++ JS.dq
       ++ "," ++ JS.nl
       ++ pac_middle
       ++ "    if (/\.*\.github\.com/.test(host)) return PROXY[2];" ++ JS.nl
       ++ "    if (/a\.youtube\.com/.test(host)) return PROXY[1];" ++ JS.nl
       ++ pac_tail).
Proof. vm_compute. reflexivity. Qed.

(** The keyword of an entry, by stored type. *)
Lemma keyword_cases (t : string) :
  (t = "SOCKS" /\ Describe.keyword t = Some "SOCKS5")
  \/ (t = "HTTP" /\ Describe.keyword t = Some "PROXY")
  \/ (t = "HTTPS" /\ Describe.keyword t = Some "HTTPS")
  \/ (t <> "SOCKS" /\ t <> "HTTP" /\ t <> "HTTPS"
      /\ Describe.keyword t = None).
Proof.
  unfold Describe.keyword.
  destruct (String.eqb_spec t "SOCKS") as [->|H1]; [now left|].
  destruct (String.eqb_spec t "HTTP") as [->|H2]; [now right; left|].
  destruct (String.eqb_spec t "HTTPS") as [->|H3]; [now right; right; left|].
  right; right; right. now repeat split.
Qed.

(** A host of another type adds nothing to the table. *)
Lemma host_step_other_type (pacContent : string) (h : Host) :
  h.(type) <> "SOCKS" -> h.(type) <> "HTTP" -> h.(type) <> "HTTPS" ->
  host_step pacContent h = pacContent.
Proof.
  intros H1 H2 H3. unfold host_step.
  destruct (String.eqb_spec h.(type) "SOCKS"); [contradiction|].
  destruct (String.eqb_spec h.(type) "HTTP"); [contradiction|].
  destruct (String.eqb_spec h.(type) "HTTPS"); [contradiction|].
  reflexivity.
Qed.

(** The key of an entry occurs in a script that has the entry. *)
Lemma table_has_entry_key (text : string) (h : Host) :
  Stated.table_has_entry text h ->
  JS.occurs_in ("        " ++ id_text h.(id) ++ ": " ++ JS.dq) text.
Proof.
  intros [keyword [before [after [rest H]]]].
  exists (pac_head ++ before),
         (keyword ++ " " ++ h.(host) ++ ":" ++ JS.Number_toString h.(port)
          ++ JS.dq ++ "," ++ JS.nl ++ after ++ pac_middle ++ rest).
  rewrite H. unfold Describe.entry_with. now rewrite !append_assoc.
Qed.

(** The script of a configuration whose only host has the type
    [PROXY]: the table is empty, it has no entry keyed by the id of
    that host. *)
Lemma PROXY_host_has_no_entry :
  sample_pac [PROXY_host] []
  = Some (pac_head ++ pac_middle ++ pac_tail)
  /\ ~ Stated.table_has_entry (pac_head ++ pac_middle ++ pac_tail)
       PROXY_host.
Proof.
  split; [reflexivity|].
  intros H. apply table_has_entry_key in H. apply includes_spec in H.
  vm_compute in H. discriminate.
Qed.

(** C7 (amended). In the script the handler answers with, every host
    of the configuration whose type is [SOCKS], [HTTP] or [HTTPS] has
    an entry in the table, between the opening of the table and its
    closing: a line that begins with the id of the host as the key and
    holds a proxy string for the host. *)
Theorem proxy_table_has_typed_hosts
        (JSON_parse : string -> option Api.json)
        (StringToNumber : string -> Api.number)
        (ObjectToNumber : Api.json -> option Api.number)
        (ObjectToString : Api.json -> option string)
        (FractionToString : Qc -> string)
        (hosts : list Host) (rules : list RuleRow) (text : string)
        (h : Host) :
  pac JSON_parse StringToNumber ObjectToNumber ObjectToString
    FractionToString hosts rules
  = Some text ->
  In h hosts ->
  h.(type) = "SOCKS" \/ h.(type) = "HTTP" \/ h.(type) = "HTTPS" ->
  Stated.table_has_entry text h.
Proof.
  intros Hpac Hin Htype. apply pac_text in Hpac.
  apply in_split in Hin. destruct Hin as [l1 [l2 ->]].
  assert (Hk : exists k, Describe.keyword h.(type) = Some k).
  { destruct (keyword_cases h.(type))
      as [[_ E] | [[_ E] | [[_ E] | [H1 [H2 [H3 _]]]]]];
      try (eexists; exact E).
    exfalso. destruct Htype as [E | [E | E]]; contradiction. }
  destruct Hk as [k Hk]. unfold Stated.table_has_entry.
  exists k,
         (String.concat "" (List.map Describe.table_entry l1)),
         (String.concat "" (List.map Describe.table_entry l2)),
         (String.concat ""
            (List.map
               (Describe.conditional JSON_parse StringToNumber
                  ObjectToNumber ObjectToString FractionToString)
               rules)
          ++ pac_tail).
  rewrite Hpac, map_app, concat_app. cbn [List.map].
  rewrite concat_cons. unfold Describe.table_entry at 2. rewrite Hk.
  unfold Describe.entry_with. now rewrite !append_assoc.
Qed.

Lemma proxy_table_has_typed_hosts_witness :
  Stated.table_has_entry
    (pac_head
     ++ "        1: " ++ JS.dq ++ "SOCKS5 proxy.example.com:8080" ++ JS.dq
     ++ "," ++ JS.nl
     ++ "        2: " ++ JS.dq ++ "PROXY proxy2.example.com:8081" ++ JS.dq
     ++ "," ++ JS.nl
     ++ pac_middle
     ++ "    if (/\.*\.github\.com/.test(host)) return PROXY[2];" ++ JS.nl
     ++ "    if (/a\.youtube\.com/.test(host)) return PROXY[1];" ++ JS.nl
     ++ pac_tail)
    (mkHost (Some 2%Z) 1 "b" "HTTP" "proxy2.example.com" 8081).
Proof.
  apply (proxy_table_has_typed_hosts sample_JSON_parse
           Api.sample_StringToNumber Api.sample_ObjectToNumber
           sample_ObjectToString sample_FractionToString sample_hosts
           sample_rules _
           (mkHost (Some 2%Z) 1 "b" "HTTP" "proxy2.example.com" 8081)).
  - vm_compute. reflexivity.
  - simpl. right. left. reflexivity.
  - right. left. reflexivity.
Defined.

(** *** The script as the engine reads it *)
Section Reading.
Import ScriptEngine.

Lemma scan_app (a b : string) (st : mode * list token) :
  scan st (a ++ b)
  = match scan st a with
    | Some st' => scan st' b
    | None => None
    end.
Proof.
  revert st. induction a as [|c a IH]; intros st; [reflexivity|].
  cbn [append scan]. destruct (step st c); [apply IH | reflexivity].
Qed.

Lemma all_chars_app (f : ascii -> bool) (a b : string) :
  Describe.all_chars f (a ++ b)
  = Describe.all_chars f a && Describe.all_chars f b.
Proof.
  induction a as [|c a IH]; [reflexivity|].
  cbn [append Describe.all_chars]. now rewrite IH, andb_assoc.
Qed.

Lemma all_chars_impl (f g : ascii -> bool) (s : string) :
  (forall c, f c = true -> g c = true) ->
  Describe.all_chars f s = true -> Describe.all_chars g s = true.
Proof.
  intros Hfg. induction s as [|c s IH]; [reflexivity|].
  cbn [Describe.all_chars]. rewrite !andb_true_iff. intros [Hc Hs].
  split; [now apply Hfg | now apply IH].
Qed.

(** The body of a string literal. *)
Lemma scan_string (body rest acc : string) (tokens : list token) :
  Describe.all_chars Describe.string_char body = true ->
  scan (in_string acc, tokens) (body ++ rest)
  = scan (in_string (acc ++ body), tokens) rest.
Proof.
  revert acc. induction body as [|c body IH]; intros acc Hb.
  - now rewrite append_nil_r.
  - cbn [Describe.all_chars] in Hb. apply andb_true_iff in Hb.
    destruct Hb as [Hc Hb]. cbn [append scan step].
    unfold Describe.string_char in Hc. apply negb_true_iff in Hc.
    apply orb_false_iff in Hc. destruct Hc as [Hc Hlt].
    apply orb_false_iff in Hc. destruct Hc as [Hq Hbs].
    rewrite Hq, Hbs, Hlt. cbn [orb]. rewrite (IH _ Hb).
    unfold snoc. now rewrite append_assoc.
Qed.

(** The digits of a numeral. *)
Lemma string_of_uint_digits (u : Decimal.uint) :
  Describe.all_chars is_digit (NilEmpty.string_of_uint u) = true.
Proof. induction u; cbn; auto. Qed.

Lemma to_int_normal (z : Z) : Decimal.norm (Z.to_int z) = Z.to_int z.
Proof. now rewrite <- (DecimalZ.to_of (Z.to_int z)), DecimalZ.of_to. Qed.

(** The decimal numeral of an integer that is not negative. *)
Lemma Number_toString_numeral (z : Z) :
  (0 <= z)%Z ->
  exists u,
    Z.to_int z = Decimal.Pos u /\ u <> Decimal.Nil
    /\ JS.Number_toString z = NilEmpty.string_of_uint u
    /\ (forall u', u = Decimal.D0 u' -> u' = Decimal.Nil).
Proof.
  intros Hz. pose proof (to_int_normal z) as Hn.
  destruct z as [|p|p]; [| |lia].
  - exists (Decimal.D0 Decimal.Nil). repeat split; try discriminate.
    intros u' H. now injection H as <-.
  - exists (Pos.to_uint p). cbn [Z.to_int] in *.
    pose proof (DecimalPos.Unsigned.to_uint_nonnil p) as Hnil.
    split; [reflexivity|]. split; [exact Hnil|]. split.
    + unfold JS.Number_toString. cbn [Z.to_int NilZero.string_of_int].
      unfold NilZero.string_of_uint. now destruct (Pos.to_uint p).
    + intros u' E. cbn [Decimal.norm] in Hn. rewrite E in Hn.
      rewrite E in Hnil.
      destruct u'; try reflexivity; exfalso.
      all: injection Hn as Hn; rewrite DecimalFacts.unorm_D0 in Hn.
      all: match type of Hn with
           | Decimal.unorm ?d = _ =>
               assert (Hd : d <> Decimal.Nil) by discriminate;
               pose proof (DecimalFacts.nb_digits_unorm d Hd) as Hle;
               rewrite Hn in Hle; cbn [Decimal.nb_digits] in Hle; lia
           end.
Qed.

Lemma scan_digits (ds rest : string) (c0 : ascii) (acc : string)
      (tokens : list token) :
  Ascii.eqb c0 "0" = false ->
  Describe.all_chars is_digit ds = true ->
  scan (in_numeral (String c0 acc), tokens) (ds ++ rest)
  = scan (in_numeral (String c0 (acc ++ ds)), tokens) rest.
Proof.
  intros H0. revert acc. induction ds as [|c ds IH]; intros acc Hd.
  - now rewrite append_nil_r.
  - cbn [Describe.all_chars] in Hd. apply andb_true_iff in Hd.
    destruct Hd as [Hc Hd]. cbn [append scan step]. rewrite Hc.
    cbn [String.eqb]. rewrite H0. unfold snoc. cbn [append].
    rewrite (IH _ Hd). now rewrite append_assoc.
Qed.

Lemma start_digit (c : ascii) (tokens : list token) :
  is_digit c = true ->
  start tokens c = Some (in_numeral (String c ""), tokens).
Proof.
  destruct c as [[] [] [] [] [] [] [] []]; intros H;
    try discriminate H; reflexivity.
Qed.

(** The numeral of an integer that is not negative is read whole. *)
Lemma scan_numeral (z : Z) (rest : string) (tokens : list token) :
  (0 <= z)%Z ->
  scan (between, tokens) (JS.Number_toString z ++ rest)
  = scan (in_numeral (JS.Number_toString z), tokens) rest.
Proof.
  intros Hz. destruct (Number_toString_numeral z Hz)
    as [u [_ [Hnil [-> Hzero]]]].
  pose proof (string_of_uint_digits u) as Hd.
  destruct u as [|u|u|u|u|u|u|u|u|u|u]; [congruence| | | | | | | | | |];
    cbn [NilEmpty.string_of_uint Describe.all_chars] in *;
    apply andb_true_iff in Hd; destruct Hd as [Hc Hd];
    cbn [append scan step]; rewrite (start_digit _ tokens Hc).
  1: rewrite (Hzero u eq_refl); reflexivity.
  all: rewrite (scan_digits (NilEmpty.string_of_uint u) rest _ "" tokens);
    [reflexivity | reflexivity | exact Hd].
Qed.

(** As a key, the numeral of an integer stands for its own text. *)
Lemma numeral_key_Number_toString (z : Z) :
  (0 <= z)%Z -> numeral_key (JS.Number_toString z) = JS.Number_toString z.
Proof.
  intros Hz. destruct (Number_toString_numeral z Hz)
    as [u [Hu [Hnil [Hs _]]]].
  unfold numeral_key, numeral_value. f_equal.
  assert (E : JS.Number_toString z = NilZero.string_of_uint u).
  { unfold JS.Number_toString. now rewrite Hu. }
  rewrite E, (NilZero.usu u Hnil).
  change (Z.of_uint u) with (Z.of_int (Decimal.Pos u)).
  rewrite <- Hu. apply DecimalZ.of_to.
Qed.

Lemma digit_string_char (c : ascii) :
  is_digit c = true -> Describe.string_char c = true.
Proof.
  destruct c as [[] [] [] [] [] [] [] []]; intros H;
    try discriminate H; reflexivity.
Qed.

Lemma hostname_string_char (c : ascii) :
  Describe.hostname_char c || Ascii.eqb c ":" = true ->
  Describe.string_char c = true.
Proof.
  destruct c as [[] [] [] [] [] [] [] []]; intros H;
    try discriminate H; reflexivity.
Qed.

Lemma Number_toString_string_chars (z : Z) :
  Describe.all_chars Describe.string_char (JS.Number_toString z) = true.
Proof.
  assert (H : forall u,
             Describe.all_chars Describe.string_char
               (NilZero.string_of_uint u) = true).
  { intros u. unfold NilZero.string_of_uint.
    destruct u; try reflexivity;
      apply (all_chars_impl is_digit _ _ digit_string_char);
      apply string_of_uint_digits. }
  unfold JS.Number_toString, NilZero.string_of_int.
  destruct (Z.to_int z); [apply H|].
  cbn [Describe.all_chars]. now rewrite H.
Qed.

Lemma keyword_string_chars (t k : string) :
  Describe.keyword t = Some k ->
  Describe.all_chars Describe.string_char k = true.
Proof.
  intros H. destruct (keyword_cases t)
    as [[_ E] | [[_ E] | [[_ E] | [_ [_ [_ E]]]]]];
    rewrite E in H; try discriminate; injection H as <-; reflexivity.
Qed.

(** The translation of one character of a pattern. *)
Lemma regex_source_cons (a : ascii) (pattern : string) :
  regex_source (String a pattern)
  = regex_source (String a "") ++ regex_source pattern.
Proof.
  rewrite !regex_source_per_character. cbn [Describe.per_character].
  now rewrite append_nil_r.
Qed.

Lemma scan_regex_piece (a : ascii) (rest acc : string) (q : bool)
      (tokens : list token) :
  Describe.hostname_char a || Ascii.eqb a "*" = true ->
  scan (in_regex acc q, tokens) (regex_source (String a "") ++ rest)
  = scan (in_regex (acc ++ regex_source (String a ""))
                   (negb (Ascii.eqb a "*")),
          tokens)
         rest.
Proof.
  destruct a as [[] [] [] [] [] [] [] []]; intros H;
    try discriminate H; cbn; unfold snoc; now rewrite ?append_assoc.
Qed.

(** The body of a regular-expression literal. *)
Lemma scan_regex (pattern acc : string) (q : bool) (tokens : list token) :
  Describe.all_chars (fun c => Describe.hostname_char c || Ascii.eqb c "*")
                     pattern
  = true ->
  exists q',
    forall rest,
      scan (in_regex acc q, tokens) (regex_source pattern ++ rest)
      = scan (in_regex (acc ++ regex_source pattern) q', tokens) rest.
Proof.
  revert acc q. induction pattern as [|a pattern IH]; intros acc q Hp.
  - exists q. intros rest. cbn. now rewrite append_nil_r.
  - cbn [Describe.all_chars] in Hp. apply andb_true_iff in Hp.
    destruct Hp as [Ha Hp].
    destruct (IH (acc ++ regex_source (String a ""))
                 (negb (Ascii.eqb a "*")) Hp) as [q' Hq'].
    exists q'. intros rest. rewrite regex_source_cons, append_assoc.
    rewrite (scan_regex_piece a _ acc q tokens Ha), Hq'.
    now rewrite append_assoc.
Qed.

Lemma scan_regex_first (a : ascii) (rest : string) (tokens : list token) :
  Describe.hostname_char a || Ascii.eqb a "*" = true ->
  scan (after_slash, punctuator "(" :: tokens)
       (regex_source (String a "") ++ rest)
  = scan (in_regex "" false, punctuator "(" :: tokens)
         (regex_source (String a "") ++ rest).
Proof.
  destruct a as [[] [] [] [] [] [] [] []]; intros H;
    try discriminate H; reflexivity.
Qed.

(** The pieces of the templates. *)
Lemma scan_head (tokens : list token) :
  scan (between, tokens) pac_head
  = Some (between, (List.rev Describe.head_tokens ++ tokens)%list).
Proof. vm_compute. reflexivity. Qed.

Lemma scan_middle (tokens : list token) :
  scan (between, tokens) pac_middle
  = Some (between, (List.rev Describe.middle_tokens ++ tokens)%list).
Proof. vm_compute. reflexivity. Qed.

Lemma scan_tail (tokens : list token) :
  scan (between, tokens) pac_tail
  = Some (between, (List.rev Describe.tail_tokens ++ tokens)%list).
Proof. vm_compute. reflexivity. Qed.

Lemma scan_indent (tokens : list token) (rest : string) :
  scan (between, tokens) ("        " ++ rest) = scan (between, tokens) rest.
Proof. reflexivity. Qed.

Lemma scan_key_numeral (digits : string) (tokens : list token)
      (rest : string) :
  scan (in_numeral digits, tokens) (": " ++ JS.dq ++ rest)
  = scan (in_string "", punctuator ":" :: numeral digits :: tokens) rest.
Proof. reflexivity. Qed.

Lemma scan_key_undefined (tokens : list token) (rest : string) :
  scan (between, tokens) ("undefined" ++ ": " ++ JS.dq ++ rest)
  = scan (in_string "",
          punctuator ":" :: identifier "undefined" :: tokens) rest.
Proof. reflexivity. Qed.

Lemma scan_entry_end (value : string) (tokens : list token) (rest : string) :
  scan (in_string value, tokens) (JS.dq ++ "," ++ JS.nl ++ rest)
  = scan (between, punctuator "," :: string_literal value :: tokens) rest.
Proof. reflexivity. Qed.

Lemma scan_if (tokens : list token) (rest : string) :
  scan (between, tokens) ("    if (/" ++ rest)
  = scan (after_slash, punctuator "(" :: identifier "if" :: tokens) rest.
Proof. reflexivity. Qed.

Lemma scan_test (source : string) (q : bool) (tokens : list token)
      (rest : string) :
  scan (in_regex source q, tokens) ("/.test(host)) return PROXY[" ++ rest)
  = scan (between,
          punctuator "[" :: identifier "PROXY" :: identifier "return"
          :: punctuator ")" :: punctuator ")" :: identifier "host"
          :: punctuator "(" :: identifier "test" :: punctuator "."
          :: regex_literal source :: tokens)
         rest.
Proof. reflexivity. Qed.

Lemma scan_index_end (digits : string) (tokens : list token)
      (rest : string) :
  scan (in_numeral digits, tokens) ("];" ++ JS.nl ++ rest)
  = scan (between, punctuator ";" :: punctuator "]" :: numeral digits
                   :: tokens)
         rest.
Proof. reflexivity. Qed.

(** The entry of a host. *)
Lemma scan_entry (h : Host) (tokens : list token) (rest : string) :
  (forall z, h.(id) = Some z -> (0 <= z)%Z) ->
  Describe.hostname h.(host) = true ->
  scan (between, tokens) (Describe.table_entry h ++ rest)
  = scan (between, (List.rev (Describe.entry_tokens h) ++ tokens)%list) rest.
Proof.
  intros Hid Hhost. unfold Describe.table_entry, Describe.entry_tokens.
  destruct (Describe.keyword h.(type)) as [k|] eqn:Ek; [|reflexivity].
  unfold Describe.entry_with. rewrite !append_assoc, scan_indent.
  assert (Hbody : Describe.all_chars Describe.string_char
                    (k ++ " " ++ h.(host) ++ ":"
                     ++ JS.Number_toString h.(port)) = true).
  { rewrite !all_chars_app, (keyword_string_chars _ _ Ek),
      (Number_toString_string_chars h.(port)),
      (all_chars_impl _ _ _ hostname_string_char Hhost).
    reflexivity. }
  assert (E : forall tokens',
             scan (in_string "", tokens')
                  (k ++ " " ++ h.(host) ++ ":"
                   ++ JS.Number_toString h.(port) ++ JS.dq ++ ","
                   ++ JS.nl ++ rest)
             = scan (between,
                     punctuator ","
                     :: string_literal
                          (k ++ " " ++ h.(host) ++ ":"
                           ++ JS.Number_toString h.(port))
                     :: tokens')
                    rest).
  { intros tokens'.
    rewrite <- (scan_entry_end _ tokens' rest).
    rewrite <- (scan_string _ _ "" tokens' Hbody).
    now rewrite !append_assoc. }
  destruct h.(id) as [z|] eqn:Ez; cbn [id_text Describe.key_token].
  - rewrite (scan_numeral z _ tokens (Hid z eq_refl)), scan_key_numeral.
    rewrite E. reflexivity.
  - rewrite scan_key_undefined, E. reflexivity.
Qed.

Lemma scan_entries (hosts : list Host) (tokens : list token)
      (rest : string) :
  Forall
    (fun h =>
       (forall z, h.(id) = Some z -> (0 <= z)%Z)
       /\ Describe.hostname h.(host) = true)
    hosts ->
  scan (between, tokens)
       (String.concat "" (List.map Describe.table_entry hosts) ++ rest)
  = scan (between,
          (List.rev (List.flat_map Describe.entry_tokens hosts)
             ++ tokens)%list)
         rest.
Proof.
  intros Hall. revert tokens.
  induction Hall as [|h hosts [Hid Hhost] _ IH]; intros tokens.
  - reflexivity.
  - cbn [List.map List.flat_map]. rewrite concat_cons, append_assoc.
    rewrite (scan_entry h tokens _ Hid Hhost), IH.
    now rewrite rev_app_distr, <- app_assoc.
Qed.

(** The conditional of a rule. *)
Lemma scan_conditional (pattern : string) (first : option Z)
      (tokens : list token) (rest : string) :
  Describe.hostname_pattern pattern = true ->
  (forall i, first = Some i -> (0 <= i)%Z) ->
  scan (between, tokens) (Describe.conditional_on pattern first ++ rest)
  = scan (between,
          (List.rev (Describe.conditional_tokens pattern first)
             ++ tokens)%list)
         rest.
Proof.
  intros Hp Hi. destruct first as [i|]; [|reflexivity].
  unfold Describe.conditional_on, Describe.conditional_tokens.
  rewrite !append_assoc, scan_if.
  unfold Describe.hostname_pattern in Hp. apply andb_true_iff in Hp.
  destruct Hp as [Hne Hp]. destruct pattern as [|a pattern]; [discriminate|].
  pose proof Hp as Hp'. cbn [Describe.all_chars] in Hp'.
  apply andb_true_iff in Hp'. destruct Hp' as [Ha _].
  rewrite (regex_source_cons a pattern), append_assoc.
  rewrite (scan_regex_first a _ _ Ha), <- append_assoc.
  rewrite <- (regex_source_cons a pattern).
  destruct (scan_regex (String a pattern) "" false
              (punctuator "(" :: identifier "if" :: tokens) Hp)
    as [q' ->].
  change ("" ++ regex_source (String a pattern))
    with (regex_source (String a pattern)).
  rewrite scan_test, (scan_numeral i _ _ (Hi i eq_refl)), scan_index_end.
  reflexivity.
Qed.

Lemma scan_conditionals (ids_of : RuleRow -> list Z) (rules : list RuleRow)
      (tokens : list token) (rest : string) :
  Forall
    (fun r =>
       Describe.hostname_pattern r.(pattern) = true
       /\ (forall i, List.hd_error (ids_of r) = Some i -> (0 <= i)%Z))
    rules ->
  scan (between, tokens)
       (String.concat ""
          (List.map
             (fun r =>
                Describe.conditional_on r.(pattern)
                  (List.hd_error (ids_of r)))
             rules)
        ++ rest)
  = scan (between,
          (List.rev
             (List.flat_map
                (fun r =>
                   Describe.conditional_tokens r.(pattern)
                     (List.hd_error (ids_of r)))
                rules)
             ++ tokens)%list)
         rest.
Proof.
  intros Hall. revert tokens.
  induction Hall as [|r rules [Hp Hi] _ IH]; intros tokens.
  - reflexivity.
  - cbn [List.map List.flat_map]. rewrite concat_cons, append_assoc.
    rewrite (scan_conditional _ _ tokens _ Hp Hi), IH.
    now rewrite rev_app_distr, <- app_assoc.
Qed.

(** The tokens of the script. *)
Lemma tokens_of_script (ids_of : RuleRow -> list Z) (hosts : list Host)
      (rules : list RuleRow) :
  Describe.in_data_model ids_of hosts rules ->
  tokens_of
    (pac_head
     ++ String.concat "" (List.map Describe.table_entry hosts)
     ++ pac_middle
     ++ String.concat ""
          (List.map
             (fun r =>
                Describe.conditional_on r.(pattern)
                  (List.hd_error (ids_of r)))
             rules)
     ++ pac_tail)
  = Some
      (Describe.head_tokens
         ++ List.flat_map Describe.entry_tokens hosts
         ++ Describe.middle_tokens
         ++ List.flat_map
              (fun r =>
                 Describe.conditional_tokens r.(pattern)
                   (List.hd_error (ids_of r)))
              rules
         ++ Describe.tail_tokens)%list.
Proof.
  intros [Hhosts Hrules]. unfold tokens_of.
  rewrite scan_app, scan_head, (scan_entries hosts _ _ Hhosts).
  rewrite scan_app, scan_middle.
  rewrite (scan_conditionals ids_of rules _ _ Hrules), scan_tail.
  cbn [finish]. f_equal.
  rewrite app_nil_r, !rev_app_distr, !rev_involutive.
  now rewrite <- !app_assoc.
Qed.

(** The properties of the table. *)
Lemma parse_table (hosts : list Host) (rest : list token) :
  Forall (fun h => forall z, h.(id) = Some z -> (0 <= z)%Z) hosts ->
  parse_properties
    (List.flat_map Describe.entry_tokens hosts ++ punctuator "}" :: rest)%list
  = Some (Describe.table hosts, rest).
Proof.
  induction 1 as [|h hosts Hid _ IH]; [reflexivity|].
  cbn [List.flat_map Describe.table].
  unfold Describe.entry_tokens at 1.
  destruct (Describe.keyword h.(type)) as [k|]; [|exact IH].
  rewrite <- app_assoc.
  destruct h.(id) as [z|] eqn:Ez;
    cbn [Describe.key_token app parse_properties property_key id_text
         Ascii.eqb Bool.eqb];
    rewrite IH; [|reflexivity].
  now rewrite (numeral_key_Number_toString z (Hid z eq_refl)).
Qed.

Lemma parse_if (fuel : nat) (source digits : string) (rest : list token) :
  parse_statements (S fuel)
    (identifier "if" :: punctuator "(" :: regex_literal source
     :: punctuator "." :: identifier "test" :: punctuator "("
     :: identifier "host" :: punctuator ")" :: punctuator ")"
     :: identifier "return" :: identifier "PROXY" :: punctuator "["
     :: numeral digits :: punctuator "]" :: punctuator ";" :: rest)
  = match parse_statements fuel rest with
    | Some (ss, rest) =>
        Some (if_return (regex_test source "host") (index "PROXY" digits)
              :: ss, rest)
    | None => None
    end.
Proof. reflexivity. Qed.

Lemma parse_tail (fuel : nat) (rest : list token) :
  parse_statements (S (S fuel)) (Describe.tail_tokens ++ rest)%list
  = Some ([return_ (variable "DEFAULT")], rest).
Proof. reflexivity. Qed.

Lemma parse_var_DEFAULT (fuel : nat) (rest : list token) :
  parse_statements (S fuel)
    (identifier "var" :: identifier "DEFAULT" :: punctuator "="
     :: string_literal "DIRECT" :: punctuator ";" :: rest)
  = match parse_statements fuel rest with
    | Some (ss, rest) =>
        Some (var_ "DEFAULT" (string_value "DIRECT") :: ss, rest)
    | None => None
    end.
Proof. reflexivity. Qed.

Lemma parse_var_PROXY (fuel : nat) (properties : list (string * string))
      (tokens rest : list token) :
  parse_properties tokens = Some (properties, punctuator ";" :: rest) ->
  parse_statements (S fuel)
    (identifier "var" :: identifier "PROXY" :: punctuator "="
     :: punctuator "{" :: tokens)
  = match parse_statements fuel rest with
    | Some (ss, rest) =>
        Some (var_ "PROXY" (object_literal properties) :: ss, rest)
    | None => None
    end.
Proof.
  intros H.
  change (parse_statements (S fuel)
            (identifier "var" :: identifier "PROXY" :: punctuator "="
             :: punctuator "{" :: tokens))
    with (match
             match
               match parse_properties tokens with
               | Some (ps, rest) => Some (object_literal ps, rest)
               | None => None
               end
             with
             | Some (e, punctuator c :: rest) =>
                 if Ascii.eqb c ";" then Some (e, rest) else None
             | _ => None
             end
           with
           | Some (init, rest) =>
               match parse_statements fuel rest with
               | Some (ss, rest) => Some (var_ "PROXY" init :: ss, rest)
               | None => None
               end
           | None => None
           end).
  rewrite H. reflexivity.
Qed.

Lemma parse_function_head (rest : list token) :
  parse_function
    (identifier "function" :: identifier "FindProxyForURL"
     :: punctuator "(" :: identifier "url" :: punctuator ","
     :: identifier "host" :: punctuator ")" :: punctuator "{" :: rest)
  = match parse_statements (List.length rest) rest with
    | Some (ss, []) => Some (mkFunction "FindProxyForURL" ("url", "host") ss)
    | _ => None
    end.
Proof. reflexivity. Qed.

(** The conditionals and the closing. *)
Lemma parse_conditionals (ids_of : RuleRow -> list Z) (rules : list RuleRow)
      (fuel : nat) :
  List.length
    (List.flat_map
       (fun r =>
          Describe.conditional_tokens r.(pattern) (List.hd_error (ids_of r)))
       rules)
  + 2 <= fuel ->
  parse_statements fuel
    (List.flat_map
       (fun r =>
          Describe.conditional_tokens r.(pattern) (List.hd_error (ids_of r)))
       rules
     ++ Describe.tail_tokens)%list
  = Some
      ((List.flat_map
          (fun r =>
             Describe.conditional_statements r.(pattern)
               (List.hd_error (ids_of r)))
          rules
        ++ [return_ (variable "DEFAULT")])%list,
       []).
Proof.
  revert fuel. induction rules as [|r rules IH]; intros fuel Hfuel.
  - cbn [List.flat_map List.length] in *.
    destruct fuel as [|[|fuel]]; [lia | lia |].
    rewrite <- (app_nil_r Describe.tail_tokens). apply parse_tail.
  - cbn [List.flat_map] in *.
    destruct (List.hd_error (ids_of r)) as [i|];
      cbn [Describe.conditional_tokens Describe.conditional_statements app]
        in *; [|now apply IH].
    cbn [List.length] in Hfuel.
    destruct fuel as [|fuel]; [lia|].
    rewrite parse_if, IH; [reflexivity | lia].
Qed.

(** The function the script declares. *)
Lemma parse_script (ids_of : RuleRow -> list Z) (hosts : list Host)
      (rules : list RuleRow) :
  Forall (fun h => forall z, h.(id) = Some z -> (0 <= z)%Z) hosts ->
  parse_function
    (Describe.head_tokens
       ++ List.flat_map Describe.entry_tokens hosts
       ++ Describe.middle_tokens
       ++ List.flat_map
            (fun r =>
               Describe.conditional_tokens r.(pattern)
                 (List.hd_error (ids_of r)))
            rules
       ++ Describe.tail_tokens)%list
  = Some
      (mkFunction "FindProxyForURL" ("url", "host")
         (var_ "DEFAULT" (string_value "DIRECT")
          :: var_ "PROXY" (object_literal (Describe.table hosts))
          :: List.flat_map
               (fun r =>
                  Describe.conditional_statements r.(pattern)
                    (List.hd_error (ids_of r)))
               rules
          ++ [return_ (variable "DEFAULT")])%list).
Proof.
  intros Hhosts.
  set (conditionals :=
         List.flat_map
           (fun r =>
              Describe.conditional_tokens r.(pattern)
                (List.hd_error (ids_of r)))
           rules).
  set (entries := List.flat_map Describe.entry_tokens hosts).
  cbn [Describe.head_tokens Describe.middle_tokens app].
  rewrite parse_function_head. cbn [List.length].
  rewrite parse_var_DEFAULT.
  rewrite (parse_var_PROXY _ (Describe.table hosts) _
             (conditionals ++ Describe.tail_tokens)%list
             (parse_table hosts _ Hhosts)).
  unfold conditionals. rewrite (parse_conditionals ids_of rules).
  - reflexivity.
  - fold conditionals.
    rewrite ?length_app; cbn [List.length]; rewrite ?length_app;
      cbn [Describe.tail_tokens List.length]; lia.
Qed.

(** Running the conditionals and the closing, once [DEFAULT] and
    [PROXY] have their values. *)
Lemma run_conditionals (RegExp_test : string -> string -> bool)
      (ids_of : RuleRow -> list Z) (hosts : list Host)
      (rules : list RuleRow) (url host : string) :
  Forall
    (fun r => forall i, List.hd_error (ids_of r) = Some i -> (0 <= i)%Z)
    rules ->
  run RegExp_test
      (List.flat_map
         (fun r =>
            Describe.conditional_statements r.(pattern)
              (List.hd_error (ids_of r)))
         rules
       ++ [return_ (variable "DEFAULT")])%list
      [ ("PROXY", an_object (Describe.table hosts));
        ("DEFAULT", a_string "DIRECT");
        ("host", a_string host); ("url", a_string url);
        ("DEFAULT", undefined); ("PROXY", undefined) ]
  = returned
      match List.find (Describe.fires RegExp_test ids_of host) rules with
      | None => a_string "DIRECT"
      | Some r =>
          match ids_of r with
          | i :: _ => Describe.PROXY_at hosts i
          | [] => undefined
          end
      end.
Proof.
  induction 1 as [|r rules Hi _ IH]; [reflexivity|].
  cbn [List.flat_map List.find]. unfold Describe.fires at 1.
  destruct (ids_of r) as [|i others] eqn:Eids;
    cbn [List.hd_error Describe.conditional_statements app] in *;
    [exact IH|].
  cbn [run].
  change (eval RegExp_test _
            (regex_test (regex_source r.(pattern)) "host"))
    with (returned
            (a_boolean (RegExp_test (regex_source r.(pattern)) host))).
  cbn [truthy].
  destruct (RegExp_test (regex_source r.(pattern)) host); [|exact IH].
  change (eval RegExp_test _ (index "PROXY" (JS.Number_toString i)))
    with (returned
            match property (numeral_key (JS.Number_toString i))
                           (Describe.table hosts) with
            | Some s => a_string s
            | None => undefined
            end).
  cbv iota. rewrite Eids. unfold Describe.PROXY_at.
  now rewrite (numeral_key_Number_toString i (Hi i eq_refl)).
Qed.

Lemma declared_conditionals (ids_of : RuleRow -> list Z)
      (rules : list RuleRow) :
  declared
    (List.flat_map
       (fun r =>
          Describe.conditional_statements r.(pattern)
            (List.hd_error (ids_of r)))
       rules
     ++ [return_ (variable "DEFAULT")])%list
  = [].
Proof.
  induction rules as [|r rules IH]; [reflexivity|].
  cbn [List.flat_map].
  destruct (List.hd_error (ids_of r));
    cbn [Describe.conditional_statements app declared]; exact IH.
Qed.

(** The call of the function the script declares. *)
Lemma FindProxyForURL_script (RegExp_test : string -> string -> bool)
      (ids_of : RuleRow -> list Z) (hosts : list Host)
      (rules : list RuleRow) (url host : string) :
  Describe.in_data_model ids_of hosts rules ->
  FindProxyForURL RegExp_test
    (pac_head
     ++ String.concat "" (List.map Describe.table_entry hosts)
     ++ pac_middle
     ++ String.concat ""
          (List.map
             (fun r =>
                Describe.conditional_on r.(pattern)
                  (List.hd_error (ids_of r)))
             rules)
     ++ pac_tail)
    url host
  = returned
      match List.find (Describe.fires RegExp_test ids_of host) rules with
      | None => a_string "DIRECT"
      | Some r =>
          match ids_of r with
          | i :: _ => Describe.PROXY_at hosts i
          | [] => undefined
          end
      end.
Proof.
  intros Hmodel. unfold FindProxyForURL.
  rewrite (tokens_of_script ids_of hosts rules Hmodel).
  destruct Hmodel as [Hhosts Hrules].
  rewrite (parse_script ids_of hosts rules).
  - cbn [function_name].
    change (String.eqb "FindProxyForURL" "FindProxyForURL") with true.
    cbv iota. unfold call. cbn [body parameters fst snd declared].
    rewrite declared_conditionals. cbn [app run].
    change (eval RegExp_test _ (string_value "DIRECT"))
      with (returned (a_string "DIRECT")).
    cbv iota.
    change (eval RegExp_test _ (object_literal (Describe.table hosts)))
      with (returned (an_object (Describe.table hosts))).
    cbv iota.
    apply run_conditionals.
    eapply Forall_impl; [|exact Hrules]. intros r [_ H]. exact H.
  - eapply Forall_impl; [|exact Hhosts]. intros h [H _]. exact H.
Qed.

End Reading.

(** *** The conditionals of the rules *)
Section Conditionals.
Variable JSON_parse : string -> option Api.json.
Variable StringToNumber : string -> Api.number.
Variable ObjectToNumber : Api.json -> option Api.number.
Variable ObjectToString : Api.json -> option string.
Variable FractionToString : Qc -> string.
Variable RegExp_test : string -> string -> bool.

Lemma number_text_of_Z (z : Z) :
  number_text FractionToString (Api.of_Z z) = JS.Number_toString z.
Proof.
  unfold number_text, Api.of_Z, Q2Qc; cbn [this].
  assert (E1 : Qden (Qred (inject_Z z)) = 1%positive)
    by now rewrite Qred_inject_Z.
  assert (E2 : Qnum (Qred (inject_Z z)) = z) by now rewrite Qred_inject_Z.
  now rewrite E1, E2.
Qed.

(** The conditional of a row that holds an array of integers. *)
Lemma conditional_of_ids (r : RuleRow) (ids : list Z) :
  Describe.holds_ids JSON_parse r ids ->
  Describe.conditional JSON_parse StringToNumber ObjectToNumber
    ObjectToString FractionToString r
  = Describe.conditional_on r.(pattern) (List.hd_error ids)
  /\ ~ Describe.throws JSON_parse StringToNumber ObjectToNumber
         ObjectToString FractionToString r.
Proof.
  unfold Describe.holds_ids, Describe.conditional, Describe.throws.
  intros ->. destruct ids as [|i ids];
    cbn [List.map length_gt_0 List.length Nat.ltb Nat.leb index_0
         template_text List.hd_error Describe.conditional_on];
    [tauto|].
  rewrite number_text_of_Z. split; [reflexivity | discriminate].
Qed.

(** C8. When every row holds an array of integers (what the rule
    routes write), the handler answers with a script: the opening, the
    table, one conditional for each rule that has ids, in the order of
    the rules, and the closing.  The conditional of a rule is written
    from its pattern and its first id alone, and a rule without ids
    has none.  On configurations of the data model (host names and
    patterns of the characters of host names, ids that are not
    negative) the engine reads this script as a function that answers
    [DIRECT] when the regular expression of no conditional matches the
    host, and else the entry of the table under the first id of the
    first rule whose conditional matches, whatever the ids after the
    first are. *)
Theorem conditional_uses_first_id (hosts : list Host) (rules : list RuleRow)
        (ids_of : RuleRow -> list Z) :
  Forall (fun r => Describe.holds_ids JSON_parse r (ids_of r)) rules ->
  exists script,
    pac JSON_parse StringToNumber ObjectToNumber ObjectToString
      FractionToString hosts rules
    = Some script
    /\ script
       = pac_head
         ++ String.concat "" (List.map Describe.table_entry hosts)
         ++ pac_middle
         ++ String.concat ""
              (List.map
                 (fun r =>
                    Describe.conditional_on r.(pattern)
                      (List.hd_error (ids_of r)))
                 rules)
         ++ pac_tail
    /\ (Describe.in_data_model ids_of hosts rules ->
        forall url host,
          (List.find (Describe.fires RegExp_test ids_of host) rules = None ->
           ScriptEngine.FindProxyForURL RegExp_test script url host
           = ScriptEngine.returned (ScriptEngine.a_string "DIRECT"))
          /\ (forall r i others,
                 List.find (Describe.fires RegExp_test ids_of host) rules
                 = Some r ->
                 ids_of r = i :: others ->
                 ScriptEngine.FindProxyForURL RegExp_test script url host
                 = ScriptEngine.returned (Describe.PROXY_at hosts i))).
Proof.
  intros Hids.
  assert (Hcond :
            List.map
              (Describe.conditional JSON_parse StringToNumber ObjectToNumber
                 ObjectToString FractionToString)
              rules
            = List.map
                (fun r =>
                   Describe.conditional_on r.(pattern)
                     (List.hd_error (ids_of r)))
                rules).
  { apply map_ext_in. intros r Hr. rewrite Forall_forall in Hids.
    apply (conditional_of_ids r (ids_of r) (Hids r Hr)). }
  destruct (pac_defined JSON_parse StringToNumber ObjectToNumber
              ObjectToString FractionToString hosts rules)
    as [script Hpac].
  { eapply Forall_impl; [|exact Hids]. intros r Hr.
    apply (conditional_of_ids r (ids_of r) Hr). }
  exists script. split; [exact Hpac|].
  apply pac_text in Hpac. rewrite Hcond in Hpac.
  split; [exact Hpac|].
  intros Hmodel url host. subst script.
  rewrite (FindProxyForURL_script RegExp_test ids_of hosts rules url host
             Hmodel).
  split.
  - intros ->. reflexivity.
  - intros r i others -> ->. reflexivity.
Qed.

End Conditionals.

Lemma conditional_uses_first_id_witness :
  exists script,
    sample_pac sample_hosts sample_rules = Some script
    /\ ScriptEngine.FindProxyForURL sample_RegExp_test script
         "http://example.net/" "example.net"
       = ScriptEngine.returned (ScriptEngine.a_string "DIRECT")
    /\ ScriptEngine.FindProxyForURL sample_RegExp_test script
         "http://a.youtube.com/" "a.youtube.com"
       = ScriptEngine.returned
           (ScriptEngine.a_string "SOCKS5 proxy.example.com:8080").
Proof.
  assert (Hids : Forall
                   (fun r =>
                      Describe.holds_ids sample_JSON_parse r
                        (sample_ids_of r))
                   sample_rules)
    by (repeat constructor).
  assert (Hmodel : Describe.in_data_model sample_ids_of sample_hosts
                     sample_rules).
  { split.
    - repeat (apply Forall_cons;
              [split; [intros z H; injection H as <-; lia | reflexivity]|]).
      apply Forall_nil.
    - repeat (apply Forall_cons;
              [split;
               [reflexivity
               | intros i H; vm_compute in H; try discriminate H;
                 injection H as <-; lia]|]).
      apply Forall_nil. }
  destruct (conditional_uses_first_id sample_JSON_parse
              Api.sample_StringToNumber Api.sample_ObjectToNumber
              sample_ObjectToString sample_FractionToString
              sample_RegExp_test sample_hosts sample_rules sample_ids_of
              Hids)
    as [script [Hpac [_ Hrun]]].
  exists script. split; [exact Hpac|]. split.
  - apply (proj1 (Hrun Hmodel "http://example.net/" "example.net")).
    reflexivity.
  - exact (proj2 (Hrun Hmodel "http://a.youtube.com/" "a.youtube.com")
             (mkRuleRow "a.youtube.com" "[1]") 1%Z [] eq_refl eq_refl).
Defined.



(** A directive of the resolver for a host whose stored type is the
    empty string does not carry that type: it carries [PROXY]. *)
Lemma directive_empty_type_not_verbatim :
  Utils.type Utils.empty_type_host = Some ""
  /\ Utils.directive Utils.empty_type_host = "PROXY proxy.example.com:8080"
  /\ Utils.directive Utils.empty_type_host
     <> Stated.verbatim_directive "" Utils.empty_type_host.
Proof.
  split; [reflexivity|]. split; [reflexivity|]. vm_compute. discriminate.
Qed.

(** C10 (amended). The pre-expanded script writes [SOCKS5] for a host
    of type [SOCKS], [PROXY] for a host of type [HTTP] and [HTTPS] for
    a host of type [HTTPS], so that of the types it writes an entry for
    only [HTTPS] is kept as it is; the resolver writes the stored type
    as it is whenever the record has one that is not the empty string,
    and [PROXY] when the type is absent or empty. *)
Theorem directive_keywords :
  (forall pacContent i u n ho p,
      host_step pacContent (mkHost i u n "SOCKS" ho p)
      = pacContent ++ "        " ++ id_text i ++ ": " ++ JS.dq ++ "SOCKS5 "
        ++ ho ++ ":" ++ JS.Number_toString p ++ JS.dq ++ "," ++ JS.nl)
  /\ (forall pacContent i u n ho p,
         host_step pacContent (mkHost i u n "HTTP" ho p)
         = pacContent ++ "        " ++ id_text i ++ ": " ++ JS.dq ++ "PROXY "
           ++ ho ++ ":" ++ JS.Number_toString p ++ JS.dq ++ "," ++ JS.nl)
  /\ (forall pacContent i u n ho p,
         host_step pacContent (mkHost i u n "HTTPS" ho p)
         = pacContent ++ "        " ++ id_text i ++ ": " ++ JS.dq ++ "HTTPS "
           ++ ho ++ ":" ++ JS.Number_toString p ++ JS.dq ++ "," ++ JS.nl)
  /\ (forall pacContent h,
         host_step pacContent h
         = pacContent
           ++ match Describe.keyword h.(type) with
              | Some k => Describe.entry_with k h
              | None => ""
              end)
  /\ (forall t, Describe.keyword t = Some t <-> t = "HTTPS")
  /\ (forall i n ho p c t,
         Utils.directive (Utils.mkHost i n ho p (Some (String c t)))
         = String c t ++ " " ++ ho ++ ":" ++ JS.Number_toString p)
  /\ (forall i n ho p,
         Utils.directive (Utils.mkHost i n ho p (Some ""))
         = "PROXY " ++ ho ++ ":" ++ JS.Number_toString p)
  /\ (forall i n ho p,
         Utils.directive (Utils.mkHost i n ho p None)
         = "PROXY " ++ ho ++ ":" ++ JS.Number_toString p).
Proof.
  split; [reflexivity|]. split; [reflexivity|]. split; [reflexivity|].
  split; [exact host_step_entry|]. split; [|repeat split].
  intros t. split.
  - intros H.
    destruct (keyword_cases t)
      as [[-> E] | [[-> E] | [[-> E] | [_ [_ [_ E]]]]]];
      rewrite E in H; try discriminate. reflexivity.
  - intros ->. reflexivity.
Qed.

(** The same proxy under the two generators. *)
Example SOCKS_host_under_both :
  host_step "" (mkHost (Some 1%Z) 1 "a" "SOCKS" "proxy.example.com" 8080)
  = "        1: " ++ JS.dq ++ "SOCKS5 proxy.example.com:8080" ++ JS.dq
    ++ "," ++ JS.nl
  /\ Utils.directive
       (Utils.mkHost 1 None "proxy.example.com" 8080 (Some "SOCKS"))
     = "SOCKS proxy.example.com:8080".
Proof. split; reflexivity. Qed.

End StaticClaims.

(** * Further properties of the code *)

(** ** The matcher and the resolver at their edges *)
Section ResolverEdges.
Import Utils.

(** X1. Every text matches itself as a pattern, also when it begins
    with the wildcard prefix; the bare wildcard prefix matches every
    host; and a wildcard pattern matches no host shorter than its
    suffix. *)
Theorem hostMatch_edges :
  (forall h, hostMatch h h = true)
  /\ (forall h, hostMatch h "*." = true)
  /\ (forall h suffix,
         String.length h < String.length suffix ->
         hostMatch h ("*." ++ suffix) = false).
Proof.
  split; [|split].
  - intros h. destruct (JS.startsWith h "*.") eqn:E.
    + apply startsWith_spec in E. destruct E as [suffix ->].
      apply hostMatch_wildcard. now exists "*.".
    + apply hostMatch_plain; [|reflexivity].
      intros H. apply startsWith_spec in H. congruence.
  - intros h. apply (hostMatch_wildcard h "").
    exists h. now rewrite append_nil_r.
  - intros h suffix Hlen.
    destruct (hostMatch h ("*." ++ suffix)) eqn:E; [|reflexivity].
    apply hostMatch_wildcard in E. destruct E as [pre ->].
    rewrite length_append in Hlen. lia.
Qed.

Lemma hostMatch_edges_witness :
  hostMatch "com" ("*." ++ "example.com") = false.
Proof.
  apply (proj2 (proj2 hostMatch_edges) "com" "example.com").
  simpl. lia.
Defined.

Lemma hostsOfIds_repeat (hs : list Host) (h : Host) (n : nat) :
  List.find (fun item => Z.eqb item.(id) h.(id)) hs = Some h ->
  hostsOfIds hs (List.repeat h.(id) n) = List.repeat h n.
Proof.
  intros Hf. induction n as [|n IH]; [reflexivity|].
  cbn [List.repeat]. rewrite hostsOfIds_cons, Hf. now rewrite IH.
Qed.

(** X2. When several hosts carry the same id, the first of them stands
    for the id and the later ones are never used; and a rule that
    lists an id several times resolves to that host as many times. *)
Theorem first_host_with_id_wins (before : list Host) (h : Host)
        (after : list Host) (n : nat) :
  (forall x, In x before -> x.(id) <> h.(id)) ->
  hostsOfIds (before ++ h :: after) (List.repeat h.(id) n)
  = List.repeat h n.
Proof.
  intros Hb. apply hostsOfIds_repeat.
  induction before as [|x before IH]; simpl.
  - now rewrite Z.eqb_refl.
  - destruct (Z.eqb_spec x.(id) h.(id)) as [E|_].
    + exfalso. apply (Hb x); [now left | exact E].
    + apply IH. intros y Hy. apply Hb. now right.
Qed.

Lemma first_host_with_id_wins_witness :
  hostsOfIds
    ([mkHost 2 None "b.example" 81 None]
       ++ mkHost 1 None "a.example" 80 None
       :: [mkHost 1 None "c.example" 82 None])
    (List.repeat 1%Z 2)
  = List.repeat (mkHost 1 None "a.example" 80 None) 2.
Proof.
  apply (first_host_with_id_wins
           [mkHost 2 None "b.example" 81 None]
           (mkHost 1 None "a.example" 80 None)
           [mkHost 1 None "c.example" 82 None] 2).
  simpl. intros x [<- | []]. simpl. lia.
Defined.

Lemma count_app (c : ascii) (a b : string) :
  Builtins.count c (a ++ b) = Builtins.count c a + Builtins.count c b.
Proof.
  induction a as [|x a IH]; simpl; [reflexivity|]. rewrite IH. lia.
Qed.

(** X3. The result of [findProxyForURL] always ends with [DIRECT], and
    it is [DIRECT] alone exactly when no host was resolved (no rule
    matches, the matching rule has no ids, or none of its ids has a
    host). *)
Theorem findProxyForURL_fallback (hostConfig : HostConfig)
        (url host : string) :
  JS.is_suffix "DIRECT" (findProxyForURL hostConfig url host)
  /\ (findProxyForURL hostConfig url host = "DIRECT"
      <-> resolveHostsByRule hostConfig host = []).
Proof.
  rewrite findProxyForURL_shape. split.
  - eexists. reflexivity.
  - destruct (resolveHostsByRule hostConfig host) as [|h rest].
    + split; reflexivity.
    + split; [|discriminate]. intros H. exfalso.
      apply (f_equal (Builtins.count ";")) in H.
      cbn [List.map] in H. rewrite concat_cons in H.
      rewrite !count_app in H. simpl in H. lia.
Qed.

End ResolverEdges.

(** ** Types and ids on their way to and from the store *)
Section Normalization.
Import Api DataAccess.

Section WithWhiteSpace.
Variable WhiteSpace : ascii -> bool.

Lemma trimStart_blank (s : string) :
  Builtins.trimStart WhiteSpace s = "" <-> Builtins.blank WhiteSpace s = true.
Proof.
  induction s as [|c s IH]; simpl; [tauto|].
  destruct (WhiteSpace c); simpl; [exact IH|].
  split; discriminate.
Qed.

Lemma trimEnd_blank (s : string) :
  Builtins.trimEnd WhiteSpace s = "" <-> Builtins.blank WhiteSpace s = true.
Proof.
  induction s as [|c s IH]; simpl; [tauto|].
  destruct (Builtins.trimEnd WhiteSpace s) as [|a t].
  - destruct (WhiteSpace c); simpl.
    + split; [intros _; now apply IH | reflexivity].
    + split; discriminate.
  - split; [discriminate|]. intros H. apply andb_true_iff in H.
    destruct H as [_ H]. apply IH in H. discriminate.
Qed.

Lemma trimStart_not_blank (s : string) :
  Builtins.blank WhiteSpace s = false ->
  Builtins.blank WhiteSpace (Builtins.trimStart WhiteSpace s) = false.
Proof.
  induction s as [|c s IH]; simpl; [discriminate|].
  destruct (WhiteSpace c) eqn:E; simpl; [exact IH|].
  intros _. now rewrite E.
Qed.

(** Trimming leaves nothing exactly of the texts made of white space. *)
Lemma trim_blank (s : string) :
  Builtins.trim WhiteSpace s = "" <-> Builtins.blank WhiteSpace s = true.
Proof.
  unfold Builtins.trim. rewrite trimEnd_blank. split.
  - intros H. destruct (Builtins.blank WhiteSpace s) eqn:E; [reflexivity|].
    apply trimStart_not_blank in E. congruence.
  - intros H. apply trimStart_blank in H. now rewrite H.
Qed.

Lemma sanitizeProxyType_Some (t : string) :
  sanitizeProxyType WhiteSpace (Some t)
  = if Builtins.blank WhiteSpace t then "PROXY" else t.
Proof.
  unfold sanitizeProxyType, DEFAULT_PROXY_TYPE.
  destruct (Builtins.blank WhiteSpace t) eqn:E.
  - apply trim_blank in E. rewrite E. simpl. now rewrite andb_false_r.
  - destruct (String.eqb_spec t "") as [->|Hne]; [discriminate E|].
    destruct (Builtins.trim WhiteSpace t) eqn:Et.
    + apply trim_blank in Et. congruence.
    + reflexivity.
Qed.

Lemma sanitizeProxyType_not_empty (type : option string) :
  sanitizeProxyType WhiteSpace type <> "".
Proof.
  destruct type as [t|]; [|discriminate]. rewrite sanitizeProxyType_Some.
  destruct (Builtins.blank WhiteSpace t) eqn:E; [discriminate|].
  intros ->. discriminate E.
Qed.

(** X4. [sanitizeProxyType] keeps a type as it is, surrounding white
    space included, unless the type is absent or made of white space
    only (the empty string included), which it replaces by [PROXY]; so
    whatever white space is, its result is never the empty string. *)
Theorem sanitizeProxyType_spec :
  sanitizeProxyType WhiteSpace None = "PROXY"
  /\ (forall t,
         sanitizeProxyType WhiteSpace (Some t)
         = if Builtins.blank WhiteSpace t then "PROXY" else t)
  /\ (forall type, sanitizeProxyType WhiteSpace type <> "").
Proof.
  split; [reflexivity|].
  split; [exact sanitizeProxyType_Some | exact sanitizeProxyType_not_empty].
Qed.

(** X5. A host read from the store always carries a type that is not
    empty, so the default of the resolver never applies to it: its
    directive is the sanitized type of the row, then the host and the
    port. *)
Theorem normalizeHost_directive (row : HostRow) :
  Utils.type_or_PROXY (normalizeHost WhiteSpace row)
  = sanitizeProxyType WhiteSpace row.(type)
  /\ Utils.directive (normalizeHost WhiteSpace row)
     = sanitizeProxyType WhiteSpace row.(type) ++ " " ++ row.(host) ++ ":"
       ++ JS.Number_toString row.(port).
Proof.
  assert (E : Utils.type_or_PROXY (normalizeHost WhiteSpace row)
              = sanitizeProxyType WhiteSpace row.(type)).
  { unfold Utils.type_or_PROXY, normalizeHost; cbn [Utils.type].
    destruct (sanitizeProxyType WhiteSpace row.(type)) eqn:Es;
      [|reflexivity].
    exfalso. now apply (sanitizeProxyType_not_empty row.(type)). }
  split; [exact E|]. unfold Utils.directive. rewrite E. reflexivity.
Qed.

End WithWhiteSpace.

Example sanitizeProxyType_samples :
  sanitizeProxyType Builtins.Latin1_WhiteSpace (Some "SOCKS5") = "SOCKS5"
  /\ sanitizeProxyType Builtins.Latin1_WhiteSpace (Some "   ") = "PROXY"
  /\ sanitizeProxyType Builtins.Latin1_WhiteSpace (Some " HTTP ") = " HTTP ".
Proof. repeat split. Qed.

Lemma fold_Set_add_NoDup (xs members : list number) :
  NoDup (members ++ xs) ->
  List.fold_left Set_add xs members = (members ++ xs)%list.
Proof.
  revert members. induction xs as [|x xs IH]; intros members Hnd; simpl.
  - now rewrite app_nil_r.
  - assert (Hx : ~ In x members).
    { apply NoDup_remove_2 in Hnd. intros H. apply Hnd.
      apply in_or_app. now left. }
    unfold Set_add at 2.
    destruct (List.existsb (SameValueZero x) members) eqn:E.
    + apply existsb_SameValueZero in E. contradiction.
    + rewrite IH; rewrite <- app_assoc; [reflexivity | exact Hnd].
Qed.

(** A list without duplicates is the list of the members of its set,
    in the same order. *)
Lemma Array_from_Set_NoDup (xs : list number) :
  NoDup xs -> Array_from_Set xs = xs.
Proof. intros H. unfold Array_from_Set. now rewrite fold_Set_add_NoDup. Qed.

Lemma filter_all {A : Type} (p : A -> bool) (xs : list A) :
  (forall x, In x xs -> p x = true) -> List.filter p xs = xs.
Proof.
  induction xs as [|x xs IH]; intros H; simpl; [reflexivity|].
  rewrite (H x (or_introl eq_refl)). f_equal. apply IH.
  intros y Hy. apply H. now right.
Qed.

(** Cleaning a cleaned list changes nothing. *)
Lemma clean_clean (ids : list number) :
  Shape.clean (Shape.clean ids)
  = Shape.clean ids.
Proof.
  unfold Shape.clean.
  match goal with
  | |- context [Array_from_Set (List.filter ?p ids)] =>
      destruct (Array_from_Set_spec (List.filter p ids)) as [Hnd Hin]
  end.
  rewrite filter_all.
  - now apply Array_from_Set_NoDup.
  - intros x Hx. apply Hin in Hx. apply filter_In in Hx. tauto.
Qed.

Section WithJSON.
Variable JSON_parse : string -> option json.
Variable JSON_stringify : json -> string.
Variable StringToNumber : string -> number.
Variable ObjectToNumber : json -> option number.

Lemma map_Number_JNumber (xs : list number) :
  map_Number StringToNumber ObjectToNumber (List.map JNumber xs) = Some xs.
Proof. induction xs as [|x xs IH]; simpl; [reflexivity | now rewrite IH]. Qed.

(** Decoding the text of an array of numbers that [JSON.parse] reads
    back. *)
Lemma parseHostIds_of_numbers (text : string) (xs : list number) :
  text <> "" ->
  JSON_parse text = Some (JArray (List.map JNumber xs)) ->
  parseHostIds JSON_parse StringToNumber ObjectToNumber (Some text)
  = Shape.clean xs.
Proof.
  intros Ht Hp.
  exact (parseHostIds_array JSON_parse StringToNumber ObjectToNumber
           text (List.map JNumber xs) xs Ht Hp (map_Number_JNumber xs)).
Qed.

Lemma decode_encode (ids : list number) :
  Shape.reads_back JSON_parse JSON_stringify (Shape.clean ids) ->
  parseHostIds JSON_parse StringToNumber ObjectToNumber
    (Some (encodeHostIds JSON_stringify ids))
  = Shape.clean ids.
Proof.
  intros [Hne Hrt].
  change (encodeHostIds JSON_stringify ids)
    with (JSON_stringify (JArray (List.map JNumber (Shape.clean ids)))).
  rewrite (parseHostIds_of_numbers _ _ Hne Hrt). apply clean_clean.
Qed.

(** A list of distinct positive integers is its own cleaned form. *)
Lemma clean_fixed (xs : list number) :
  NoDup xs ->
  Forall (fun n => exists z : Z, (0 < z)%Z /\ n = of_Z z) xs ->
  Shape.clean xs = xs.
Proof.
  intros Hnd Hpos. unfold Shape.clean. rewrite filter_all.
  - now apply Array_from_Set_NoDup.
  - intros x Hx. rewrite Forall_forall in Hpos.
    destruct (Hpos x Hx) as [z [Hz ->]].
    destruct (positive_integers_pass_filter z Hz) as [H1 H2].
    now rewrite H1, H2.
Qed.

(** X6. What [encodeHostIds] writes decodes to the cleaned list: the
    positive integers of [ids], each once, in the order of their first
    occurrences, provided that [JSON.parse] reads back the array that
    [JSON.stringify] wrote (and that text is not empty). *)
Theorem parseHostIds_encodeHostIds (ids : list number) :
  Shape.reads_back JSON_parse JSON_stringify (Shape.clean ids) ->
  parseHostIds JSON_parse StringToNumber ObjectToNumber
    (Some (encodeHostIds JSON_stringify ids))
  = Shape.clean ids.
Proof. apply decode_encode. Qed.

(** X7. [encodeHostIds] writes a decoded list back as it is: what
    [parseHostIds] returns has nothing left to filter or to merge. *)
Theorem encodeHostIds_parseHostIds (ids : option string) :
  encodeHostIds JSON_stringify
    (parseHostIds JSON_parse StringToNumber ObjectToNumber ids)
  = JSON_stringify
      (JArray
         (List.map JNumber
            (parseHostIds JSON_parse StringToNumber ObjectToNumber ids))).
Proof.
  unfold encodeHostIds. do 3 f_equal.
  destruct (parseHostIds_clean JSON_parse StringToNumber ObjectToNumber ids)
    as [Hnd Hpos].
  rewrite filter_all.
  - now apply Array_from_Set_NoDup.
  - intros x Hx. rewrite Forall_forall in Hpos.
    destruct (Hpos x Hx) as [z [Hz ->]].
    destruct (positive_integers_pass_filter z Hz) as [H1 H2].
    now rewrite H1, H2.
Qed.

End WithJSON.

Lemma parseHostIds_encodeHostIds_witness :
  parseHostIds Shape.sample_JSON_parse Shape.sample_StringToNumber
    Shape.sample_ObjectToNumber
    (Some (encodeHostIds Shape.sample_JSON_stringify
             [of_Z 1; of_Z 2; of_Z (-4); of_Z 2; NaN; of_Z 1; of_Z 3]))
  = Shape.clean [of_Z 1; of_Z 2; of_Z (-4); of_Z 2; NaN; of_Z 1; of_Z 3].
Proof.
  apply (parseHostIds_encodeHostIds Shape.sample_JSON_parse
           Shape.sample_JSON_stringify Shape.sample_StringToNumber
           Shape.sample_ObjectToNumber).
  split; [vm_compute; discriminate | vm_compute; reflexivity].
Defined.

End Normalization.

(** ** The user routes *)
Section UserRouteFacts.
Import UserRoutes.

Lemma replace_unfold (p by_ s : string) :
  Builtins.replace p by_ s
  = if JS.startsWith s p then by_ ++ JS.slice (String.length p) s
    else match s with
         | EmptyString => EmptyString
         | String c t => String c (Builtins.replace p by_ t)
         end.
Proof. destruct s; reflexivity. Qed.

(** The first occurrence at the beginning. *)
Lemma replace_prefix (p by_ t : string) :
  Builtins.replace p by_ (p ++ t) = by_ ++ t.
Proof.
  rewrite replace_unfold.
  replace (JS.startsWith (p ++ t) p) with true
    by (symmetry; apply startsWith_spec; now exists t).
  now rewrite slice_append.
Qed.

(** Without an occurrence nothing is replaced. *)
Lemma replace_absent (p by_ s : string) :
  ~ JS.occurs_in p s -> Builtins.replace p by_ s = s.
Proof.
  induction s as [|c s IH]; intros Hn; rewrite replace_unfold.
  - destruct (JS.startsWith "" p) eqn:E; [|reflexivity].
    exfalso. apply Hn. apply startsWith_spec in E.
    destruct E as [rest E]. now exists "", rest.
  - destruct (JS.startsWith (String c s) p) eqn:E.
    + exfalso. apply Hn. apply startsWith_spec in E.
      destruct E as [rest E]. now exists "", rest.
    + f_equal. apply IH. intros [pre [post H]]. apply Hn.
      exists (String c pre), post. simpl. now rewrite H.
Qed.

(** X8. The token of a request: without an [Authorization] header it is
    the [token] parameter of the query; a header [Bearer t] gives [t],
    and falls back to the query parameter when [t] is empty; and a
    header in which [Bearer ] does not occur is taken whole as the
    token (the query parameter is used only when the header is
    empty). *)
Theorem token_of_request_cases :
  (forall query, token_of_request None query = query)
  /\ (forall t query,
         token_of_request (Some ("Bearer " ++ t)) query
         = match t with
           | EmptyString => query
           | _ => Some t
           end)
  /\ (forall header query,
         ~ JS.occurs_in "Bearer " header ->
         token_of_request (Some header) query
         = match header with
           | EmptyString => query
           | _ => Some header
           end).
Proof.
  split; [reflexivity|]. split.
  - intros t query. unfold token_of_request.
    rewrite (replace_prefix "Bearer " "" t). now destruct t.
  - intros header query Hn. unfold token_of_request.
    rewrite (replace_absent "Bearer " "" header Hn). now destruct header.
Qed.

Lemma token_of_request_cases_witness :
  token_of_request (Some "Basic dXNlcg==") (Some "from-query")
  = Some "Basic dXNlcg==".
Proof.
  apply (proj2 (proj2 token_of_request_cases)
           "Basic dXNlcg==" (Some "from-query")).
  intros H. apply includes_spec in H. vm_compute in H. discriminate.
Defined.

(** The scheme is replaced wherever it first occurs, not only at the
    beginning of the header. *)
Example token_of_request_inner_scheme :
  token_of_request (Some "xBearer y") None = Some "xy".
Proof. reflexivity. Qed.

(** X9. For a request that gives a name or a token (or both), the
    statement [updateUser] builds begins with [UPDATE users SET ], ends
    with [ WHERE id = ?] with no comma left before it, and has as many
    placeholders as there are bound values, the id of the user being
    the last of them. *)
Theorem update_statement_placeholders (name token : option string)
        (currentUser_id : Z) :
  Shape.truthy name = true \/ Shape.truthy token = true ->
  Builtins.count "?" (fst (update_statement name token currentUser_id))
  = List.length (snd (update_statement name token currentUser_id))
  /\ JS.is_prefix "UPDATE users SET "
       (fst (update_statement name token currentUser_id))
  /\ JS.is_suffix "? WHERE id = ?"
       (fst (update_statement name token currentUser_id))
  /\ List.last (snd (update_statement name token currentUser_id))
       (bound_text "")
     = bound_id currentUser_id.
Proof.
  intros H.
  destruct name as [[|c n]|], token as [[|c' t]|];
    simpl in H; try (destruct H; discriminate);
    (split; [reflexivity|]); (split; [now apply startsWith_spec|]);
    (split; [now apply endsWith_spec | reflexivity]).
Qed.

Lemma update_statement_placeholders_witness :
  Builtins.count "?" (fst (update_statement (Some "ann") None 7))
  = List.length (snd (update_statement (Some "ann") None 7))
  /\ JS.is_prefix "UPDATE users SET "
       (fst (update_statement (Some "ann") None 7))
  /\ JS.is_suffix "? WHERE id = ?"
       (fst (update_statement (Some "ann") None 7))
  /\ List.last (snd (update_statement (Some "ann") None 7)) (bound_text "")
     = bound_id 7.
Proof.
  apply (update_statement_placeholders (Some "ann") None 7).
  left. reflexivity.
Defined.

Example update_statement_both :
  update_statement (Some "ann") (Some "s3cret") 7
  = ("UPDATE users SET name = ?, token = ? WHERE id = ?",
     [bound_text "ann"; bound_text "s3cret"; bound_id 7]).
Proof. reflexivity. Qed.

End UserRouteFacts.

(** ** The pre-expanded script: one bad row *)
Section StaticFailure.
Import StaticPac.
Variable JSON_parse : string -> option Api.json.
Variable StringToNumber : string -> Api.number.
Variable ObjectToNumber : Api.json -> option Api.number.
Variable ObjectToString : Api.json -> option string.
Variable FractionToString : Qc -> string.

(** X10. The route has no script to answer with exactly when some rule
    row throws: its [host_ids] text does not parse, or is [null], or is
    an array whose first entry has no text, or is an object whose
    [length] cannot be compared or whose member [0] has no text.  One
    such row fails the whole request, whatever the hosts and the other
    rules are; a text that parses to a boolean, a number, a string, an
    empty array or an object without [length] does not. *)
Theorem pac_fails_on_bad_row (hosts : list Host) (rules : list RuleRow) :
  pac JSON_parse StringToNumber ObjectToNumber ObjectToString
    FractionToString hosts rules
  = None
  <-> Exists
        (Describe.throws JSON_parse StringToNumber ObjectToNumber
           ObjectToString FractionToString)
        rules.
Proof.
  unfold pac; cbv zeta.
  rewrite <- (forEach_rule_fails JSON_parse StringToNumber ObjectToNumber
                ObjectToString FractionToString rules
                (List.fold_left host_step hosts pac_head ++ pac_middle)).
  destruct (forEach_rule JSON_parse StringToNumber ObjectToNumber
              ObjectToString FractionToString _ rules); split;
    congruence || discriminate.
Qed.

End StaticFailure.

(** A row that holds [null] fails the request; a row that holds a
    number adds nothing; a row that holds a string adds a conditional
    on its first character. *)
Example pac_on_other_values :
  StaticPac.sample_pac StaticPac.sample_hosts
    [StaticPac.mkRuleRow "a.example.com" "[1]";
     StaticPac.mkRuleRow "b.example.com" "null"]
  = None
  /\ StaticPac.sample_pac [] [StaticPac.mkRuleRow "b.example.com" "5"]
     = Some (StaticPac.pac_head ++ StaticPac.pac_middle
             ++ StaticPac.pac_tail)
  /\ StaticPac.sample_pac []
       [StaticPac.mkRuleRow "b.example.com" (JS.dq ++ "21" ++ JS.dq)]
     = Some (StaticPac.pac_head ++ StaticPac.pac_middle
             ++ "    if (/b\.example\.com/.test(host)) return PROXY[2];"
             ++ JS.nl ++ StaticPac.pac_tail).
Proof. repeat split; vm_compute; reflexivity. Qed.


(** ** The data-access layer on the in-memory database *)
Section OnMemory.
Import Api DataAccess Db MemoryDb.

Variable WhiteSpace : ascii -> bool.
Variable JSON_parse : string -> option json.
Variable JSON_stringify : json -> string.
Variable StringToNumber : string -> number.
Variable ObjectToNumber : json -> option number.

(** *** What each call does to the database *)

Lemma listHosts_memory (db : MemoryDatabase) :
  listHosts WhiteSpace db
  = Ok (List.map (normalizeHost WhiteSpace) (sort_by_id db.(hosts)), db).
Proof. reflexivity. Qed.

Lemma listRules_memory (db : MemoryDatabase) :
  listRules JSON_parse StringToNumber ObjectToNumber db
  = Ok (List.map
          (fun r =>
             (r.(stored_rule),
              parseHostIds JSON_parse StringToNumber ObjectToNumber
                (Some r.(stored_host_ids))))
          db.(rules), db).
Proof.
  unfold listRules, bind, ret; cbn.
  now rewrite map_map.
Qed.

Lemma delRule_memory (ruleName : string) (db : MemoryDatabase) :
  delRule ruleName db
  = Ok (tt,
        mkMemoryDatabase db.(hosts)
          (List.filter
             (fun item => negb (String.eqb item.(stored_rule) ruleName))
             db.(rules))
          db.(hostAutoIncrement)).
Proof. reflexivity. Qed.

Lemma addOrUpdateRule_memory (ruleName : string) (hostIds : list number)
      (db : MemoryDatabase) :
  addOrUpdateRule JSON_stringify (ruleName, hostIds) db
  = Ok (tt,
        mkMemoryDatabase db.(hosts)
          match List.find
                  (fun item => String.eqb item.(stored_rule) ruleName)
                  db.(rules) with
          | Some _ =>
              change_first
                (fun item => String.eqb item.(stored_rule) ruleName)
                (fun target =>
                   mkStoredRule target.(stored_rule)
                     (encodeHostIds JSON_stringify hostIds))
                db.(rules)
          | None =>
              (db.(rules)
                 ++ [mkStoredRule ruleName
                       (encodeHostIds JSON_stringify hostIds)])%list
          end
          db.(hostAutoIncrement)).
Proof. reflexivity. Qed.

(** *** Listing the hosts *)

Lemma insert_by_id_Permutation (x : HostRow) (rows : list HostRow) :
  Permutation (insert_by_id x rows) (x :: rows).
Proof.
  induction rows as [|y rows IH]; simpl; [reflexivity|].
  destruct (Z.leb x.(id) y.(id)); [reflexivity|].
  rewrite IH. apply perm_swap.
Qed.

Lemma sort_by_id_Permutation (rows : list HostRow) :
  Permutation (sort_by_id rows) rows.
Proof.
  induction rows as [|x rows IH]; simpl; [reflexivity|].
  rewrite insert_by_id_Permutation. now constructor.
Qed.

Lemma insert_by_id_Sorted (x : HostRow) (rows : list HostRow) :
  StronglySorted (fun a b => (a.(id) <= b.(id))%Z) rows ->
  StronglySorted (fun a b => (a.(id) <= b.(id))%Z) (insert_by_id x rows).
Proof.
  induction 1 as [|y rows Hs IH Hy]; simpl.
  - repeat constructor.
  - destruct (Z.leb_spec x.(id) y.(id)) as [Hle|Hgt].
    + constructor; [now constructor|].
      constructor; [exact Hle|].
      eapply Forall_impl; [|exact Hy]. intros a Ha. simpl in Ha. lia.
    + constructor; [exact IH|].
      eapply Permutation_Forall;
        [symmetry; apply insert_by_id_Permutation|].
      constructor; [lia | exact Hy].
Qed.

Lemma sort_by_id_Sorted (rows : list HostRow) :
  StronglySorted (fun a b => (a.(id) <= b.(id))%Z) (sort_by_id rows).
Proof.
  induction rows as [|x rows IH]; simpl; [constructor|].
  now apply insert_by_id_Sorted.
Qed.

(** X11. [listHosts] answers with every stored host exactly once, in
    ascending order of the ids, each with a type that is not empty,
    and leaves the database as it was. *)
Theorem listHosts_sorted_and_complete (db : MemoryDatabase) :
  exists listed,
    listHosts WhiteSpace db = Ok (listed, db)
    /\ Permutation listed (List.map (normalizeHost WhiteSpace) db.(hosts))
    /\ StronglySorted (fun a b => (a.(Utils.id) <= b.(Utils.id))%Z) listed
    /\ Forall (fun h => exists t, h.(Utils.type) = Some t /\ t <> "") listed.
Proof.
  exists (List.map (normalizeHost WhiteSpace) (sort_by_id db.(hosts))).
  split; [apply listHosts_memory|]. split; [|split].
  - apply Permutation_map, sort_by_id_Permutation.
  - pose proof (sort_by_id_Sorted db.(hosts)) as Hs.
    induction Hs as [|x rows Hs IH Hx]; simpl; constructor.
    + exact IH.
    + rewrite Forall_map. exact Hx.
  - rewrite Forall_map. apply Forall_forall. intros row _.
    exists (sanitizeProxyType WhiteSpace row.(type)).
    split; [reflexivity | apply sanitizeProxyType_not_empty].
Qed.

(** *** Storing a host *)

Lemma addOrUpdateHost_insert_memory (host : HostInput) (db : MemoryDatabase) :
  host.(input_id) = None \/ host.(input_id) = Some 0%Z ->
  addOrUpdateHost WhiteSpace host db
  = Ok (Z.max (db.(hostAutoIncrement) + 1) 1,
        mkMemoryDatabase
          (db.(hosts)
             ++ [mkHostRow (Z.max (db.(hostAutoIncrement) + 1) 1)
                   host.(input_name) host.(input_host) host.(input_port)
                   (Some (sanitizeProxyType WhiteSpace host.(input_type)))])
          db.(rules)
          (Z.max (db.(hostAutoIncrement) + 1) 1)).
Proof.
  intros [H | H]; unfold addOrUpdateHost; rewrite H;
    destruct host.(input_name); reflexivity.
Qed.

Lemma addOrUpdateHost_update_memory (host : HostInput) (i : Z)
      (db : MemoryDatabase) :
  host.(input_id) = Some i -> i <> 0%Z ->
  addOrUpdateHost WhiteSpace host db
  = Ok (i,
        mkMemoryDatabase
          (change_first
             (fun item => Z.eqb item.(id) i)
             (fun target =>
                mkHostRow target.(id) host.(input_name) host.(input_host)
                  host.(input_port)
                  (Some (sanitizeProxyType WhiteSpace host.(input_type))))
             db.(hosts))
          db.(rules) db.(hostAutoIncrement)).
Proof.
  intros H Hi. unfold addOrUpdateHost; rewrite H.
  destruct i; [congruence | |]; destruct host.(input_name); reflexivity.
Qed.

(** X12. A host given without an id, or with the id 0, is inserted: it
    is stored last, under the id one above the counter (and at least
    1), which becomes the counter, with its type sanitized; the rules
    are left alone.  When no stored id is above the counter, the new
    id is positive and differs from every stored id. *)
Theorem addOrUpdateHost_inserts (host : HostInput) (db : MemoryDatabase) :
  host.(input_id) = None \/ host.(input_id) = Some 0%Z ->
  addOrUpdateHost WhiteSpace host db
  = Ok (Z.max (db.(hostAutoIncrement) + 1) 1,
        mkMemoryDatabase
          (db.(hosts)
             ++ [mkHostRow (Z.max (db.(hostAutoIncrement) + 1) 1)
                   host.(input_name) host.(input_host) host.(input_port)
                   (Some (sanitizeProxyType WhiteSpace host.(input_type)))])
          db.(rules)
          (Z.max (db.(hostAutoIncrement) + 1) 1))
  /\ (0 < Z.max (db.(hostAutoIncrement) + 1) 1)%Z
  /\ (Forall (fun r => (r.(id) <= db.(hostAutoIncrement))%Z) db.(hosts) ->
      Forall (fun r => r.(id) <> Z.max (db.(hostAutoIncrement) + 1) 1)
             db.(hosts)).
Proof.
  intros H. split; [now apply addOrUpdateHost_insert_memory|].
  split; [lia|]. intros Hb. eapply Forall_impl; [|exact Hb].
  intros r Hr. simpl in Hr. lia.
Qed.

Lemma change_first_map {A B : Type} (p : A -> bool) (f : A -> A)
      (g : A -> B) (xs : list A) :
  (forall x, g (f x) = g x) ->
  List.map g (change_first p f xs) = List.map g xs.
Proof.
  intros Hg. induction xs as [|x xs IH]; simpl; [reflexivity|].
  destruct (p x); simpl; [now rewrite Hg | now rewrite IH].
Qed.

Lemma change_first_none {A : Type} (p : A -> bool) (f : A -> A)
      (xs : list A) :
  (forall x, In x xs -> p x = false) -> change_first p f xs = xs.
Proof.
  induction xs as [|x xs IH]; intros H; simpl; [reflexivity|].
  rewrite (H x (or_introl eq_refl)). f_equal. apply IH.
  intros y Hy. apply H. now right.
Qed.

Lemma change_first_at {A : Type} (p : A -> bool) (f : A -> A)
      (before : list A) (x : A) (after : list A) :
  (forall y, In y before -> p y = false) -> p x = true ->
  change_first p f (before ++ x :: after) = (before ++ f x :: after)%list.
Proof.
  intros Hb Hx. induction before as [|y before IH]; simpl.
  - now rewrite Hx.
  - rewrite (Hb y (or_introl eq_refl)). f_equal. apply IH.
    intros z Hz. apply Hb. now right.
Qed.

(** X13. A host given with an id other than 0 is an update, and the id
    is the answer whether a host has it or not: when no stored host
    has the id, nothing is stored and nothing changes; otherwise the
    first host with the id takes the new name, host, port and
    sanitized type and keeps its id and its place.  The other hosts,
    the rules and the counter stay as they are. *)
Theorem addOrUpdateHost_updates (host : HostInput) (i : Z)
        (db : MemoryDatabase) :
  host.(input_id) = Some i -> i <> 0%Z ->
  exists db',
    addOrUpdateHost WhiteSpace host db = Ok (i, db')
    /\ db'.(rules) = db.(rules)
    /\ db'.(hostAutoIncrement) = db.(hostAutoIncrement)
    /\ List.map id db'.(hosts) = List.map id db.(hosts)
    /\ ((forall r, In r db.(hosts) -> r.(id) <> i) -> db'.(hosts) = db.(hosts))
    /\ (forall before r after,
           db.(hosts) = (before ++ r :: after)%list ->
           (forall x, In x before -> x.(id) <> i) ->
           r.(id) = i ->
           db'.(hosts)
           = (before
                ++ mkHostRow i host.(input_name) host.(input_host)
                     host.(input_port)
                     (Some (sanitizeProxyType WhiteSpace host.(input_type)))
                :: after)%list).
Proof.
  intros H Hi. eexists. split; [now apply addOrUpdateHost_update_memory|].
  cbn [hosts rules hostAutoIncrement].
  split; [reflexivity|]. split; [reflexivity|]. split; [|split].
  - now apply change_first_map.
  - intros Hn. apply change_first_none. intros x Hx.
    apply Z.eqb_neq. now apply Hn.
  - intros before r after -> Hb Hr. rewrite change_first_at.
    + now rewrite Hr.
    + intros y Hy. apply Z.eqb_neq. now apply Hb.
    + now apply Z.eqb_eq.
Qed.

(** *** Rules *)

Lemma decoded_listed (db : MemoryDatabase) :
  listRules JSON_parse StringToNumber ObjectToNumber db
  = Ok (List.map (Shape.decoded JSON_parse StringToNumber ObjectToNumber)
                 db.(rules), db).
Proof. apply listRules_memory. Qed.

Lemma filter_map_commute {A B : Type} (f : A -> B) (p : B -> bool)
      (xs : list A) :
  List.filter p (List.map f xs)
  = List.map f (List.filter (fun x => p (f x)) xs).
Proof.
  induction xs as [|x xs IH]; simpl; [reflexivity|].
  destruct (p (f x)); simpl; now rewrite IH.
Qed.

(** X14. [delRule] removes the rules of the given name and nothing
    else: afterwards [listRules] answers with the rules it answered
    with before, in the same order, without those of that name; the
    hosts and the counter stay as they are. *)
Theorem delRule_removes (ruleName : string) (db : MemoryDatabase) :
  exists db',
    delRule ruleName db = Ok (tt, db')
    /\ db'.(hosts) = db.(hosts)
    /\ db'.(hostAutoIncrement) = db.(hostAutoIncrement)
    /\ forall listed,
         listRules JSON_parse StringToNumber ObjectToNumber db
         = Ok (listed, db) ->
         listRules JSON_parse StringToNumber ObjectToNumber db'
         = Ok (List.filter (fun r => negb (String.eqb (fst r) ruleName))
                           listed, db').
Proof.
  eexists. split; [apply delRule_memory|].
  split; [reflexivity|]. split; [reflexivity|].
  intros listed Hl. rewrite decoded_listed in Hl. injection Hl as <-.
  rewrite decoded_listed. cbn [rules]. f_equal. f_equal.
  now rewrite filter_map_commute.
Qed.

Lemma find_none_iff {A : Type} (p : A -> bool) (xs : list A) :
  List.find p xs = None <-> forall x, In x xs -> p x = false.
Proof.
  split; [apply find_none|].
  induction xs as [|x xs IH]; intros H; simpl; [reflexivity|].
  rewrite (H x (or_introl eq_refl)). apply IH.
  intros y Hy. apply H. now right.
Qed.

Lemma change_first_In {A : Type} (p : A -> bool) (f : A -> A)
      (xs : list A) (x : A) :
  List.find p xs = Some x -> In (f x) (change_first p f xs).
Proof.
  induction xs as [|y xs IH]; simpl; [discriminate|].
  destruct (p y) eqn:E.
  - intros H. injection H as ->. now left.
  - intros H. right. now apply IH.
Qed.

Lemma change_first_keeps {A : Type} (p : A -> bool) (f : A -> A)
      (xs : list A) (y : A) :
  In y xs -> p y = false -> In y (change_first p f xs).
Proof.
  induction xs as [|x xs IH]; simpl; [tauto|].
  intros [-> | Hy] Hp.
  - rewrite Hp. now left.
  - destruct (p x); [now right | right; now apply IH].
Qed.

(** X15. [addOrUpdateRule] stores the encoded ids under the name of the
    rule: a rule of that name keeps its place and takes the new ids,
    and a new name goes last, so that the names are those there were,
    in their order, with the new one after them if it is new (names
    that were distinct stay distinct).  The other rules, the hosts and
    the counter stay as they are. *)
Theorem addOrUpdateRule_upserts (ruleName : string) (hostIds : list number)
        (db : MemoryDatabase) :
  exists db',
    addOrUpdateRule JSON_stringify (ruleName, hostIds) db = Ok (tt, db')
    /\ db'.(hosts) = db.(hosts)
    /\ db'.(hostAutoIncrement) = db.(hostAutoIncrement)
    /\ List.map stored_rule db'.(rules)
       = (if List.existsb (String.eqb ruleName)
               (List.map stored_rule db.(rules))
          then List.map stored_rule db.(rules)
          else List.map stored_rule db.(rules) ++ [ruleName])%list
    /\ In (mkStoredRule ruleName (encodeHostIds JSON_stringify hostIds))
          db'.(rules)
    /\ (forall r, In r db.(rules) -> r.(stored_rule) <> ruleName ->
                  In r db'.(rules)).
Proof.
  eexists. split; [apply addOrUpdateRule_memory|].
  cbn [hosts rules hostAutoIncrement].
  split; [reflexivity|]. split; [reflexivity|].
  destruct (List.find (fun item => String.eqb item.(stored_rule) ruleName)
                      db.(rules)) as [r0|] eqn:Ef.
  - assert (Hex : List.existsb (String.eqb ruleName)
                    (List.map stored_rule db.(rules)) = true).
    { apply find_some in Ef. destruct Ef as [Hin Heq].
      apply existsb_exists. exists r0.(stored_rule).
      split; [now apply in_map|]. apply String.eqb_eq in Heq.
      rewrite Heq. apply String.eqb_refl. }
    rewrite Hex. split; [|split].
    + now apply change_first_map.
    + pose proof (change_first_In _
        (fun target => mkStoredRule target.(stored_rule)
                         (encodeHostIds JSON_stringify hostIds)) _ _ Ef)
        as Hin.
      apply find_some in Ef. destruct Ef as [_ Heq].
      apply String.eqb_eq in Heq. cbv beta in Hin. now rewrite Heq in Hin.
    + intros r Hr Hne. apply change_first_keeps; [exact Hr|].
      now apply String.eqb_neq.
  - assert (Hex : List.existsb (String.eqb ruleName)
                    (List.map stored_rule db.(rules)) = false).
    { destruct (List.existsb _ _) eqn:E; [|reflexivity].
      apply existsb_exists in E. destruct E as [n [Hn Heq]].
      apply in_map_iff in Hn. destruct Hn as [r [<- Hr]].
      pose proof (proj1 (find_none_iff _ _) Ef r Hr) as Hf.
      simpl in Hf. apply String.eqb_eq in Heq.
      rewrite <- Heq, String.eqb_refl in Hf. discriminate. }
    rewrite Hex. split; [|split].
    + now rewrite map_app.
    + apply in_or_app. right. now left.
    + intros r Hr _. apply in_or_app. now left.
Qed.

(** *** Deleting a host *)

Lemma run_update_rule (text ruleName : string) (db : MemoryDatabase) :
  memory_run
    (mkStatement "UPDATE rules SET host_ids = ? WHERE rule = ?"
       [v_string text; v_string ruleName]) db
  = Ok (done
          (Some match List.find
                        (fun item => String.eqb item.(stored_rule) ruleName)
                        db.(rules) with
                | Some _ => 1%Z
                | None => 0%Z
                end) None,
        mkMemoryDatabase db.(hosts)
          (change_first
             (fun item => String.eqb item.(stored_rule) ruleName)
             (fun target => mkStoredRule target.(stored_rule) text)
             db.(rules))
          db.(hostAutoIncrement)).
Proof. reflexivity. Qed.

Lemma delHost_update_decoded (id : Z) (r : StoredRule) :
  delHost_update JSON_stringify id
    (Shape.decoded JSON_parse StringToNumber ObjectToNumber r)
  = if Nat.eqb
         (List.length
            (Shape.other_ids id
               (parseHostIds JSON_parse StringToNumber ObjectToNumber
                  (Some r.(stored_host_ids)))))
         (List.length
            (parseHostIds JSON_parse StringToNumber ObjectToNumber
               (Some r.(stored_host_ids))))
    then None
    else Some (mkStatement "UPDATE rules SET host_ids = ? WHERE rule = ?"
                 [ v_string
                     (encodeHostIds JSON_stringify
                        (Shape.other_ids id
                           (parseHostIds JSON_parse StringToNumber
                              ObjectToNumber (Some r.(stored_host_ids)))));
                   v_string r.(stored_rule) ]).
Proof. reflexivity. Qed.

(** The statements of the batch, run on rules with distinct names,
    change each rule that lists the host and no other. *)
Lemma batch_of_updates (id : Z) (hs : list HostRow) (auto : Z)
      (rest done_ : list StoredRule) :
  NoDup (List.map stored_rule (done_ ++ rest)) ->
  exists results,
    memory_batch
      (filter_Boolean
         (List.map (delHost_update JSON_stringify id)
            (List.map
               (Shape.decoded JSON_parse StringToNumber ObjectToNumber)
               rest)))
      (mkMemoryDatabase hs (done_ ++ rest) auto)
    = Ok (results,
          mkMemoryDatabase hs
            (done_
               ++ List.map
                    (Shape.without_host JSON_parse JSON_stringify
                       StringToNumber ObjectToNumber id)
                    rest)
            auto).
Proof.
  revert done_. induction rest as [|r rest IH]; intros done_ Hnd.
  - exists []. reflexivity.
  - cbn [List.map]. rewrite delHost_update_decoded.
    unfold Shape.without_host at 1.
    destruct (Nat.eqb _ _).
    + cbn [filter_Boolean].
      destruct (IH (done_ ++ [r])%list) as [results Hr].
      { now rewrite <- app_assoc. }
      exists results. rewrite <- !app_assoc in Hr. exact Hr.
    + cbn [filter_Boolean memory_batch]. unfold bind at 1.
      rewrite run_update_rule. cbn [hosts rules hostAutoIncrement].
      rewrite change_first_at.
      * cbv beta.
        set (r' := mkStoredRule r.(stored_rule)
                     (encodeHostIds JSON_stringify
                        (Shape.other_ids id
                           (parseHostIds JSON_parse StringToNumber
                              ObjectToNumber (Some r.(stored_host_ids)))))).
        destruct (IH (done_ ++ [r'])%list) as [results Hr].
        { rewrite <- app_assoc. cbn [app].
          rewrite !map_app in *. exact Hnd. }
        rewrite <- !app_assoc in Hr. cbn [app] in Hr.
        unfold bind. rewrite Hr. eexists. reflexivity.
      * intros y Hy. apply String.eqb_neq. intros E.
        rewrite map_app in Hnd. cbn [List.map] in Hnd.
        apply NoDup_remove_2 in Hnd. apply Hnd. apply in_or_app. left.
        rewrite <- E. now apply in_map.
      * apply String.eqb_refl.
Qed.

Lemma delHost_memory (id : Z) (db : MemoryDatabase) :
  NoDup (List.map stored_rule db.(rules)) ->
  delHost JSON_parse JSON_stringify StringToNumber ObjectToNumber id db
  = Ok (tt,
        mkMemoryDatabase
          (List.filter (fun item => negb (Z.eqb item.(DataAccess.id) id))
                       db.(hosts))
          (List.map
             (Shape.without_host JSON_parse JSON_stringify StringToNumber
                ObjectToNumber id)
             db.(rules))
          db.(hostAutoIncrement)).
Proof.
  intros Hnd. unfold delHost. unfold bind at 1.
  change (run (mkStatement "DELETE FROM hosts WHERE id = ?" [v_number id]) db)
    with (Ok (done
                (Some (Z.of_nat (List.length db.(hosts))
                       - Z.of_nat
                           (List.length
                              (List.filter
                                 (fun item => negb (Z.eqb item.(DataAccess.id) id))
                                 db.(hosts))))%Z) None,
              mkMemoryDatabase
                (List.filter (fun item => negb (Z.eqb item.(DataAccess.id) id))
                             db.(hosts))
                db.(rules) db.(hostAutoIncrement))).
  cbv beta iota. unfold bind at 1. rewrite decoded_listed.
  cbv beta iota. cbn [rules].
  destruct (batch_of_updates id
              (List.filter (fun item => negb (Z.eqb item.(DataAccess.id) id))
                           db.(hosts))
              db.(hostAutoIncrement) db.(rules) [] Hnd) as [results Hb].
  cbn [app] in Hb.
  destruct (filter_Boolean _) as [|st sts] eqn:Eu.
  - cbn [List.length Nat.ltb Nat.leb]. unfold ret.
    cbn [memory_batch] in Hb. unfold ret in Hb. injection Hb as _ Hb.
    now rewrite <- Hb.
  - cbn [List.length]. change (Nat.ltb 0 (S (List.length sts))) with true.
    cbv iota. unfold bind at 1.
    change (batch (st :: sts)) with (memory_batch (st :: sts)).
    rewrite Hb. reflexivity.
Qed.

Lemma filter_same_length {A : Type} (p : A -> bool) (xs : list A) :
  List.length (List.filter p xs) = List.length xs -> List.filter p xs = xs.
Proof.
  induction xs as [|x xs IH]; simpl; [reflexivity|].
  destruct (p x); simpl; intros H.
  - f_equal. apply IH. lia.
  - pose proof (filter_length_le p xs). lia.
Qed.

Lemma other_ids_exclude (id : Z) (hostIds : list number) :
  ~ In (of_Z id) (Shape.other_ids id hostIds).
Proof.
  unfold Shape.other_ids. intros H. apply filter_In in H.
  destruct H as [_ H]. unfold of_Z, strict_unequal in H.
  unfold Qc_eq_bool in H. destruct (Qc_eq_dec _ _); [discriminate|].
  congruence.
Qed.

Lemma other_ids_clean (id : Z) (hostIds : list number) :
  NoDup hostIds ->
  Forall (fun n => exists z : Z, (0 < z)%Z /\ n = of_Z z) hostIds ->
  Shape.clean (Shape.other_ids id hostIds) = Shape.other_ids id hostIds.
Proof.
  intros Hnd Hpos. apply clean_fixed.
  - now apply NoDup_filter.
  - apply Forall_forall. intros x Hx. apply filter_In in Hx.
    rewrite Forall_forall in Hpos. now apply Hpos.
Qed.

(** A rule after the deletion, decoded, when the remaining ids read
    back. *)
Lemma decoded_without_host (id : Z) (r : StoredRule) :
  Shape.reads_back JSON_parse JSON_stringify
    (Shape.other_ids id
       (snd (Shape.decoded JSON_parse StringToNumber ObjectToNumber r))) ->
  Shape.decoded JSON_parse StringToNumber ObjectToNumber
    (Shape.without_host JSON_parse JSON_stringify StringToNumber
       ObjectToNumber id r)
  = (r.(stored_rule),
     Shape.other_ids id
       (snd (Shape.decoded JSON_parse StringToNumber ObjectToNumber r))).
Proof.
  intros Hrb. unfold Shape.without_host. cbn [Shape.decoded snd] in *.
  destruct (Nat.eqb _ _) eqn:E.
  - apply Nat.eqb_eq in E. unfold Shape.other_ids in *.
    apply filter_same_length in E. unfold Shape.decoded. now rewrite E.
  - unfold Shape.decoded. cbn [stored_rule stored_host_ids]. f_equal.
    destruct (parseHostIds_clean JSON_parse StringToNumber ObjectToNumber
                (Some r.(stored_host_ids))) as [Hnd Hpos].
    rewrite decode_encode; rewrite (other_ids_clean id _ Hnd Hpos);
      [reflexivity | exact Hrb].
Qed.

(** X16. [delHost], on rules with distinct names whose remaining ids
    read back from their JSON text: the hosts with the id are gone and
    the other hosts keep their order; and [listRules] answers with the
    rules it answered with before, in the same order and under the
    same names, each with its former ids in their former order without
    the id of the host, so that no rule lists the deleted host any
    more. *)
Theorem delHost_cleans (host_id : Z) (db : MemoryDatabase) :
  NoDup (List.map stored_rule db.(rules)) ->
  Forall
    (fun r =>
       Shape.reads_back JSON_parse JSON_stringify
         (Shape.other_ids host_id
            (snd (Shape.decoded JSON_parse StringToNumber ObjectToNumber
                    r))))
    db.(rules) ->
  exists db',
    delHost JSON_parse JSON_stringify StringToNumber ObjectToNumber
      host_id db
    = Ok (tt, db')
    /\ db'.(hosts)
       = List.filter (fun item => negb (Z.eqb item.(id) host_id))
                     db.(hosts)
    /\ db'.(hostAutoIncrement) = db.(hostAutoIncrement)
    /\ (forall listed,
           listRules JSON_parse StringToNumber ObjectToNumber db
           = Ok (listed, db) ->
           listRules JSON_parse StringToNumber ObjectToNumber db'
           = Ok (List.map
                   (fun rule =>
                      (fst rule, Shape.other_ids host_id (snd rule)))
                   listed, db'))
    /\ (forall listed rule,
           listRules JSON_parse StringToNumber ObjectToNumber db'
           = Ok (listed, db') ->
           In rule listed -> ~ In (of_Z host_id) (snd rule)).
Proof.
  intros Hnd Hrb. eexists. split; [now apply delHost_memory|].
  cbn [hosts hostAutoIncrement].
  split; [reflexivity|]. split; [reflexivity|].
  assert (Hl : List.map
                 (Shape.decoded JSON_parse StringToNumber ObjectToNumber)
                 (List.map
                    (Shape.without_host JSON_parse JSON_stringify
                       StringToNumber ObjectToNumber host_id)
                    db.(rules))
               = List.map
                   (fun rule =>
                      (fst rule, Shape.other_ids host_id (snd rule)))
                   (List.map
                      (Shape.decoded JSON_parse StringToNumber
                         ObjectToNumber)
                      db.(rules))).
  { rewrite !map_map. apply map_ext_in. intros r Hr.
    rewrite Forall_forall in Hrb.
    now rewrite (decoded_without_host host_id r (Hrb r Hr)). }
  split.
  - intros listed H. rewrite decoded_listed in H. injection H as <-.
    rewrite decoded_listed. cbn [rules]. now rewrite Hl.
  - intros listed rule H Hin. rewrite decoded_listed in H.
    cbn [rules] in H. injection H as <-. rewrite Hl in Hin.
    apply in_map_iff in Hin. destruct Hin as [rule0 [<- _]].
    apply other_ids_exclude.
Qed.

(** *** The state the calls keep *)

Lemma NoDup_map_filter {A B : Type} (f : A -> B) (p : A -> bool)
      (xs : list A) :
  NoDup (List.map f xs) -> NoDup (List.map f (List.filter p xs)).
Proof.
  induction xs as [|x xs IH]; simpl; [trivial|].
  intros H. inversion H as [|? ? Hn Hnd]; subst.
  destruct (p x); simpl; [|now apply IH].
  constructor; [|now apply IH].
  intros Hin. apply Hn. apply in_map_iff in Hin.
  destruct Hin as [y [Hy Hin]]. apply filter_In in Hin.
  apply in_map_iff. exists y. tauto.
Qed.

Lemma NoDup_snoc {A : Type} (xs : list A) (x : A) :
  NoDup xs -> ~ In x xs -> NoDup (xs ++ [x]).
Proof.
  intros Hnd Hx. induction Hnd as [|y xs Hy Hnd IH]; simpl.
  - constructor; [intros [] | constructor].
  - constructor.
    + rewrite in_app_iff. simpl. intros [H | [H | []]].
      * contradiction.
      * apply Hx. now left.
    + apply IH. intros H. apply Hx. now right.
Qed.

Lemma without_host_name (host_id : Z) (r : StoredRule) :
  (Shape.without_host JSON_parse JSON_stringify StringToNumber
     ObjectToNumber host_id r).(stored_rule)
  = r.(stored_rule).
Proof. unfold Shape.without_host. now destruct (Nat.eqb _ _). Qed.

(** X17. On a database whose host ids are distinct and not above the
    counter and whose rule names are distinct, every call of the layer
    answers (none throws, [Failed to insert host] included) and leaves
    the database in such a state; the three reads leave it as it
    is. *)
Theorem layer_keeps_well_formed (db : MemoryDatabase) :
  Shape.well_formed db ->
  (forall host, exists i db',
      addOrUpdateHost WhiteSpace host db = Ok (i, db')
      /\ Shape.well_formed db')
  /\ (forall host_id, exists db',
         delHost JSON_parse JSON_stringify StringToNumber ObjectToNumber
           host_id db
         = Ok (tt, db')
         /\ Shape.well_formed db')
  /\ (forall rule, exists db',
         addOrUpdateRule JSON_stringify rule db = Ok (tt, db')
         /\ Shape.well_formed db')
  /\ (forall ruleName, exists db',
         delRule ruleName db = Ok (tt, db') /\ Shape.well_formed db')
  /\ (exists config,
         getHostConfig WhiteSpace JSON_parse StringToNumber ObjectToNumber db
         = Ok (config, db)).
Proof.
  intros [Hids [Hbound Hnames]]. split; [|split; [|split; [|split]]].
  - intros host.
    destruct host.(input_id) as [[|p|p]|] eqn:Ei.
    + eexists _, _. split.
      { apply addOrUpdateHost_insert_memory. now right. }
      unfold Shape.well_formed; cbn [hosts rules hostAutoIncrement].
      split; [|split; [|exact Hnames]].
      * rewrite map_app. apply NoDup_snoc; [exact Hids|].
        cbn [List.map id]. intros Hin. apply in_map_iff in Hin.
        destruct Hin as [r [Hr Hin]]. rewrite Forall_forall in Hbound.
        pose proof (Hbound r Hin). lia.
      * apply Forall_app. split.
        { eapply Forall_impl; [|exact Hbound]. intros r Hr. simpl in Hr.
          lia. }
        constructor; [cbn [id]; lia | constructor].
    + eexists _, _. split.
      { apply (addOrUpdateHost_update_memory host (Zpos p));
          [exact Ei | discriminate]. }
      unfold Shape.well_formed; cbn [hosts rules hostAutoIncrement].
      split; [|split; [|exact Hnames]].
      * now rewrite change_first_map.
      * rewrite <- (Forall_map id
          (fun i => (i <= db.(hostAutoIncrement))%Z)).
        rewrite change_first_map by reflexivity.
        now rewrite Forall_map.
    + eexists _, _. split.
      { apply (addOrUpdateHost_update_memory host (Zneg p));
          [exact Ei | discriminate]. }
      unfold Shape.well_formed; cbn [hosts rules hostAutoIncrement].
      split; [|split; [|exact Hnames]].
      * now rewrite change_first_map.
      * rewrite <- (Forall_map id
          (fun i => (i <= db.(hostAutoIncrement))%Z)).
        rewrite change_first_map by reflexivity.
        now rewrite Forall_map.
    + eexists _, _. split.
      { apply addOrUpdateHost_insert_memory. now left. }
      unfold Shape.well_formed; cbn [hosts rules hostAutoIncrement].
      split; [|split; [|exact Hnames]].
      * rewrite map_app. apply NoDup_snoc; [exact Hids|].
        cbn [List.map id]. intros Hin. apply in_map_iff in Hin.
        destruct Hin as [r [Hr Hin]]. rewrite Forall_forall in Hbound.
        pose proof (Hbound r Hin). lia.
      * apply Forall_app. split.
        { eapply Forall_impl; [|exact Hbound]. intros r Hr. simpl in Hr.
          lia. }
        constructor; [cbn [id]; lia | constructor].
  - intros host_id. eexists. split; [now apply delHost_memory|].
    unfold Shape.well_formed; cbn [hosts rules hostAutoIncrement].
    split; [|split].
    + now apply NoDup_map_filter.
    + apply Forall_forall. intros r Hr. apply filter_In in Hr.
      rewrite Forall_forall in Hbound. now apply Hbound.
    + rewrite map_map.
      rewrite (map_ext _ stored_rule (without_host_name host_id)).
      exact Hnames.
  - intros [ruleName hostIds]. eexists.
    split; [apply addOrUpdateRule_memory|].
    unfold Shape.well_formed; cbn [hosts rules hostAutoIncrement].
    split; [exact Hids|]. split; [exact Hbound|].
    destruct (List.find _ db.(rules)) eqn:Ef.
    + now rewrite change_first_map.
    + rewrite map_app. apply NoDup_snoc; [exact Hnames|].
      cbn [List.map stored_rule]. intros Hin. apply in_map_iff in Hin.
      destruct Hin as [r [Hr Hin]].
      pose proof (proj1 (find_none_iff _ _) Ef r Hin) as Hf.
      simpl in Hf. rewrite Hr, String.eqb_refl in Hf. discriminate.
  - intros ruleName. eexists. split; [apply delRule_memory|].
    unfold Shape.well_formed; cbn [hosts rules hostAutoIncrement].
    split; [exact Hids|]. split; [exact Hbound|].
    now apply NoDup_map_filter.
  - eexists. unfold getHostConfig. unfold bind at 1.
    rewrite listHosts_memory. cbv beta iota. unfold bind at 1.
    rewrite decoded_listed. reflexivity.
Qed.

(** *** Seeding *)

Lemma fold_max_bound (hs : list Utils.Host) (start : Z) :
  (start <= List.fold_left (fun max host => Z.max max host.(Utils.id))
                           hs start)%Z
  /\ Forall
       (fun h =>
          (h.(Utils.id)
           <= List.fold_left (fun max host => Z.max max host.(Utils.id))
                             hs start)%Z)
       hs.
Proof.
  revert start. induction hs as [|h hs IH]; intros start; simpl.
  - split; [lia | constructor].
  - destruct (IH (Z.max start h.(Utils.id))) as [Hs Hall].
    split; [lia|]. constructor; [lia | exact Hall].
Qed.

(** X18. The database the tests seed from a configuration has its
    counter at or above every host id; when the host ids of the
    configuration are distinct and its rule patterns are distinct, it
    is in the state that the calls of the layer keep. *)
Theorem seed_well_formed (config : Utils.HostConfig) :
  Forall
    (fun r => (r.(id) <= (seed JSON_stringify config).(hostAutoIncrement))%Z)
    (seed JSON_stringify config).(hosts)
  /\ (NoDup (List.map Utils.id config.(Utils.hosts)) ->
      NoDup (List.map fst config.(Utils.rules)) ->
      Shape.well_formed (seed JSON_stringify config)).
Proof.
  assert (Hb : Forall
                 (fun r =>
                    (r.(id)
                     <= (seed JSON_stringify config).(hostAutoIncrement))%Z)
                 (seed JSON_stringify config).(hosts)).
  { unfold seed; cbn [hosts hostAutoIncrement]. rewrite Forall_map.
    cbn [id]. apply fold_max_bound. }
  split; [exact Hb|]. intros Hids Hnames. split; [|split; [exact Hb|]].
  - unfold seed; cbn [hosts]. rewrite map_map. cbn [id]. exact Hids.
  - unfold seed; cbn [rules]. rewrite map_map. cbn [stored_rule].
    exact Hnames.
Qed.

Lemma sanitize_seeded_type (type : option string) :
  sanitizeProxyType WhiteSpace
    (Some match type with
          | Some t => t
          | None => "PROXY"
          end)
  = sanitizeProxyType WhiteSpace type.
Proof.
  destruct type as [t|]; [reflexivity|]. rewrite sanitizeProxyType_Some.
  now destruct (Builtins.blank WhiteSpace "PROXY").
Qed.

(** X19. Reading back what was seeded: when the ids of every rule read
    back from their JSON text, [getHostConfig] on the seeded database
    answers with the rules of the configuration in their order, each
    with its ids cleaned, and with the hosts of the configuration,
    each once, in ascending order of the ids, with their types
    sanitized; the database is left as it is. *)
Theorem seed_then_getHostConfig (config : Utils.HostConfig) :
  Forall
    (fun r : Utils.Rule =>
       Shape.reads_back JSON_parse JSON_stringify (List.map of_Z (snd r)))
    config.(Utils.rules) ->
  exists listed,
    getHostConfig WhiteSpace JSON_parse StringToNumber ObjectToNumber
      (seed JSON_stringify config)
    = Ok ((listed,
           List.map
             (fun r : Utils.Rule =>
                (fst r, Shape.clean (List.map of_Z (snd r))))
             config.(Utils.rules)),
          seed JSON_stringify config)
    /\ Permutation listed
         (List.map
            (fun h =>
               Utils.mkHost h.(Utils.id) h.(Utils.name) h.(Utils.host)
                 h.(Utils.port)
                 (Some (sanitizeProxyType WhiteSpace h.(Utils.type))))
            config.(Utils.hosts))
    /\ StronglySorted (fun a b => (a.(Utils.id) <= b.(Utils.id))%Z) listed.
Proof.
  intros Hrb.
  exists (List.map (normalizeHost WhiteSpace)
            (sort_by_id (seed JSON_stringify config).(hosts))).
  split; [|split].
  - unfold getHostConfig. unfold bind at 1. rewrite listHosts_memory.
    cbv beta iota. unfold bind at 1. rewrite decoded_listed.
    cbv beta iota. unfold ret. do 3 f_equal.
    unfold seed; cbn [rules]. rewrite map_map. apply map_ext_in.
    intros r Hr. unfold Shape.decoded; cbn [stored_rule stored_host_ids].
    f_equal. rewrite Forall_forall in Hrb. destruct (Hrb r Hr) as [Hne Hp].
    rewrite <- (map_map of_Z JNumber).
    now apply parseHostIds_of_numbers.
  - rewrite (Permutation_map _ (sort_by_id_Permutation _)).
    unfold seed; cbn [hosts]. rewrite map_map.
    unfold normalizeHost; cbn [id name host port type].
    erewrite map_ext; [reflexivity|]. intros h. cbv beta.
    now rewrite sanitize_seeded_type.
  - pose proof (sort_by_id_Sorted (seed JSON_stringify config).(hosts))
      as Hs.
    induction Hs as [|x rows Hs IH Hx]; simpl; constructor.
    + exact IH.
    + rewrite Forall_map. exact Hx.
Qed.

(** *** Deleting a host, seen from the resolver *)

Lemma integer_of_Z (z : Z) : Shape.integer (of_Z z) = z.
Proof.
  unfold Shape.integer, of_Z, Q2Qc; cbn [this]. now rewrite Qred_inject_Z.
Qed.

Lemma strict_unequal_of_Z (a b : Z) :
  strict_unequal (of_Z a) (of_Z b) = negb (Z.eqb a b).
Proof.
  unfold strict_unequal, of_Z, Qc_eq_bool.
  destruct (Qc_eq_dec _ _) as [E|E]; destruct (Z.eqb_spec a b) as [F|F];
    try reflexivity.
  - exfalso. apply F.
    apply (f_equal (fun q : Qc => Qnum q)) in E. cbn [Q2Qc this] in E.
    now rewrite !Qred_inject_Z in E.
  - exfalso. apply E. now rewrite F.
Qed.

Lemma integer_other_ids (host_id : Z) (hostIds : list number) :
  Forall (fun n => exists z : Z, (0 < z)%Z /\ n = of_Z z) hostIds ->
  List.map Shape.integer (Shape.other_ids host_id hostIds)
  = List.filter (fun z => negb (Z.eqb z host_id))
                (List.map Shape.integer hostIds).
Proof.
  induction 1 as [|n hostIds [z [_ ->]] _ IH]; [reflexivity|].
  cbn [Shape.other_ids List.filter List.map].
  rewrite strict_unequal_of_Z, integer_of_Z.
  fold (Shape.other_ids host_id hostIds).
  destruct (Z.eqb z host_id); cbn [negb List.map];
    now rewrite IH, ?integer_of_Z.
Qed.

Lemma insert_by_id_first (x : HostRow) (rows : list HostRow) :
  Forall (fun y => (x.(id) <= y.(id))%Z) rows ->
  insert_by_id x rows = x :: rows.
Proof.
  destruct 1 as [|y rows Hy _]; [reflexivity|]. simpl.
  now destruct (Z.leb_spec x.(id) y.(id)); [|lia].
Qed.

Lemma filter_insert_by_id (p : HostRow -> bool) (x : HostRow)
      (rows : list HostRow) :
  StronglySorted (fun a b => (a.(id) <= b.(id))%Z) rows ->
  List.filter p (insert_by_id x rows)
  = if p x then insert_by_id x (List.filter p rows)
    else List.filter p rows.
Proof.
  induction 1 as [|y rows Hs IH Hy]; simpl.
  - now destruct (p x).
  - destruct (Z.leb_spec x.(id) y.(id)) as [Hle|Hgt].
    + cbn [List.filter]. destruct (p x); [|reflexivity].
      destruct (p y).
      * simpl. now destruct (Z.leb_spec x.(id) y.(id)); [|lia].
      * symmetry. apply insert_by_id_first.
        apply Forall_forall. intros z Hz. apply filter_In in Hz.
        rewrite Forall_forall in Hy. pose proof (Hy z (proj1 Hz)).
        simpl in *. lia.
    + cbn [List.filter]. rewrite IH.
      destruct (p y), (p x); try reflexivity.
      simpl. now destruct (Z.leb_spec x.(id) y.(id)); [lia|].
Qed.

(** Sorting and filtering commute. *)
Lemma sort_by_id_filter (p : HostRow -> bool) (rows : list HostRow) :
  sort_by_id (List.filter p rows) = List.filter p (sort_by_id rows).
Proof.
  induction rows as [|x rows IH]; [reflexivity|].
  cbn [sort_by_id List.filter].
  rewrite filter_insert_by_id by apply sort_by_id_Sorted.
  destruct (p x); [cbn [sort_by_id]; now rewrite IH | exact IH].
Qed.

(** Resolution without a host id: the hosts with the id are taken off
    the hosts and the id is taken off the ids. *)
Lemma hostsOfIds_without (d : Z) (hs : list Utils.Host) (ids : list Z) :
  Utils.hostsOfIds
    (List.filter (fun h => negb (Z.eqb h.(Utils.id) d)) hs)
    (List.filter (fun z => negb (Z.eqb z d)) ids)
  = List.filter (fun h => negb (Z.eqb h.(Utils.id) d))
                (Utils.hostsOfIds hs ids).
Proof.
  assert (Hfind : forall i, i <> d ->
            List.find (fun item => Z.eqb item.(Utils.id) i)
              (List.filter (fun h => negb (Z.eqb h.(Utils.id) d)) hs)
            = List.find (fun item => Z.eqb item.(Utils.id) i) hs).
  { intros i Hi. induction hs as [|h hs IHh]; [reflexivity|]. simpl.
    destruct (Z.eqb_spec h.(Utils.id) d) as [E|E]; simpl.
    - destruct (Z.eqb_spec h.(Utils.id) i); [congruence | exact IHh].
    - destruct (Z.eqb h.(Utils.id) i); [reflexivity | exact IHh]. }
  induction ids as [|i ids IH]; [reflexivity|].
  cbn [List.filter]. rewrite (hostsOfIds_cons hs i ids).
  destruct (Z.eqb_spec i d) as [->|Hi]; cbn [negb].
  - rewrite IH.
    destruct (List.find (fun item => Z.eqb item.(Utils.id) d) hs)
      as [h|] eqn:Ef; [|reflexivity].
    apply find_some in Ef. destruct Ef as [_ Ef].
    cbn [List.filter]. now rewrite Ef.
  - rewrite hostsOfIds_cons, (Hfind i Hi), IH.
    destruct (List.find (fun item => Z.eqb item.(Utils.id) i) hs)
      as [h|] eqn:Ef; [|reflexivity].
    apply find_some in Ef. destruct Ef as [_ Ef].
    apply Z.eqb_eq in Ef. cbn [List.filter].
    destruct (Z.eqb_spec h.(Utils.id) d); [congruence | reflexivity].
Qed.

Lemma find_map_fst {A B C : Type} (p : A -> bool) (g : B -> C)
      (rs : list (A * B)) :
  List.find (fun item => p (fst item))
            (List.map (fun r => (fst r, g (snd r))) rs)
  = option_map (fun r => (fst r, g (snd r)))
               (List.find (fun item => p (fst item)) rs).
Proof.
  induction rs as [|r rs IH]; [reflexivity|]. simpl.
  destruct (p (fst r)); [reflexivity | exact IH].
Qed.

Lemma getHostConfig_memory (db : MemoryDatabase) :
  getHostConfig WhiteSpace JSON_parse StringToNumber ObjectToNumber db
  = Ok ((List.map (normalizeHost WhiteSpace) (sort_by_id db.(hosts)),
         List.map (Shape.decoded JSON_parse StringToNumber ObjectToNumber)
                  db.(rules)),
        db).
Proof.
  unfold getHostConfig. unfold bind at 1. rewrite listHosts_memory.
  cbv beta iota. unfold bind at 1. now rewrite decoded_listed.
Qed.

(** X20. Deleting a host, seen from the resolver: on rules with
    distinct names whose remaining ids read back from their JSON text,
    the configuration read after [delHost] resolves every host name to
    what the configuration read before resolved it to, without the
    hosts of the deleted id and otherwise in the same order; a rule
    that did not list the host resolves as before. *)
Theorem delHost_then_resolve (host_id : Z) (db db' : MemoryDatabase)
        (config config' : list Utils.Host * list Rule) (host : string) :
  NoDup (List.map stored_rule db.(rules)) ->
  Forall
    (fun r =>
       Shape.reads_back JSON_parse JSON_stringify
         (Shape.other_ids host_id
            (snd (Shape.decoded JSON_parse StringToNumber ObjectToNumber
                    r))))
    db.(rules) ->
  getHostConfig WhiteSpace JSON_parse StringToNumber ObjectToNumber db
  = Ok (config, db) ->
  delHost JSON_parse JSON_stringify StringToNumber ObjectToNumber host_id db
  = Ok (tt, db') ->
  getHostConfig WhiteSpace JSON_parse StringToNumber ObjectToNumber db'
  = Ok (config', db') ->
  Utils.resolveHostsByRule (Shape.as_HostConfig config') host
  = List.filter (fun h => negb (Z.eqb h.(Utils.id) host_id))
      (Utils.resolveHostsByRule (Shape.as_HostConfig config) host).
Proof.
  intros Hnd Hrb Hc Hd Hc'.
  rewrite (delHost_memory host_id db Hnd) in Hd. injection Hd as <-.
  rewrite getHostConfig_memory in Hc, Hc'.
  injection Hc as <-. injection Hc' as <-.
  cbn [hosts rules]. unfold Shape.as_HostConfig; cbn [fst snd].
  unfold Utils.resolveHostsByRule; cbv zeta; cbn [Utils.hosts Utils.rules].
  rewrite sort_by_id_filter.
  assert (Hh : List.map (normalizeHost WhiteSpace)
                 (List.filter
                    (fun item => negb (Z.eqb item.(id) host_id))
                    (sort_by_id db.(hosts)))
               = List.filter
                   (fun h => negb (Z.eqb h.(Utils.id) host_id))
                   (List.map (normalizeHost WhiteSpace)
                      (sort_by_id db.(hosts)))).
  { now rewrite filter_map_commute. }
  rewrite Hh. clear Hh.
  rewrite !map_map. unfold Utils.Rule.
  induction db.(rules) as [|r rs IH]; [reflexivity|].
  inversion Hnd as [|? ? _ Hnd']; subst.
  inversion Hrb as [|? ? Hr Hrb']; subst.
  cbn [List.map List.find fst snd].
  rewrite (decoded_without_host host_id r Hr). cbn [fst snd].
  destruct (Utils.hostMatch host
              (fst (Shape.decoded JSON_parse StringToNumber ObjectToNumber
                      r))) eqn:Em.
  - cbn [Shape.decoded fst] in Em |- *. rewrite Em. cbn [snd].
    rewrite integer_other_ids.
    + apply hostsOfIds_without.
    + apply parseHostIds_clean.
  - cbn [Shape.decoded fst] in Em |- *. rewrite Em.
    now apply IH.
Qed.

End OnMemory.

(** ** The layer on a sample database *)
Section OnSample.
Import Api DataAccess Db MemoryDb.

Example delHost_on_sample :
  delHost Shape.sample_JSON_parse Shape.sample_JSON_stringify
    Shape.sample_StringToNumber Shape.sample_ObjectToNumber 1
    Shape.sample_db
  = Ok (tt, Shape.sample_db_without_1).
Proof. vm_compute. reflexivity. Qed.

Ltac distinct :=
  repeat (constructor; [simpl; intuition (discriminate || lia)|]);
  constructor.

Ltac read_back :=
  repeat (constructor;
          [split; [vm_compute; discriminate | vm_compute; reflexivity]|]);
  constructor.

Lemma addOrUpdateHost_inserts_witness :
  addOrUpdateHost Builtins.Latin1_WhiteSpace
    (mkHostInput (Some 0%Z) None "example.net" 9000 (Some "HTTP"))
    Shape.sample_db
  = Ok (3%Z,
        mkMemoryDatabase
          (Shape.sample_db.(hosts)
             ++ [mkHostRow 3 None "example.net" 9000 (Some "HTTP")])
          Shape.sample_db.(rules) 3).
Proof.
  apply (proj1 (addOrUpdateHost_inserts Builtins.Latin1_WhiteSpace
                  (mkHostInput (Some 0%Z) None "example.net" 9000
                     (Some "HTTP"))
                  Shape.sample_db (or_intror eq_refl))).
Defined.

Lemma addOrUpdateHost_updates_witness :
  exists db',
    addOrUpdateHost Builtins.Latin1_WhiteSpace
      (mkHostInput (Some 2%Z) None "example.org" 9090 (Some "SOCKS5"))
      Shape.sample_db
    = Ok (2%Z, db')
    /\ db'.(rules) = Shape.sample_db.(rules).
Proof.
  destruct (addOrUpdateHost_updates Builtins.Latin1_WhiteSpace
              (mkHostInput (Some 2%Z) None "example.org" 9090
                 (Some "SOCKS5"))
              2%Z Shape.sample_db eq_refl ltac:(lia))
    as [db' [H [Hr _]]].
  exists db'. split; [exact H | exact Hr].
Defined.

Lemma delRule_removes_witness :
  exists db',
    delRule "*.github.com" Shape.sample_db = Ok (tt, db')
    /\ listRules Shape.sample_JSON_parse Shape.sample_StringToNumber
         Shape.sample_ObjectToNumber db'
       = Ok (List.filter
               (fun r => negb (String.eqb (fst r) "*.github.com"))
               [("*.github.com", [of_Z 1; of_Z 2]);
                ("a.youtube.com", [of_Z 2])], db').
Proof.
  destruct (delRule_removes Shape.sample_JSON_parse
              Shape.sample_StringToNumber Shape.sample_ObjectToNumber
              "*.github.com" Shape.sample_db)
    as [db' [H [_ [_ Hl]]]].
  exists db'. split; [exact H|]. apply Hl. vm_compute. reflexivity.
Defined.

Lemma addOrUpdateRule_upserts_witness :
  exists db',
    addOrUpdateRule Shape.sample_JSON_stringify
      ("*.github.com", [of_Z 2; of_Z 1]) Shape.sample_db
    = Ok (tt, db')
    /\ In (mkStoredRule "a.youtube.com" "[2]") db'.(rules).
Proof.
  destruct (addOrUpdateRule_upserts Shape.sample_JSON_stringify
              "*.github.com" [of_Z 2; of_Z 1] Shape.sample_db)
    as [db' [H [_ [_ [_ [_ Hk]]]]]].
  exists db'. split; [exact H|]. apply Hk.
  - simpl. right. left. reflexivity.
  - simpl. discriminate.
Defined.

Lemma delHost_cleans_witness :
  exists db',
    delHost Shape.sample_JSON_parse Shape.sample_JSON_stringify
      Shape.sample_StringToNumber Shape.sample_ObjectToNumber 1
      Shape.sample_db
    = Ok (tt, db')
    /\ db'.(hosts)
       = List.filter (fun item => negb (Z.eqb item.(id) 1))
                     Shape.sample_db.(hosts).
Proof.
  assert (Hn : NoDup (List.map stored_rule Shape.sample_db.(rules)))
    by (simpl; distinct).
  assert (Hr : Forall
                 (fun r =>
                    Shape.reads_back Shape.sample_JSON_parse
                      Shape.sample_JSON_stringify
                      (Shape.other_ids 1
                         (snd (Shape.decoded Shape.sample_JSON_parse
                                 Shape.sample_StringToNumber
                                 Shape.sample_ObjectToNumber r))))
                 Shape.sample_db.(rules))
    by (simpl; read_back).
  destruct (delHost_cleans Shape.sample_JSON_parse
              Shape.sample_JSON_stringify Shape.sample_StringToNumber
              Shape.sample_ObjectToNumber 1 Shape.sample_db Hn Hr)
    as [db' [H [Hh _]]].
  exists db'. split; [exact H | exact Hh].
Defined.

Lemma layer_keeps_well_formed_witness :
  exists db',
    delRule "a.youtube.com" Shape.sample_db = Ok (tt, db')
    /\ Shape.well_formed db'.
Proof.
  assert (Hw : Shape.well_formed Shape.sample_db).
  { split; [simpl; distinct|]. split; [|simpl; distinct].
    simpl. repeat (constructor; [simpl; lia|]). constructor. }
  apply (layer_keeps_well_formed Builtins.Latin1_WhiteSpace
           Shape.sample_JSON_parse Shape.sample_JSON_stringify
           Shape.sample_StringToNumber Shape.sample_ObjectToNumber
           Shape.sample_db Hw).
Defined.

Lemma seed_well_formed_witness :
  Shape.well_formed (seed Shape.sample_JSON_stringify Utils.test_hostConfig).
Proof.
  apply (proj2 (seed_well_formed Shape.sample_JSON_stringify
                  Utils.test_hostConfig)).
  - simpl. distinct.
  - simpl. distinct.
Defined.

Lemma seed_then_getHostConfig_witness :
  exists listed,
    getHostConfig Builtins.Latin1_WhiteSpace Shape.sample_JSON_parse
      Shape.sample_StringToNumber Shape.sample_ObjectToNumber
      (seed Shape.sample_JSON_stringify Utils.test_hostConfig)
    = Ok ((listed,
           List.map
             (fun r : Utils.Rule =>
                (fst r, Shape.clean (List.map of_Z (snd r))))
             Utils.test_hostConfig.(Utils.rules)),
          seed Shape.sample_JSON_stringify Utils.test_hostConfig).
Proof.
  assert (Hr : Forall
                 (fun r : Utils.Rule =>
                    Shape.reads_back Shape.sample_JSON_parse
                      Shape.sample_JSON_stringify (List.map of_Z (snd r)))
                 Utils.test_hostConfig.(Utils.rules))
    by (simpl; read_back).
  destruct (seed_then_getHostConfig Builtins.Latin1_WhiteSpace
              Shape.sample_JSON_parse Shape.sample_JSON_stringify
              Shape.sample_StringToNumber Shape.sample_ObjectToNumber
              Utils.test_hostConfig Hr)
    as [listed [H _]].
  exists listed. exact H.
Defined.

Lemma delHost_then_resolve_witness :
  Utils.resolveHostsByRule
    (Shape.as_HostConfig
       ([Utils.mkHost 2 None "proxy2.example.com" 8081 (Some "HTTP")],
        [("*.github.com", [of_Z 2]); ("a.youtube.com", [of_Z 2])]))
    "www.github.com"
  = List.filter (fun h => negb (Z.eqb h.(Utils.id) 1))
      (Utils.resolveHostsByRule
         (Shape.as_HostConfig
            ([Utils.mkHost 1 (Some "a") "proxy.example.com" 8080
                (Some "SOCKS");
              Utils.mkHost 2 None "proxy2.example.com" 8081 (Some "HTTP")],
             [("*.github.com", [of_Z 1; of_Z 2]);
              ("a.youtube.com", [of_Z 2])]))
         "www.github.com").
Proof.
  apply (delHost_then_resolve Builtins.Latin1_WhiteSpace
           Shape.sample_JSON_parse Shape.sample_JSON_stringify
           Shape.sample_StringToNumber Shape.sample_ObjectToNumber
           1 Shape.sample_db Shape.sample_db_without_1).
  - simpl. distinct.
  - simpl. read_back.
  - vm_compute. reflexivity.
  - vm_compute. reflexivity.
  - vm_compute. reflexivity.
Defined.

End OnSample.

(** ** The order of the decoded ids *)
Section DecodedOrder.
Import Api.

Lemma existsb_SameValueZero_false (x : number) (members : list number) :
  List.existsb (SameValueZero x) members = false <-> ~ In x members.
Proof.
  rewrite <- existsb_SameValueZero.
  destruct (List.existsb (SameValueZero x) members); split;
    congruence || (intros H; exfalso; now apply H).
Qed.

Lemma filter_not_among_app (x : number) (xs members : list number) :
  List.filter
    (fun y => negb (List.existsb (SameValueZero y) (members ++ [x])%list)) xs
  = List.filter (fun y => negb (List.existsb (SameValueZero y) [x]))
      (List.filter
         (fun y => negb (List.existsb (SameValueZero y) members)) xs).
Proof.
  induction xs as [|y xs IHxs]; [reflexivity|].
  cbn [List.filter]. rewrite existsb_app.
  destruct (List.existsb (SameValueZero y) members); cbn [negb orb].
  - exact IHxs.
  - cbn [List.filter].
    destruct (List.existsb (SameValueZero y) [x]); cbn [negb];
      [exact IHxs | now rewrite IHxs].
Qed.

(** The members added to a set that has [members] already: those of
    [xs] that are not among [members], each once, after [members]. *)
Lemma fold_Set_add_from (n : nat) (xs members : list number) :
  List.length xs <= n ->
  List.fold_left Set_add xs members
  = (members
       ++ Array_from_Set
            (List.filter
               (fun y => negb (List.existsb (SameValueZero y) members))
               xs))%list.
Proof.
  revert xs members. induction n as [|n IH]; intros xs members Hlen.
  - destruct xs; [|simpl in Hlen; lia]. simpl. now rewrite app_nil_r.
  - destruct xs as [|x xs]; [simpl; now rewrite app_nil_r|].
    simpl in Hlen. cbn [List.fold_left List.filter].
    unfold Set_add at 2.
    destruct (List.existsb (SameValueZero x) members) eqn:E; cbn [negb].
    + apply IH. lia.
    + unfold Array_from_Set. cbn [List.fold_left].
      unfold Set_add at 2. cbn [List.existsb app].
      rewrite (IH xs (members ++ [x])%list) by lia.
      rewrite (IH (List.filter _ xs) [x]).
      * rewrite <- app_assoc. cbn [app]. do 2 f_equal.
        unfold Array_from_Set. f_equal.
        apply filter_not_among_app.
      * pose proof (filter_length_le
                      (fun y => negb (List.existsb (SameValueZero y) members))
                      xs). lia.
Qed.

(** The members of a set are listed in the order of their first
    occurrences: the first element first, then the members of the rest
    without it. *)
Lemma Array_from_Set_cons (x : number) (xs : list number) :
  Array_from_Set (x :: xs) = x :: Array_from_Set (Shape.without x xs).
Proof.
  unfold Array_from_Set at 1. cbn [List.fold_left].
  unfold Set_add at 2. cbn [List.existsb app].
  rewrite (fold_Set_add_from (List.length xs) xs [x] (le_n _)).
  cbn [app]. do 2 f_equal. unfold Shape.without.
  apply filter_ext. intros y. cbn [List.existsb]. now rewrite orb_false_r.
Qed.

Lemma filter_without (f : number -> bool) (x : number) (xs : list number) :
  Shape.without x (List.filter f xs) = List.filter f (Shape.without x xs).
Proof.
  unfold Shape.without. induction xs as [|y xs IH]; [reflexivity|].
  cbn [List.filter].
  destruct (f y) eqn:Ef, (SameValueZero y x) eqn:Es;
    cbn [List.filter negb]; rewrite ?Ef, ?Es; cbn [negb];
    now rewrite ?IH.
Qed.

Variable JSON_parse : string -> option json.
Variable StringToNumber : string -> number.
Variable ObjectToNumber : json -> option number.

(** X21. A decoded rule keeps its first id first: when the stored text
    is an array of numbers that starts with the positive integer [x],
    [parseHostIds] returns [x] followed by what the rest of the array
    without [x] decodes to, so the ids come in the order in which they
    were first written (the order of the preference between the hosts
    of a rule). *)
Theorem parseHostIds_keeps_order
        (text : string) (x : number) (xs : list number) :
  text <> "" ->
  JSON_parse text = Some (JArray (List.map JNumber (x :: xs))) ->
  Number_isInteger x && gt_zero x = true ->
  parseHostIds JSON_parse StringToNumber ObjectToNumber (Some text)
  = x :: Shape.clean (Shape.without x xs).
Proof.
  intros Ht Hp Hx.
  rewrite (parseHostIds_of_numbers JSON_parse StringToNumber ObjectToNumber
             text (x :: xs) Ht Hp).
  unfold Shape.clean. cbn [List.filter]. rewrite Hx.
  rewrite Array_from_Set_cons. now rewrite filter_without.
Qed.

End DecodedOrder.

Lemma parseHostIds_keeps_order_witness :
  Api.parseHostIds Shape.sample_JSON_parse Shape.sample_StringToNumber
    Shape.sample_ObjectToNumber (Some "[2,1]")
  = Api.of_Z 2 :: Shape.clean (Shape.without (Api.of_Z 2) [Api.of_Z 1]).
Proof.
  apply (parseHostIds_keeps_order Shape.sample_JSON_parse
           Shape.sample_StringToNumber Shape.sample_ObjectToNumber
           "[2,1]" (Api.of_Z 2) [Api.of_Z 1]).
  - discriminate.
  - vm_compute. reflexivity.
  - vm_compute. reflexivity.
Defined.

(** ** The first service: a host in use is not deleted *)
Section HostInUse.
Import StaticPac HostRoutes.
Variable JSON_parse : string -> option Api.json.
Variable FractionToString : Qc -> string.

Lemma includes_lists (hostIds : Api.json) (n : Api.number) :
  (includes FractionToString hostIds n = Some true
   <-> lists FractionToString hostIds n)
  /\ (includes FractionToString hostIds n = Some false
      <-> has_includes hostIds /\ ~ lists FractionToString hostIds n)
  /\ (includes FractionToString hostIds n = None <-> ~ has_includes hostIds).
Proof.
  assert (Hbool : forall (b : bool) (P : Prop),
             (b = true <-> P) ->
             (Some b = Some true <-> P)
             /\ (Some b = Some false <-> True /\ ~ P)
             /\ (Some b = None <-> ~ True)).
  { intros [|] P HP.
    - assert (HP' : P) by now apply HP.
      split; [|split]; split; try discriminate; tauto.
    - assert (~ P) by (intros H; apply HP in H; discriminate).
      split; [|split]; split; try discriminate; tauto. }
  destruct hostIds as [|b|m|s|items|members];
    cbn [includes lists has_includes].
  1-3, 6: split; [|split]; split; try discriminate; tauto.
  - apply Hbool. apply includes_spec.
  - apply Hbool. rewrite existsb_exists. split.
    + intros [item [Hin E]]. destruct item; try discriminate.
      apply SameValueZero_eq in E. now subst.
    + intros Hin. exists (Api.JNumber n). split; [exact Hin|].
      now apply SameValueZero_eq.
Qed.

(** X22. The check of [deleteHost] runs through exactly when the text
    of every rule parses to an array or a string that does not list
    the host; when it refuses, the pattern it names is that of the
    first rule that lists the host, and the rules before it parsed
    and did not list it.  A text that parses to anything else ([null],
    a number, a boolean, an object) throws like a text that does not
    parse; and a string lists the host when the text of the id occurs
    in it.  When the conversion of the id to a number throws, the
    check runs through only if there is no rule. *)
Theorem in_use_spec (n : Api.number) (rules : list RuleRow) :
  (in_use JSON_parse FractionToString (Some n) rules = free
   <-> Forall
         (fun r => exists hostIds,
              JSON_parse r.(host_ids) = Some hostIds
              /\ has_includes hostIds
              /\ ~ lists FractionToString hostIds n)
         rules)
  /\ (forall pattern_,
         in_use JSON_parse FractionToString (Some n) rules = used_by pattern_ ->
         exists before r after hostIds,
           rules = (before ++ r :: after)%list
           /\ r.(pattern) = pattern_
           /\ JSON_parse r.(host_ids) = Some hostIds
           /\ lists FractionToString hostIds n
           /\ Forall
                (fun r' => exists hostIds',
                     JSON_parse r'.(host_ids) = Some hostIds'
                     /\ has_includes hostIds'
                     /\ ~ lists FractionToString hostIds' n)
                before)
  /\ (in_use JSON_parse FractionToString None rules = free <-> rules = []).
Proof.
  assert (Hnone : in_use JSON_parse FractionToString None rules = free
                  <-> rules = []).
  { destruct rules as [|r rules]; cbn [in_use].
    - split; reflexivity.
    - destruct (JSON_parse r.(host_ids)); split; discriminate. }
  rewrite <- and_assoc. split; [|exact Hnone]. clear Hnone.
  induction rules as [|r rules [IHfree IHused]].
  - split; [split; [constructor | reflexivity] | discriminate].
  - cbn [in_use].
    destruct (JSON_parse r.(host_ids)) as [hostIds|] eqn:Ep.
    + destruct (includes_lists hostIds n) as [Htrue [Hfalse Hnone]].
      destruct (includes FractionToString hostIds n) as [[|]|] eqn:Ei.
      * assert (Hl : lists FractionToString hostIds n)
          by now apply Htrue.
        split.
        { split; [discriminate|]. intros H.
          inversion H as [|? ? [ids [Hp [_ Hn]]] _]; subst.
          rewrite Ep in Hp. injection Hp as <-. contradiction. }
        intros p H. injection H as <-.
        exists [], r, rules, hostIds. repeat split; auto.
      * assert (Hn : has_includes hostIds
                     /\ ~ lists FractionToString hostIds n)
          by now apply Hfalse.
        split.
        { rewrite IHfree. split.
          - intros H. constructor; [now exists hostIds | exact H].
          - intros H. now inversion H. }
        intros p H. destruct (IHused p H)
          as [before [r0 [after [ids [-> [Hp [Hq [Hi Hb]]]]]]]].
        exists (r :: before), r0, after, ids. repeat split; auto.
        constructor; [now exists hostIds | exact Hb].
      * assert (Hn : ~ has_includes hostIds) by now apply Hnone.
        split; [|discriminate].
        split; [discriminate|]. intros H.
        inversion H as [|? ? [ids [Hp [Hh _]]] _]; subst.
        rewrite Ep in Hp. injection Hp as <-. contradiction.
    + split.
      * split; [discriminate|]. intros H.
        inversion H as [|? ? [ids [Hp _]] _]; subst. congruence.
      * discriminate.
Qed.

End HostInUse.

(** A string that holds the digits of the id counts as listing it; a
    row that holds [null] throws once the rows before it are passed. *)
Example in_use_on_other_values :
  HostRoutes.in_use StaticPac.sample_JSON_parse
    StaticPac.sample_FractionToString (Some (Api.of_Z 1))
    [StaticPac.mkRuleRow "a.example.com" "[]";
     StaticPac.mkRuleRow "b.example.com" (JS.dq ++ "21" ++ JS.dq)]
  = HostRoutes.used_by "b.example.com"
  /\ HostRoutes.in_use StaticPac.sample_JSON_parse
       StaticPac.sample_FractionToString (Some (Api.of_Z 5))
       [StaticPac.mkRuleRow "a.example.com" "[2,1]";
        StaticPac.mkRuleRow "b.example.com" "null"]
     = HostRoutes.threw.
Proof. split; vm_compute; reflexivity. Qed.
